(** * telenot-bridge: frame classification, bitfield state synchronisation,
      command encoding and TCP reconnection

    A shallow embedding of the classes of the bridge, module by module:

      - [Telenot] and [VirtualStateHandler]
        (services/telenot/TelenotService.mjs),
      - [CommandHandler] and [StateManager]
        (services/telenot/CommandHandler.mjs),
      - [SocketHandler] (services/socket/SocketHandler.mjs),
      - [SocketManager] (imported as services/socket/SocketManager.mjs),

    with the configuration of config-example/config.mjs as a parameter.

    Conventions of the embedding.

      - A JavaScript string is a [string]; every [ascii] stands for one
        UTF-16 code unit below 256.  Frames, topics, hex addresses and
        command names of the program all live in that range.
      - A JavaScript number that the program uses as an integer is a [Z];
        a number that may be [NaN] is an [option Z], [None] being [NaN].
        All integers at hand are far below 2^53.
      - A [Buffer] is the list of its bytes.
      - A [Map] whose iteration order matters is an association list in
        insertion order; a [Map] that is only looked up is a [gmap].
      - The objects that [Telenot]'s constructor wires together share one
        record, [World]; a method is a function from the world to the new
        world (explicit state passing), next to what it returns.
      - What the environment decides -- whether a publish or a socket
        write succeeds, what the clock reads -- is a parameter, [Env].
      - An [async] method that is awaited is run to completion before
        its caller goes on, the way the test-suite awaits it.  The one
        call the sources make without [await], that of
        [handleStateChange] in [Telenot.decodeHex], runs up to its first
        [await] when it is made and is suspended there; the rest of it
        runs from [await] to [await] as events of its own, [Resumed],
        in any order among the other events.
      - A logger call is recorded as a level and a message constructor that
        names the template of the source; the text of the message is not
        rebuilt. *)

From Stdlib Require Import ZArith Lia Ascii String List Bool
  DecimalString HexadecimalString.
From Stdlib Require HexadecimalFacts HexadecimalPos.
Import ListNotations.
From stdpp Require Import base numbers strings list gmap.

Local Open Scope string_scope.
Local Open Scope Z_scope.

(** ** JavaScript primitives used by the sources *)

Module JS.

Definition code (c : ascii) : Z := Z.of_N (N_of_ascii c).

Definition chars (s : string) : list ascii := list_ascii_of_string s.
Definition str (l : list ascii) : string := string_of_list_ascii l.

(** Value of a hexadecimal digit, [None] for any other character. *)
Definition hex_digit_val (c : ascii) : option Z :=
  let n := code c in
  if (48 <=? n) && (n <=? 57) then Some (n - 48)
  else if (97 <=? n) && (n <=? 102) then Some (n - 87)
  else if (65 <=? n) && (n <=? 70) then Some (n - 55)
  else None.

Definition is_hex_digit (c : ascii) : bool :=
  match hex_digit_val c with Some _ => true | None => false end.

(** White space that [parseInt] and [\s] skip, among the code units
    below 256: TAB, LF, VT, FF, CR, SPACE and NBSP. *)
Definition is_white_space (c : ascii) : bool :=
  let n := code c in
  ((9 <=? n) && (n <=? 13)) || (n =? 32) || (n =? 160).

(** Line terminators, which [.] of a regular expression refuses. *)
Definition is_line_terminator (c : ascii) : bool :=
  let n := code c in (n =? 10) || (n =? 13).

Fixpoint skip_white_space (l : list ascii) : list ascii :=
  match l with
  | c :: t => if is_white_space c then skip_white_space t else l
  | [] => []
  end.

(** The longest prefix of hexadecimal digits, read most significant
    digit first: the value so far, and whether a digit was seen. *)
Fixpoint hex_prefix (l : list ascii) (acc : Z) (seen : bool) : option Z :=
  match l with
  | c :: t =>
      match hex_digit_val c with
      | Some d => hex_prefix t (16 * acc + d) true
      | None => if seen then Some acc else None
      end
  | [] => if seen then Some acc else None
  end.

(** [parseInt(s, 16)]: leading white space, an optional sign, an
    optional [0x] or [0X], then the longest run of hexadecimal digits;
    [NaN] when there is no digit. *)
Definition parseInt16 (s : string) : option Z :=
  let l := skip_white_space (chars s) in
  let '(sign, l) :=
    match l with
    | "-"%char :: t => (-1, t)
    | "+"%char :: t => (1, t)
    | _ => (1, l)
    end in
  let l :=
    match l with
    | "0"%char :: "x"%char :: t => t
    | "0"%char :: "X"%char :: t => t
    | _ => l
    end in
  match hex_prefix l 0 false with
  | Some v => Some (sign * v)
  | None => None
  end.

(** [n.toString(16)] of an integer: lower-case digits, no padding. *)
Definition toString16 (n : Z) : string :=
  let digits (m : Z) :=
    HexadecimalString.NilZero.string_of_uint (N.to_hex_uint (Z.to_N m)) in
  if n <? 0 then "-" ++ digits (- n) else digits n.

(** [n.toString(16)] of a number that may be [NaN]. *)
Definition num_toString16 (n : option Z) : string :=
  match n with
  | Some z => toString16 z
  | None => "NaN"
  end.

(** The binary digits of a positive number, least significant first. *)
Fixpoint pos_bits_lsb (p : positive) : list ascii :=
  match p with
  | xH => ["1"%char]
  | xO q => "0"%char :: pos_bits_lsb q
  | xI q => "1"%char :: pos_bits_lsb q
  end.

(** [n.toString(2)] of a natural number. *)
Definition toString2 (n : N) : string :=
  match n with
  | N0 => "0"
  | Npos p => str (rev (pos_bits_lsb p))
  end.

(** [s.padStart(width, '0')] *)
Definition padStart0 (width : nat) (s : string) : string :=
  str (repeat "0"%char (width - String.length s)) ++ s.

(** [s.slice(n)] for [n >= 0] *)
Definition slice_from (n : nat) (s : string) : string :=
  str (drop n (chars s)).

(** [s.slice(-n)] for [n > 0]: the last [n] characters, the whole
    string when it is shorter. *)
Definition slice_last (n : nat) (s : string) : string :=
  str (drop (String.length s - n) (chars s)).

(** [s.substring(0, n)] *)
Definition substring0 (n : nat) (s : string) : string :=
  str (take n (chars s)).

(** [s[i]]: the character at index [i], [undefined] out of range. *)
Definition char_at (s : string) (i : nat) : option ascii :=
  chars s !! i.

(** [s.match(/.{1,2}/g)]: the successive greedy matches of one or two
    characters other than line terminators; [null] when there is no
    match at all. *)
Fixpoint match_1_2 (l : list ascii) : list string :=
  match l with
  | [] => []
  | a :: t =>
      if is_line_terminator a then match_1_2 t
      else match t with
           | [] => [str [a]]
           | b :: t' =>
               if is_line_terminator b then str [a] :: match_1_2 t'
               else str [a; b] :: match_1_2 t'
           end
  end.

Definition match_pairs (s : string) : option (list string) :=
  match match_1_2 (chars s) with
  | [] => None
  | l => Some l
  end.

(** Addition of numbers that may be [NaN]. *)
Definition num_add (a b : option Z) : option Z :=
  match a, b with
  | Some x, Some y => Some (x + y)
  | _, _ => None
  end.

(** [Buffer.from(array)]: every entry is reduced to a byte, [NaN]
    becoming 0. *)
Definition Buffer_from (l : list (option Z)) : list Z :=
  map (fun x => match x with
                | Some z => z mod 256
                | None => 0
                end) l.

(** The property names every object literal inherits from
    [Object.prototype]; a lookup [obj[key]] with one of them finds the
    inherited member, not [undefined]. *)
Definition Object_prototype_keys : list string :=
  [ "constructor"; "__defineGetter__"; "__defineSetter__"; "hasOwnProperty";
    "__lookupGetter__"; "__lookupSetter__"; "isPrototypeOf";
    "propertyIsEnumerable"; "toString"; "valueOf"; "__proto__";
    "toLocaleString" ].

Definition inherited (key : string) : bool :=
  existsb (String.eqb key) Object_prototype_keys.

End JS.

(** ** Collaborators: logger, clock, publish sink, configuration *)

(** The levels of [customLevels] in [Logger.mjs]. *)
Inductive Level : Set :=
  | LError | LWarn | LInfo | LDiscover | LVerbose | LDebug.

(** One constructor per message template of the sources. *)
Inductive LogMsg : Set :=
  (* Telenot *)
  | AttemptingToSend (command action : string)
  | InvalidCommandGenerated (action : string)
  | CannotSendNotConnected
  | Sending (action command : string)
  | SentSuccessfully (action command : string)
  | FailedToSend (action : string)
  | InvalidParametersForSBArea
  | UnknownContentName (contentName : string)
  | SocketErrorCallback
  | SocketClosedCallback
  (* SocketManager *)
  | ConnectedToTcpConverter
  | AttemptingToReconnect (attempt maxAttempts : Z)
  | MaxReconnectionAttemptsReached
  | SocketConnectionTimedOut
  | ErrorWritingData
  | DataWritten (data : list Z)
  (* StateManager *)
  | DiscoveryDetection
  | DiscoveryDetail (contentName : string) (byteIndex bitIndex : Z)
      (positionHex previousBit : string) (bitValue : option ascii)
  | PublishedStateChange (topic payload : string)
  | FailedToPublishState (topic : string)
  (* SocketHandler *)
  | ParsedMsgType (msgType : option Z)
  | ConfirmationAckReceived
  | SystemRestartDetected
  | UnknownMessageType (hexStr : string)
  | PublishedTo (message topic : string)
  | FailedToPublishTo (topic : string)
  | HandleDataOnClosedSocket
  | ProcessingHexString (hexStr : string)
  | SendingResponse (response : list Z)
  | ErrorHandlingData
  (* CommandHandler *)
  | ExecutingCommand (command internalCommand : string) (night : bool)
  | UnknownCommand (command : string).

Definition LogEntry : Set := (Level * LogMsg)%type.

(** What [new Date()] reads: a point in time, broken down in UTC. *)
Record Date : Set := mkDate {
  year : Z; month : Z; day : Z;
  hours : Z; minutes : Z; seconds : Z; milliseconds : Z
}.

(** One call of [mqttHandler.publish(topic, message, { retain })]. *)
Record PublishCall : Set := mkPublishCall {
  pub_topic : string;
  pub_message : string;
  pub_retain : bool
}.

(** One catalog entry of a content area ([config/locations/*.mjs]).
    A field that an entry may leave out is an [option]. *)
Record Position : Set := mkPosition {
  hex : string;
  name : option string;
  name_ha : option string;
  type : option string;
  topic : string;
  location : option string;
  inverted : bool
}.

Record ContentConfig : Set := mkContentConfig {
  content_name : string;
  offset : nat;
  positions : list Position
}.

(** [config/config.mjs], as far as the modelled sources read it. *)
Record Config : Set := mkConfig {
  Discover : bool;
  stateTopic : string;
  diagnosticsTopic : string;
  COMMAND_SB_STATE_ON : string;
  SICHERUNGSBEREICH : ContentConfig;
  SICHERUNGSBEREICH2 : ContentConfig;
  MELDEBEREICHE : ContentConfig;
  MELDEGRUPPEN : ContentConfig
}.

(** [config.Telenot[contentName]] for the names of the four content
    areas, the only ones [parseData] passes; [None] is [undefined]. *)
Definition Telenot_area (config : Config) (contentName : string)
  : option ContentConfig :=
  if String.eqb contentName "SICHERUNGSBEREICH" then Some (SICHERUNGSBEREICH config)
  else if String.eqb contentName "SICHERUNGSBEREICH2" then Some (SICHERUNGSBEREICH2 config)
  else if String.eqb contentName "MELDEBEREICHE" then Some (MELDEBEREICHE config)
  else if String.eqb contentName "MELDEGRUPPEN" then Some (MELDEGRUPPEN config)
  else None.

(** A [Map<number, number>] in insertion order. *)
Definition ByteMap : Set := list (Z * Z).

(** The callbacks a socket was created with: those of
    [Telenot.setupConnections], or the empty ones of [handleReconnect]. *)
Inductive Callbacks : Set := TelenotCallbacks | EmptyCallbacks.

(** ** Calls that are not awaited

    [Telenot.decodeHex] calls the asynchronous [handleStateChange] and
    returns without awaiting it.  Such a call runs up to its first
    [await] when it is made and is suspended there; the rest of it runs
    later, from [await] to [await], between the events that follow. *)

(** A call of [publishState] suspended at
    [await this.mqttHandler.publish(...)]: the number of the publish call
    it made, whose outcome decides how it goes on, and what it holds of
    [position.topic], [JSON.stringify(payload)] and [state]. *)
Record Publishing : Set := mkPublishing {
  awaited_call : nat;
  awaited_topic : string;
  awaited_message : string;
  awaited_state : string
}.

(** A call of [handleStateChange] suspended at an [await], with the
    local variables it still reads.  The call of [publishState] that a
    loop awaits is suspended itself ([Some]), or it has returned
    ([None]). *)
Inductive Suspended : Set :=
  (* the first frame of an area: at [await this.publishState(...)] in
     [publishPositionStates], [rest] being the positions still to visit *)
  | InPublishPositionStates (publishing : option Publishing)
      (byteMap : ByteMap) (rest : list Position) (contentName : string)
  (* at [await this.publishState(...)] in [processStateChanges], called
     for byte [byteIndex]; [entries] are the entries of the byte map that
     [handleStateChange] has still to visit *)
  | InProcessStateChanges (publishing : option Publishing)
      (rest : list Position) (newBinary oldBinary : string) (byteIndex : Z)
      (entries : list (Z * Z)) (prevMap byteMap : ByteMap)
      (positions : list Position) (contentName : string)
  (* at [await this.processStateChanges(...)] in [handleStateChange],
     the awaited call having returned *)
  | InHandleStateChange (entries : list (Z * Z)) (prevMap byteMap : ByteMap)
      (positions : list Position) (contentName : string).

(** ** The mutable state of the bridge

    One record holds the fields of the objects that [Telenot]'s
    constructor wires together, and what has been handed to the
    collaborators so far. *)

Record World : Type := mkWorld {
  (** StateManager: [this.statesPrevious] *)
  statesPrevious : gmap string ByteMap;
  (** StateManager: [this.lastPublishedStates] *)
  lastPublishedStates : gmap string string;
  (** VirtualStateHandler: [this.virtualNightMode] *)
  virtualNightMode : bool;
  (** SocketHandler: the static [readyToSendData.value] *)
  readyToSendData : bool;
  (** SocketManager: [this.socket], an index into [sockets] *)
  socket : option nat;
  (** SocketManager: [this.isConnected] *)
  isConnected : bool;
  (** SocketManager: [this.reconnectAttempts] *)
  reconnectAttempts : Z;
  (** SocketManager: [this.maxReconnectAttempts] *)
  maxReconnectAttempts : Z;
  (** SocketManager: [this.reconnectTimeout], a timer handle *)
  reconnectTimeout : option nat;
  (** every [net.Socket] created so far, with its callbacks *)
  sockets : list Callbacks;
  (** the sockets on which [end()] was called *)
  ended : list nat;
  (** the handles of [setTimeout] that are still pending *)
  timers : list nat;
  (** the next handle [setTimeout] returns *)
  next_timer : nat;
  (** the buffers handed to [socket.write], oldest first *)
  written : list (list Z);
  (** the calls of [mqttHandler.publish], oldest first *)
  published : list PublishCall;
  (** the calls of the logger, oldest first *)
  log : list LogEntry;
  (** how often [new Date()] was evaluated *)
  clock_reads : nat;
  (** the calls of [handleStateChange] that are suspended, oldest first *)
  suspended : list Suspended
}.

(** What the environment decides: the configuration, the outcome of the
    [n]-th publish and of the [n]-th socket write ([true]: the promise
    resolves), and the [n]-th reading of the clock. *)
Record Env : Type := mkEnv {
  config : Config;
  publish_outcome : nat -> bool;
  write_outcome : nat -> bool;
  clock : nat -> Date
}.

(** Field updates. *)
Definition set_statesPrevious (x : gmap string ByteMap) (w : World) : World :=
  mkWorld x (lastPublishedStates w) (virtualNightMode w) (readyToSendData w)
    (socket w) (isConnected w) (reconnectAttempts w) (maxReconnectAttempts w)
    (reconnectTimeout w) (sockets w) (ended w) (timers w) (next_timer w)
    (written w) (published w) (log w) (clock_reads w) (suspended w).
Definition set_lastPublishedStates (x : gmap string string) (w : World) : World :=
  mkWorld (statesPrevious w) x (virtualNightMode w) (readyToSendData w)
    (socket w) (isConnected w) (reconnectAttempts w) (maxReconnectAttempts w)
    (reconnectTimeout w) (sockets w) (ended w) (timers w) (next_timer w)
    (written w) (published w) (log w) (clock_reads w) (suspended w).
Definition set_virtualNightMode (x : bool) (w : World) : World :=
  mkWorld (statesPrevious w) (lastPublishedStates w) x (readyToSendData w)
    (socket w) (isConnected w) (reconnectAttempts w) (maxReconnectAttempts w)
    (reconnectTimeout w) (sockets w) (ended w) (timers w) (next_timer w)
    (written w) (published w) (log w) (clock_reads w) (suspended w).
Definition set_readyToSendData (x : bool) (w : World) : World :=
  mkWorld (statesPrevious w) (lastPublishedStates w) (virtualNightMode w) x
    (socket w) (isConnected w) (reconnectAttempts w) (maxReconnectAttempts w)
    (reconnectTimeout w) (sockets w) (ended w) (timers w) (next_timer w)
    (written w) (published w) (log w) (clock_reads w) (suspended w).
Definition set_socket (x : option nat) (w : World) : World :=
  mkWorld (statesPrevious w) (lastPublishedStates w) (virtualNightMode w)
    (readyToSendData w) x (isConnected w) (reconnectAttempts w)
    (maxReconnectAttempts w) (reconnectTimeout w) (sockets w) (ended w)
    (timers w) (next_timer w) (written w) (published w) (log w)
    (clock_reads w) (suspended w).
Definition set_isConnected (x : bool) (w : World) : World :=
  mkWorld (statesPrevious w) (lastPublishedStates w) (virtualNightMode w)
    (readyToSendData w) (socket w) x (reconnectAttempts w)
    (maxReconnectAttempts w) (reconnectTimeout w) (sockets w) (ended w)
    (timers w) (next_timer w) (written w) (published w) (log w)
    (clock_reads w) (suspended w).
Definition set_reconnectAttempts (x : Z) (w : World) : World :=
  mkWorld (statesPrevious w) (lastPublishedStates w) (virtualNightMode w)
    (readyToSendData w) (socket w) (isConnected w) x (maxReconnectAttempts w)
    (reconnectTimeout w) (sockets w) (ended w) (timers w) (next_timer w)
    (written w) (published w) (log w) (clock_reads w) (suspended w).
Definition set_reconnectTimeout (x : option nat) (w : World) : World :=
  mkWorld (statesPrevious w) (lastPublishedStates w) (virtualNightMode w)
    (readyToSendData w) (socket w) (isConnected w) (reconnectAttempts w)
    (maxReconnectAttempts w) x (sockets w) (ended w) (timers w)
    (next_timer w) (written w) (published w) (log w) (clock_reads w)
    (suspended w).
Definition set_sockets (x : list Callbacks) (w : World) : World :=
  mkWorld (statesPrevious w) (lastPublishedStates w) (virtualNightMode w)
    (readyToSendData w) (socket w) (isConnected w) (reconnectAttempts w)
    (maxReconnectAttempts w) (reconnectTimeout w) x (ended w) (timers w)
    (next_timer w) (written w) (published w) (log w) (clock_reads w)
    (suspended w).
Definition set_ended (x : list nat) (w : World) : World :=
  mkWorld (statesPrevious w) (lastPublishedStates w) (virtualNightMode w)
    (readyToSendData w) (socket w) (isConnected w) (reconnectAttempts w)
    (maxReconnectAttempts w) (reconnectTimeout w) (sockets w) x (timers w)
    (next_timer w) (written w) (published w) (log w) (clock_reads w)
    (suspended w).
Definition set_timers (x : list nat) (w : World) : World :=
  mkWorld (statesPrevious w) (lastPublishedStates w) (virtualNightMode w)
    (readyToSendData w) (socket w) (isConnected w) (reconnectAttempts w)
    (maxReconnectAttempts w) (reconnectTimeout w) (sockets w) (ended w) x
    (next_timer w) (written w) (published w) (log w) (clock_reads w)
    (suspended w).
Definition set_next_timer (x : nat) (w : World) : World :=
  mkWorld (statesPrevious w) (lastPublishedStates w) (virtualNightMode w)
    (readyToSendData w) (socket w) (isConnected w) (reconnectAttempts w)
    (maxReconnectAttempts w) (reconnectTimeout w) (sockets w) (ended w)
    (timers w) x (written w) (published w) (log w) (clock_reads w)
    (suspended w).
Definition set_written (x : list (list Z)) (w : World) : World :=
  mkWorld (statesPrevious w) (lastPublishedStates w) (virtualNightMode w)
    (readyToSendData w) (socket w) (isConnected w) (reconnectAttempts w)
    (maxReconnectAttempts w) (reconnectTimeout w) (sockets w) (ended w)
    (timers w) (next_timer w) x (published w) (log w) (clock_reads w)
    (suspended w).
Definition set_published (x : list PublishCall) (w : World) : World :=
  mkWorld (statesPrevious w) (lastPublishedStates w) (virtualNightMode w)
    (readyToSendData w) (socket w) (isConnected w) (reconnectAttempts w)
    (maxReconnectAttempts w) (reconnectTimeout w) (sockets w) (ended w)
    (timers w) (next_timer w) (written w) x (log w) (clock_reads w)
    (suspended w).
Definition set_log (x : list LogEntry) (w : World) : World :=
  mkWorld (statesPrevious w) (lastPublishedStates w) (virtualNightMode w)
    (readyToSendData w) (socket w) (isConnected w) (reconnectAttempts w)
    (maxReconnectAttempts w) (reconnectTimeout w) (sockets w) (ended w)
    (timers w) (next_timer w) (written w) (published w) x (clock_reads w)
    (suspended w).
Definition set_clock_reads (x : nat) (w : World) : World :=
  mkWorld (statesPrevious w) (lastPublishedStates w) (virtualNightMode w)
    (readyToSendData w) (socket w) (isConnected w) (reconnectAttempts w)
    (maxReconnectAttempts w) (reconnectTimeout w) (sockets w) (ended w)
    (timers w) (next_timer w) (written w) (published w) (log w) x
    (suspended w).
Definition set_suspended (x : list Suspended) (w : World) : World :=
  mkWorld (statesPrevious w) (lastPublishedStates w) (virtualNightMode w)
    (readyToSendData w) (socket w) (isConnected w) (reconnectAttempts w)
    (maxReconnectAttempts w) (reconnectTimeout w) (sockets w) (ended w)
    (timers w) (next_timer w) (written w) (published w) (log w)
    (clock_reads w) x.

(** [logger.<level>(msg)] *)
Definition logger (l : Level) (m : LogMsg) (w : World) : World :=
  set_log (log w ++ [(l, m)]) w.

(** ** [JSON.stringify] and [Date.prototype.toISOString] *)

Module JSON.

(** The values the sources put into an object literal they serialise. *)
Inductive value : Set :=
  | JString (s : string)
  | JBool (b : bool)
  | JNull
  | JUndefined.

Definition hex_char (d : Z) : ascii :=
  if d <? 10 then ascii_of_N (Z.to_N (48 + d)) else ascii_of_N (Z.to_N (87 + d)).

Definition dquote : ascii := ascii_of_N 34.
Definition backslash : ascii := ascii_of_N 92.

(** The escape of one code unit inside a JSON string. *)
Definition escape (c : ascii) : list ascii :=
  let n := JS.code c in
  if n =? 34 then [backslash; dquote]
  else if n =? 92 then [backslash; backslash]
  else if n =? 8 then [backslash; "b"%char]
  else if n =? 12 then [backslash; "f"%char]
  else if n =? 10 then [backslash; "n"%char]
  else if n =? 13 then [backslash; "r"%char]
  else if n =? 9 then [backslash; "t"%char]
  else if n <? 32 then
    [backslash; "u"%char; "0"%char; "0"%char;
     hex_char (n / 16); hex_char (n mod 16)]
  else [c].

Definition quote (s : string) : string :=
  JS.str (dquote :: flat_map escape (JS.chars s) ++ [dquote]).

Definition stringify_value (v : value) : option string :=
  match v with
  | JString s => Some (quote s)
  | JBool true => Some "true"
  | JBool false => Some "false"
  | JNull => Some "null"
  | JUndefined => None
  end.

(** The members that are serialised: an [undefined] member is left out. *)
Fixpoint members (o : list (string * value)) : list string :=
  match o with
  | [] => []
  | (k, v) :: t =>
      match stringify_value v with
      | Some s => (quote k ++ ":" ++ s) :: members t
      | None => members t
      end
  end.

Fixpoint join (sep : string) (l : list string) : string :=
  match l with
  | [] => ""
  | [x] => x
  | x :: t => x ++ sep ++ join sep t
  end.

(** [JSON.stringify(o)] of an object literal, members in source order. *)
Definition stringify (o : list (string * value)) : string :=
  "{" ++ join "," (members o) ++ "}".

(** A possibly missing string property as a JSON value. *)
Definition of_option (o : option string) : value :=
  match o with
  | Some s => JString s
  | None => JUndefined
  end.

End JSON.

Module DateISO.

(** The decimal digits of [n], zero-padded on the left to [width]. *)
Definition pad (width : nat) (n : Z) : string :=
  JS.padStart0 width
    (DecimalString.NilZero.string_of_uint (N.to_uint (Z.to_N n))).

(** [d.toISOString()]: [YYYY-MM-DDTHH:mm:ss.sssZ], the year widened to
    a sign and six digits outside 0..9999. *)
Definition toISOString (d : Date) : string :=
  let y := year d in
  (if (0 <=? y) && (y <=? 9999) then pad 4 y
   else (if y <? 0 then "-" else "+") ++ pad 6 (Z.abs y))
  ++ "-" ++ pad 2 (month d) ++ "-" ++ pad 2 (day d)
  ++ "T" ++ pad 2 (hours d) ++ ":" ++ pad 2 (minutes d)
  ++ ":" ++ pad 2 (seconds d) ++ "." ++ pad 3 (milliseconds d) ++ "Z".

(** A calendar reading the clock can return for a year of four digits. *)
Definition in_range (d : Date) : Prop :=
  0 <= year d <= 9999 /\ 1 <= month d <= 12 /\ 1 <= day d <= 31 /\
  0 <= hours d <= 23 /\ 0 <= minutes d <= 59 /\ 0 <= seconds d <= 59 /\
  0 <= milliseconds d <= 999.



End DateISO.

(** [new Date().toISOString()]: the next reading of the clock. *)
Definition now (env : Env) (w : World) : string * World :=
  (DateISO.toISOString (clock env (clock_reads w)),
   set_clock_reads (S (clock_reads w)) w).

(** [mqttHandler.publish(topic, message, { retain: true })], awaited:
    the call is recorded, and the environment decides whether the promise
    resolves ([true]) or rejects. *)
Definition mqtt_publish (env : Env) (t m : string) (w : World) : bool * World :=
  (publish_outcome env (List.length (published w)),
   set_published (published w ++ [mkPublishCall t m true]) w).

(** ** Class [SocketManager] *)

Module SocketManager.

(** [getConnectionStatus()] *)
Definition getConnectionStatus (w : World) : bool := isConnected w.

(** [createConnection(onData, onError, onClose)]: a new socket is
    created with its listeners and becomes [this.socket]; its events
    arrive later (see [Bridge.step]). *)
Definition createConnection (cb : Callbacks) (w : World) : World :=
  let id := List.length (sockets w) in
  set_socket (Some id) (set_sockets (sockets w ++ [cb]) w).

(** [clearTimeout(handle)] *)
Definition clearTimeout (h : nat) (w : World) : World :=
  set_timers (List.filter (fun t => negb (Nat.eqb t h)) (timers w)) w.

(** [setTimeout(callback, delay)]: a fresh handle, now pending. *)
Definition setTimeout (w : World) : nat * World :=
  let h := next_timer w in
  (h, set_next_timer (S h) (set_timers (timers w ++ [h]) w)).

(** [handleReconnect()] *)
Definition handleReconnect (w : World) : World :=
  if reconnectAttempts w <? maxReconnectAttempts w then
    let w := set_reconnectAttempts (reconnectAttempts w + 1) w in
    let w := logger LInfo
               (AttemptingToReconnect (reconnectAttempts w)
                  (maxReconnectAttempts w)) w in
    let w := match reconnectTimeout w with
             | Some h => clearTimeout h w
             | None => w
             end in
    let '(h, w) := setTimeout w in
    set_reconnectTimeout (Some h) w
  else
    logger LError MaxReconnectionAttemptsReached w.

(** The callback of [setTimeout] in [handleReconnect]: the handle [h]
    fires if it is still pending, and a socket with empty callbacks is
    created. *)
Definition reconnect_timer_fired (h : nat) (w : World) : World :=
  if existsb (Nat.eqb h) (timers w) then
    createConnection EmptyCallbacks (clearTimeout h w)
  else w.

(** The callback of [socket.connect]. *)
Definition on_connect (w : World) : World :=
  let w := logger LInfo ConnectedToTcpConverter w in
  set_reconnectAttempts 0 (set_isConnected true w).

(** The listener of ['error']. *)
Definition on_error (onError : World -> World) (w : World) : World :=
  handleReconnect (onError (set_isConnected false w)).

(** The listener of ['close']. *)
Definition on_close (onClose : World -> World) (w : World) : World :=
  handleReconnect (onClose (set_isConnected false w)).

(** The listener of ['timeout'] of socket [id]. *)
Definition on_timeout (id : nat) (w : World) : World :=
  let w := logger LWarn SocketConnectionTimedOut w in
  let w := set_isConnected false w in
  let w := set_ended (ended w ++ [id]) w in
  handleReconnect w.

(** [sendData(data)] with a [Buffer]: [true] when the promise
    resolves, [false] when it rejects. *)
Definition sendData (env : Env) (data : list Z) (w : World) : bool * World :=
  match socket w with
  | None => (false, w)
  | Some _ =>
      if negb (isConnected w) then (false, w)
      else
        let ok := write_outcome env (List.length (written w)) in
        let w := set_written (written w ++ [data]) w in
        if ok then (true, logger LDebug (DataWritten data) w)
        else (false, logger LError ErrorWritingData w)
  end.

End SocketManager.

(** ** Class [VirtualStateHandler] *)

Module VirtualStateHandler.

Definition mapToExternalState (internalState : string) (w : World) : string :=
  if String.eqb internalState "armed_home" && virtualNightMode w
  then "armed_night"
  else internalState.

Definition mapToInternalState (command : string) (w : World) : string * World :=
  if String.eqb command "ARM_NIGHT" then
    ("ARM_HOME", set_virtualNightMode true w)
  else
    (command, set_virtualNightMode false w).

Definition isVirtualNightMode (w : World) : bool := virtualNightMode w.

Definition resetVirtualModes (w : World) : World :=
  set_virtualNightMode false w.

End VirtualStateHandler.

(** ** Class [StateManager] *)

Module StateManager.

(** [map.get(key)] of a [Map<number, number>] *)
Fixpoint Map_get (key : Z) (m : ByteMap) : option Z :=
  match m with
  | [] => None
  | (k, v) :: t => if k =? key then Some v else Map_get key t
  end.

(** [map.set(key, value)]: an existing key keeps its place. *)
Fixpoint Map_set (key value : Z) (m : ByteMap) : ByteMap :=
  match m with
  | [] => [(key, value)]
  | (k, v) :: t =>
      if k =? key then (k, value) :: t else (k, v) :: Map_set key value t
  end.

(** [new Map(entries)] *)
Definition Map_new (entries : list (Z * Z)) : ByteMap :=
  fold_left (fun m e => Map_set (fst e) (snd e) m) entries [].

(** [num.toString(2)] of an integer. *)
Definition toString2 (num : Z) : string :=
  if num <? 0 then "-" ++ JS.toString2 (Z.to_N (- num))
  else JS.toString2 (Z.to_N num).

(** [static reverseBinary(num)] *)
Definition reverseBinary (num : Z) : string :=
  JS.str (rev (JS.chars (JS.padStart0 8 (toString2 num)))).

(** [static mapBinaryValue(value, inverted)]; [value] is a
    one-character string, or [undefined]. *)
Definition mapBinaryValue (value : option ascii) (inverted : bool) : string :=
  if (if inverted
      then bool_decide (value = Some "0"%char)
      else bool_decide (value = Some "1"%char))
  then "ON" else "OFF".

(** [str[i]] with a number for index. *)
Definition index (s : string) (i : Z) : option ascii :=
  if i <? 0 then None else JS.char_at s (Z.to_nat i).

(** [getPreviousBit(contentName, byteIndex, bitIndex)] *)
Definition getPreviousBit (contentName : string) (byteIndex bitIndex : Z)
    (w : World) : string :=
  match statesPrevious w !! contentName with
  | None => "N/A"
  | Some prev =>
      match Map_get byteIndex prev with
      | None => "N/A"
      | Some prevValue =>
          match index (reverseBinary prevValue) bitIndex with
          | Some c => JS.str [c]
          | None => "N/A"
          end
      end
  end.

(** [!!position.name] *)
Definition has_name (position : Position) : bool :=
  match name position with
  | Some n => negb (String.eqb n "")
  | None => false
  end.

(** [s.toLowerCase()] on code units below 256. *)
Definition toLowerCase (s : string) : string :=
  JS.str (map (fun c =>
                 let n := JS.code c in
                 if ((65 <=? n) && (n <=? 90))
                    || ((192 <=? n) && (n <=? 222) && negb (n =? 215))
                 then ascii_of_N (Z.to_N (n + 32)) else c)
            (JS.chars s)).

(** [s.replace(/\s+/g, '_')] *)
Fixpoint replace_white_space (l : list ascii) (in_run : bool) : list ascii :=
  match l with
  | [] => []
  | c :: t =>
      if JS.is_white_space c then
        if in_run then replace_white_space t true
        else "_"%char :: replace_white_space t true
      else c :: replace_white_space t false
  end.

(** The object literal [payload] of [publishState]. *)
Definition payload (position : Position) (state last_triggered : string)
  : list (string * JSON.value) :=
  [ ("id", JSON.JString
             (JS.str (replace_white_space
                        (JS.chars (toLowerCase (default "" (name position))))
                        false)
              ++ "_" ++ hex position));
    ("name", JSON.of_option (name_ha position));
    ("type", JSON.of_option (type position));
    ("state", JSON.JString state);
    ("location", JSON.of_option (location position));
    ("last_triggered", JSON.JString last_triggered) ].

(** [publishState(position, bitValue, byteIndex, bitIndex, contentName)] *)
Definition publishState (env : Env) (position : Position)
    (bitValue : option ascii) (byteIndex bitIndex : Z)
    (contentName : string) (w : World) : World :=
  let state := mapBinaryValue bitValue (inverted position) in
  if bool_decide (lastPublishedStates w !! topic position = Some state) then w
  else
    let isUnknown := negb (has_name position) in
    let w :=
      if Discover (config env) && isUnknown then
        let w := logger LDiscover DiscoveryDetection w in
        logger LDiscover
          (DiscoveryDetail contentName byteIndex bitIndex (hex position)
             (getPreviousBit contentName byteIndex bitIndex w) bitValue) w
      else w in
    if has_name position then
      let '(stamp, w) := now env w in
      let message := JSON.stringify (payload position state stamp) in
      let '(ok, w) := mqtt_publish env (topic position) message w in
      if ok then
        let w := logger LInfo
                   (PublishedStateChange (topic position) message) w in
        set_lastPublishedStates
          (<[topic position := state]> (lastPublishedStates w)) w
      else
        logger LError (FailedToPublishState (topic position)) w
    else w.

(** The loop of [processStateChanges] over [relevantPositions]. *)
Fixpoint publish_changed_bits (env : Env) (relevantPositions : list Position)
    (newBinary oldBinary : string) (byteIndex : Z) (contentName : string)
    (w : World) : World :=
  match relevantPositions with
  | [] => w
  | position :: rest =>
      let w :=
        match JS.parseInt16 (hex position) with
        | None => w
        | Some posIndex =>
            let bitIndex := Z.rem posIndex 8 in
            if bool_decide (index newBinary bitIndex <> index oldBinary bitIndex)
            then publishState env position (index newBinary bitIndex)
                   byteIndex bitIndex contentName w
            else w
        end in
      publish_changed_bits env rest newBinary oldBinary byteIndex contentName w
  end.

(** The filter of [processStateChanges]: the positions whose bit
    address lies in byte [byteIndex]. *)
Definition relevant (byteIndex : Z) (pos : Position) : bool :=
  match JS.parseInt16 (hex pos) with
  | Some posIndex =>
      (byteIndex * 8 <=? posIndex) && (posIndex <? (byteIndex + 1) * 8)
  | None => false
  end.

(** [processStateChanges(newValue, oldValue, byteIndex, positions,
    contentName)] *)
Definition processStateChanges (env : Env) (newValue oldValue byteIndex : Z)
    (positions : list Position) (contentName : string) (w : World) : World :=
  let newBinary := reverseBinary newValue in
  let oldBinary := reverseBinary oldValue in
  let relevantPositions := List.filter (relevant byteIndex) positions in
  publish_changed_bits env relevantPositions newBinary oldBinary byteIndex
    contentName w.

(** [publishPositionStates(byteMap, positions, contentName)] *)
Fixpoint publishPositionStates (env : Env) (byteMap : ByteMap)
    (positions : list Position) (contentName : string) (w : World) : World :=
  match positions with
  | [] => w
  | position :: rest =>
      let w :=
        match JS.parseInt16 (hex position) with
        | None => w
        | Some posIndex =>
            let byteIndex := posIndex / 8 in
            let bitIndex := Z.rem posIndex 8 in
            match Map_get byteIndex byteMap with
            | None => w
            | Some byteValue =>
                let binaryStr := reverseBinary byteValue in
                match index binaryStr bitIndex with
                | Some c =>
                    publishState env position (Some c) byteIndex bitIndex
                      contentName w
                | None => w
                end
            end
        end in
      publishPositionStates env byteMap rest contentName w
  end.

(** The [for ... of byteMap] loop of [handleStateChange]. *)
Fixpoint process_entries (env : Env) (entries : list (Z * Z)) (prevMap : ByteMap)
    (positions : list Position) (contentName : string) (w : World) : World :=
  match entries with
  | [] => w
  | (byteIndex, byteValue) :: rest =>
      let w :=
        if bool_decide (Map_get byteIndex prevMap <> Some byteValue) then
          processStateChanges env byteValue
            (default 0 (Map_get byteIndex prevMap))
            byteIndex positions contentName w
        else w in
      process_entries env rest prevMap positions contentName w
  end.

(** [handleStateChange(byteMap, contentName, contentConfig)] *)
Definition handleStateChange (env : Env) (byteMap : ByteMap)
    (contentName : string) (contentConfig : ContentConfig) (w : World) : World :=
  match statesPrevious w !! contentName with
  | None =>
      let w := set_statesPrevious
                 (<[contentName := Map_new byteMap]> (statesPrevious w)) w in
      publishPositionStates env byteMap (positions contentConfig) contentName w
  | Some prevMap =>
      let w := process_entries env byteMap prevMap (positions contentConfig)
                 contentName w in
      set_statesPrevious
        (<[contentName := Map_new byteMap]> (statesPrevious w)) w
  end.

(** *** A call that is not awaited, from [await] to [await]

    The same methods once more, as they run when [handleStateChange] is
    called without [await]: each function below runs a method up to the
    next [await] that it reaches, and says where the call is suspended;
    [None]: the call has nothing left to do. *)

(** [publishState] up to [await this.mqttHandler.publish(...)]: the
    publish call is made; [None] when the method returns before. *)
Definition publishState_start (env : Env) (position : Position)
    (bitValue : option ascii) (byteIndex bitIndex : Z)
    (contentName : string) (w : World) : World * option Publishing :=
  let state := mapBinaryValue bitValue (inverted position) in
  if bool_decide (lastPublishedStates w !! topic position = Some state)
  then (w, None)
  else
    let isUnknown := negb (has_name position) in
    let w :=
      if Discover (config env) && isUnknown then
        let w := logger LDiscover DiscoveryDetection w in
        logger LDiscover
          (DiscoveryDetail contentName byteIndex bitIndex (hex position)
             (getPreviousBit contentName byteIndex bitIndex w) bitValue) w
      else w in
    if has_name position then
      let '(stamp, w) := now env w in
      let message := JSON.stringify (payload position state stamp) in
      let call := List.length (published w) in
      let '(_, w) := mqtt_publish env (topic position) message w in
      (w, Some (mkPublishing call (topic position) message state))
    else (w, None).

(** [publishState] from its [await] on, once the publish call has
    settled. *)
Definition publishState_settled (env : Env) (publishing : Publishing)
    (w : World) : World :=
  if publish_outcome env (awaited_call publishing) then
    let w := logger LInfo
               (PublishedStateChange (awaited_topic publishing)
                  (awaited_message publishing)) w in
    set_lastPublishedStates
      (<[awaited_topic publishing := awaited_state publishing]>
         (lastPublishedStates w)) w
  else
    logger LError (FailedToPublishState (awaited_topic publishing)) w.

(** The loop of [processStateChanges] from [relevantPositions] on, up to
    the next [await this.publishState(...)]: the awaited call and the
    positions that are left; [None] when the loop ends. *)
Fixpoint publish_changed_bits_start (env : Env)
    (relevantPositions : list Position) (newBinary oldBinary : string)
    (byteIndex : Z) (contentName : string) (w : World)
  : World * option (option Publishing * list Position) :=
  match relevantPositions with
  | [] => (w, None)
  | position :: rest =>
      let next :=
        publish_changed_bits_start env rest newBinary oldBinary byteIndex
          contentName w in
      match JS.parseInt16 (hex position) with
      | None => next
      | Some posIndex =>
          let bitIndex := Z.rem posIndex 8 in
          if bool_decide (index newBinary bitIndex <> index oldBinary bitIndex)
          then
            let '(w, publishing) :=
              publishState_start env position (index newBinary bitIndex)
                byteIndex bitIndex contentName w in
            (w, Some (publishing, rest))
          else next
      end
  end.

(** The loop of [publishPositionStates] from [positions] on, up to the
    next [await this.publishState(...)]. *)
Fixpoint publishPositionStates_start (env : Env) (byteMap : ByteMap)
    (positions : list Position) (contentName : string) (w : World)
  : World * option Suspended :=
  match positions with
  | [] => (w, None)
  | position :: rest =>
      let next := publishPositionStates_start env byteMap rest contentName w in
      match JS.parseInt16 (hex position) with
      | None => next
      | Some posIndex =>
          let byteIndex := posIndex / 8 in
          let bitIndex := Z.rem posIndex 8 in
          match Map_get byteIndex byteMap with
          | None => next
          | Some byteValue =>
              let binaryStr := reverseBinary byteValue in
              match index binaryStr bitIndex with
              | Some c =>
                  let '(w, publishing) :=
                    publishState_start env position (Some c) byteIndex
                      bitIndex contentName w in
                  (w, Some (InPublishPositionStates publishing byteMap rest
                              contentName))
              | None => next
              end
          end
      end
  end.

(** [processStateChanges], called by [handleStateChange] for the entry
    before [entries], from [relevantPositions] on: suspended in its loop,
    or returned to [handleStateChange], which awaits it. *)
Definition processStateChanges_start (env : Env)
    (relevantPositions : list Position) (newBinary oldBinary : string)
    (byteIndex : Z) (entries : list (Z * Z)) (prevMap byteMap : ByteMap)
    (positions : list Position) (contentName : string) (w : World)
  : World * option Suspended :=
  match publish_changed_bits_start env relevantPositions newBinary oldBinary
          byteIndex contentName w with
  | (w, Some (publishing, rest)) =>
      (w, Some (InProcessStateChanges publishing rest newBinary oldBinary
                  byteIndex entries prevMap byteMap positions contentName))
  | (w, None) =>
      (w, Some (InHandleStateChange entries prevMap byteMap positions
                  contentName))
  end.

(** The [for ... of byteMap] loop of [handleStateChange] from [entries]
    on, up to the next [await this.processStateChanges(...)]; when the
    loop ends, the snapshot is stored and the call is over. *)
Fixpoint process_entries_start (env : Env) (entries : list (Z * Z))
    (prevMap byteMap : ByteMap) (positions : list Position)
    (contentName : string) (w : World) : World * option Suspended :=
  match entries with
  | [] =>
      (set_statesPrevious
         (<[contentName := Map_new byteMap]> (statesPrevious w)) w, None)
  | (byteIndex, byteValue) :: rest =>
      if bool_decide (Map_get byteIndex prevMap <> Some byteValue) then
        processStateChanges_start env
          (List.filter (relevant byteIndex) positions)
          (reverseBinary byteValue)
          (reverseBinary (default 0 (Map_get byteIndex prevMap)))
          byteIndex rest prevMap byteMap positions contentName w
      else
        process_entries_start env rest prevMap byteMap positions contentName w
  end.

(** [handleStateChange(byteMap, contentName, contentConfig)] up to its
    first [await].  For the first frame of an area the snapshot is stored
    before; for an area seen before it is stored at the end of the call. *)
Definition handleStateChange_start (env : Env) (byteMap : ByteMap)
    (contentName : string) (contentConfig : ContentConfig) (w : World)
  : World * option Suspended :=
  match statesPrevious w !! contentName with
  | None =>
      let w := set_statesPrevious
                 (<[contentName := Map_new byteMap]> (statesPrevious w)) w in
      publishPositionStates_start env byteMap (positions contentConfig)
        contentName w
  | Some prevMap =>
      process_entries_start env byteMap prevMap byteMap
        (positions contentConfig) contentName w
  end.

(** A suspended call runs on, up to its next [await].  A call of
    [publishState] that was suspended finishes, and the loop that awaits
    it is the next to run on. *)
Definition resume (env : Env) (call : Suspended) (w : World)
  : World * option Suspended :=
  match call with
  | InPublishPositionStates (Some publishing) byteMap rest contentName =>
      (publishState_settled env publishing w,
       Some (InPublishPositionStates None byteMap rest contentName))
  | InPublishPositionStates None byteMap rest contentName =>
      publishPositionStates_start env byteMap rest contentName w
  | InProcessStateChanges (Some publishing) rest newBinary oldBinary byteIndex
      entries prevMap byteMap positions contentName =>
      (publishState_settled env publishing w,
       Some (InProcessStateChanges None rest newBinary oldBinary byteIndex
               entries prevMap byteMap positions contentName))
  | InProcessStateChanges None rest newBinary oldBinary byteIndex entries
      prevMap byteMap positions contentName =>
      processStateChanges_start env rest newBinary oldBinary byteIndex entries
        prevMap byteMap positions contentName w
  | InHandleStateChange entries prevMap byteMap positions contentName =>
      process_entries_start env entries prevMap byteMap positions contentName w
  end.

(** The call of [publishState] that a loop awaits runs to its end, if
    it has not returned yet. *)
Definition publishState_end (env : Env) (publishing : option Publishing)
    (w : World) : World :=
  match publishing with
  | Some publishing => publishState_settled env publishing w
  | None => w
  end.

(** What is left of a suspended call, run to its end with nothing in
    between: the rest of the awaited methods. *)
Definition complete (env : Env) (call : Suspended) (w : World) : World :=
  match call with
  | InPublishPositionStates publishing byteMap rest contentName =>
      publishPositionStates env byteMap rest contentName
        (publishState_end env publishing w)
  | InProcessStateChanges publishing rest newBinary oldBinary byteIndex entries
      prevMap byteMap positions contentName =>
      let w := publish_changed_bits env rest newBinary oldBinary byteIndex
                 contentName (publishState_end env publishing w) in
      let w := process_entries env entries prevMap positions contentName w in
      set_statesPrevious
        (<[contentName := Map_new byteMap]> (statesPrevious w)) w
  | InHandleStateChange entries prevMap byteMap positions contentName =>
      let w := process_entries env entries prevMap positions contentName w in
      set_statesPrevious
        (<[contentName := Map_new byteMap]> (statesPrevious w)) w
  end.

(** [determineAlarmState()] *)
Definition determineAlarmState (w : World) : string :=
  if bool_decide (lastPublishedStates w
                    !! "telenot/alarm/kg/ema_zentrale/extern_scharf"
                  = Some "ON") then "ARMED_AWAY"
  else if bool_decide (lastPublishedStates w
                         !! "telenot/alarm/kg/ema_zentrale/intern_scharf"
                       = Some "ON") then "ARMED_HOME"
  else "DISARMED".

End StateManager.

(** ** Class [Telenot] *)

Module Telenot.

(** How a call that returns a promise ends: the promise resolves, it
    rejects, or the call throws before a promise exists. *)
Inductive Settled : Set := Resolved | Rejected | Threw.

(** The world after [new Telenot(logger, mqttHandler)]. *)
Definition new : World :=
  mkWorld ∅ ∅ false false None false 0 5 None [] [] [] 0%nat [] [] [] 0%nat
    [].

(** [decodeHex(hex, contentName)] with the received [Buffer].  The call
    of [handleStateChange] is not awaited: it runs up to its first
    [await], and [decodeHex] returns while it is suspended there. *)
Definition decodeHex (env : Env) (hex : list Z) (contentName : string)
    (w : World) : World :=
  match Telenot_area (config env) contentName with
  | None => logger LError (UnknownContentName contentName) w
  | Some contentConfig =>
      let parts := drop (offset contentConfig) hex in
      let byteMap :=
        StateManager.Map_new (imap (fun index value => (Z.of_nat index, value)) parts) in
      match StateManager.handleStateChange_start env byteMap contentName
              contentConfig w with
      | (w, Some call) => set_suspended (suspended w ++ [call]) w
      | (w, None) => w
      end
  end.

(** [hexToBytes(hex)]; [None] when [match] returns [null] and [map]
    throws a [TypeError]. *)
Definition hexToBytes (hex : string) : option (list (option Z)) :=
  match JS.match_pairs hex with
  | Some pairs => Some (map JS.parseInt16 pairs)
  | None => None
  end.

(** [calculateChecksum(message)]; [None] when [match] returns [null]
    and [reduce] throws a [TypeError]. *)
Definition calculateChecksum (message : string) : option string :=
  if String.eqb message "" then Some "00"
  else
    match JS.match_pairs (JS.slice_from 8 message) with
    | None => None
    | Some pairs =>
        let sum := fold_left (fun sum byte => JS.num_add sum (JS.parseInt16 byte))
                     pairs (Some 0) in
        Some (JS.slice_last 2 (JS.num_toString16 sum))
    end.

(** [createCommandMessage(address, baseHex, commandHex)]; [None] when
    [calculateChecksum] throws. *)
Definition createCommandMessage (env : Env) (address baseHex : Z)
    (commandHex : string) (w : World) : option string * World :=
  if (address <? 1) || (address >? 8) then
    (Some "error", logger LError InvalidParametersForSBArea w)
  else
    let hex := JS.toString16 (baseHex + address * 8) in
    let msg := COMMAND_SB_STATE_ON (config env) ++ "0" ++ hex ++ "02" ++ commandHex in
    match calculateChecksum msg with
    | Some checksum => (Some (msg ++ checksum ++ "16"), w)
    | None => (None, w)
    end.

(** [sendCommand(command, action)] *)
Definition sendCommand (env : Env) (command action : string) (w : World)
  : Settled * World :=
  let w := logger LDebug (AttemptingToSend command action) w in
  if String.eqb command "" then
    (Rejected, logger LWarn (InvalidCommandGenerated action) w)
  else if negb (SocketManager.getConnectionStatus w) then
    (Rejected, logger LError CannotSendNotConnected w)
  else
    let w := logger LInfo (Sending action command) w in
    match hexToBytes command with
    | None => (Threw, w)
    | Some bytes =>
        let '(ok, w) := SocketManager.sendData env (JS.Buffer_from bytes) w in
        if ok then (Resolved, logger LInfo (SentSuccessfully action command) w)
        else (Rejected, logger LError (FailedToSend action) w)
    end.

(** The four operations: the message is built and sent; the promise of
    [sendCommand] is dropped.  The flag is [false] when the call throws. *)
Definition command_area (env : Env) (baseHex : Z) (commandHex action : string)
    (address : Z) (w : World) : bool * World :=
  match createCommandMessage env address baseHex commandHex w with
  | (None, w) => (false, w)
  | (Some command, w) =>
      match sendCommand env command action w with
      | (Threw, w) => (false, w)
      | (_, w) => (true, w)
      end
  end.

Definition disarmArea (env : Env) := command_area env 1320 "E1" "disarmArea".
Definition intArmArea (env : Env) := command_area env 1321 "62" "intArmArea".
Definition extArmArea (env : Env) := command_area env 1322 "61" "extArmArea".
Definition resetArmArea (env : Env) := command_area env 1323 "52" "resetArmArea".

End Telenot.

(** ** Class [CommandHandler] *)

Module CommandHandler.

(** The own keys of [this._commandMap] as the constructor fills it. *)
Inductive Action : Set := DISARM | ARM_HOME | ARM_AWAY | ARM_NIGHT | RESET.

(** What [this._commandMap[key]] finds. *)
Inductive Lookup : Set :=
  | Own (a : Action)
  | Inherited
  | Undefined.

Definition commandMap (key : string) : Lookup :=
  if String.eqb key "DISARM" then Own DISARM
  else if String.eqb key "ARM_HOME" then Own ARM_HOME
  else if String.eqb key "ARM_AWAY" then Own ARM_AWAY
  else if String.eqb key "ARM_NIGHT" then Own ARM_NIGHT
  else if String.eqb key "RESET" then Own RESET
  else if JS.inherited key then Inherited
  else Undefined.

(** The bodies of the arrow functions of [this._commandMap]; the flag
    is [false] when the body throws. *)
Definition run (env : Env) (a : Action) (w : World) : bool * World :=
  match a with
  | DISARM =>
      Telenot.disarmArea env 1 (VirtualStateHandler.resetVirtualModes w)
  | ARM_HOME => Telenot.intArmArea env 1 w
  | ARM_AWAY => Telenot.extArmArea env 1 w
  | ARM_NIGHT =>
      Telenot.intArmArea env 1
        (snd (VirtualStateHandler.mapToInternalState "ARM_NIGHT" w))
  | RESET => Telenot.resetArmArea env 1 w
  end.

(** How [handleCommand] ends: it returns a boolean, the action throws,
    or the action is a member inherited from [Object.prototype], called
    without a receiver (it returns or throws as that member does). *)
Inductive Result : Set :=
  | Returned (b : bool)
  | Thrown
  | CalledInherited (key : string).

(** [handleCommand(command)] *)
Definition handleCommand (env : Env) (command : string) (w : World)
  : Result * World :=
  let '(internalCommand, w) :=
    VirtualStateHandler.mapToInternalState command w in
  match commandMap internalCommand with
  | Own a =>
      let w := logger LVerbose
                 (ExecutingCommand command internalCommand
                    (String.eqb command "ARM_NIGHT")) w in
      let '(ok, w) := run env a w in
      (if ok then Returned true else Thrown, w)
  | Inherited =>
      let w := logger LVerbose
                 (ExecutingCommand command internalCommand
                    (String.eqb command "ARM_NIGHT")) w in
      (CalledInherited internalCommand, w)
  | Undefined =>
      (Returned false, logger LVerbose (UnknownCommand command) w)
  end.

End CommandHandler.

(** ** Class [SocketHandler] *)

Module SocketHandler.

(** [const CONF_ACK = Buffer.from('6802026800020216', 'hex')] *)
Definition CONF_ACK : list Z := [104; 2; 2; 104; 0; 2; 2; 22].

(** [const TelenotMsgType] *)
Inductive TelenotMsgType : Set :=
  | SEND_NORM | MP | SB | CONF_ACK_ | SYS_INT_ARMED | SYS_EXT_ARMED
  | SYS_DISARMED | ALARM | INVALID | SEND_NDAT | INTRUSION
  | BATTERY_MALFUNCTION | POWER_OUTAGE | OPTICAL_FLASHER_MALFUNCTION
  | HORN_1_MALFUNCTION | HORN_2_MALFUNCTION | COM_FAULT | RESTART
  | USED_INPUTS | USED_OUTPUTS | USED_CONTACTS_INFO
  | USED_OUTPUT_CONTACTS_INFO | USED_SB_CONTACTS_INFO
  | USED_MB_CONTACTS_INFO | NOT_USED_CONTACT.

(** The number of each member of the enumeration. *)
Definition number (t : TelenotMsgType) : Z :=
  match t with
  | SEND_NORM => 0 | MP => 2 | SB => 3 | CONF_ACK_ => 4
  | SYS_INT_ARMED => 5 | SYS_EXT_ARMED => 6 | SYS_DISARMED => 7
  | ALARM => 8 | INVALID => 23 | SEND_NDAT => 25 | INTRUSION => 9
  | BATTERY_MALFUNCTION => 10 | POWER_OUTAGE => 11
  | OPTICAL_FLASHER_MALFUNCTION => 12 | HORN_1_MALFUNCTION => 13
  | HORN_2_MALFUNCTION => 14 | COM_FAULT => 15 | RESTART => 16
  | USED_INPUTS => 17 | USED_OUTPUTS => 18 | USED_CONTACTS_INFO => 19
  | USED_OUTPUT_CONTACTS_INFO => 20 | USED_SB_CONTACTS_INFO => 21
  | USED_MB_CONTACTS_INFO => 22 | NOT_USED_CONTACT => 26
  end.

(** What [getMsgType] returns: a member of the enumeration or, for a
    key that [START_TO_MSG_TYPE] inherits, that inherited member. *)
Inductive Classified : Set :=
  | Type_ (t : TelenotMsgType)
  | InheritedMember (key : string).

(** *** The regular expressions of [matchHexStrToMsgType]

    Every expression is anchored at the start and is a sequence of
    pieces of fixed length, optionally closed by [.*16$]. *)
Inductive Piece : Set :=
  | Text (s : string)                  (* literal characters *)
  | Class (members : string) (n : nat) (* [members]{n} *)
  | Hex (n : nat)                      (* [0-9A-Fa-f]{n} *)
  | Dot (n : nat).                     (* .{n} *)

Record RegExp : Set := mkRegExp {
  pieces : list Piece;
  dot_star_16_end : bool
}.

Fixpoint consume_text (t l : list ascii) : option (list ascii) :=
  match t, l with
  | [], _ => Some l
  | c :: t', x :: l' => if Ascii.eqb c x then consume_text t' l' else None
  | _ :: _, [] => None
  end.

Fixpoint consume (p : ascii -> bool) (n : nat) (l : list ascii)
  : option (list ascii) :=
  match n, l with
  | O, _ => Some l
  | S n', x :: l' => if p x then consume p n' l' else None
  | S _, [] => None
  end.

Definition consume_piece (pc : Piece) (l : list ascii) : option (list ascii) :=
  match pc with
  | Text s => consume_text (JS.chars s) l
  | Class members n => consume (fun x => existsb (Ascii.eqb x) (JS.chars members)) n l
  | Hex n => consume JS.is_hex_digit n l
  | Dot n => consume (fun x => negb (JS.is_line_terminator x)) n l
  end.

Fixpoint consume_pieces (ps : list Piece) (l : list ascii)
  : option (list ascii) :=
  match ps with
  | [] => Some l
  | pc :: ps' =>
      match consume_piece pc l with
      | Some l' => consume_pieces ps' l'
      | None => None
      end
  end.

(** [.*16$]: the input ends in [16], and nothing before it is a line
    terminator. *)
Definition ends_16 (l : list ascii) : bool :=
  let n := List.length l in
  (2 <=? n)%nat
  && forallb (fun x => negb (JS.is_line_terminator x)) (take (n - 2) l)
  && bool_decide (drop (n - 2) l = ["1"; "6"]%char).

(** [re.test(hexStr)] *)
Definition test (re : RegExp) (hexStr : string) : bool :=
  match consume_pieces (pieces re) (JS.chars hexStr) with
  | Some rest => if dot_star_16_end re then ends_16 rest else true
  | None => false
  end.

Definition re_SEND_NORM := mkRegExp [Text "6802026840024216"] false.
Definition re_CONF_ACK := mkRegExp [Text "6802026800020216"] false.
Definition re_MP :=
  mkRegExp [Text "68"; Hex 4; Text "687302"; Hex 2; Text "2400000001"] true.
Definition re_SB :=
  mkRegExp [Text "68"; Hex 4; Text "687302"; Hex 2; Text "2400050002"] true.
Definition re_SYS_INT_ARMED :=
  mkRegExp [Text "682"; Class "c|C" 1; Text "2"; Class "c|C" 1;
            Text "68730205020005310162"] false.
Definition re_SYS_EXT_ARMED :=
  mkRegExp [Text "682"; Class "c|C" 1; Text "2"; Class "c|C" 1;
            Text "68730205020005320161"] false.
Definition re_SYS_DISARMED :=
  mkRegExp [Text "682"; Class "c|C" 1; Text "2"; Class "c|C" 1;
            Text "687302050200053001"; Class "e|E" 1; Text "1"] false.
Definition re_ALARM :=
  mkRegExp [Text "682"; Class "c|C" 1; Text "2"; Class "c|C" 1;
            Text "6873020502000540"] false.
Definition re_ALARM_sensor :=
  mkRegExp [Text "68"; Hex 2; Hex 2; Text "687302050201002b"] false.
Definition re_INTRUSION :=
  mkRegExp [Text "682"; Class "C|c" 1; Text "2"; Class "C|c" 1;
            Text "687302050201001001"] false.
Definition re_1A (tail : string) :=
  mkRegExp [Text "681"; Class "A|a" 1; Text "1"; Class "A|a" 1; Text tail] false.
Definition re_RESTART :=
  mkRegExp [Text "68"; Hex 4; Text "687302"; Hex 2; Hex 4; Class "F|f" 4;
            Text "0153"] true.
Definition re_SEND_NDAT := mkRegExp [Text "68"; Dot 2; Text "68730"] false.

(** [matchHexStrToMsgType(hexStr)]; [None] is [null]. *)
Definition matchHexStrToMsgType (hexStr : string) : option TelenotMsgType :=
  (* System operation messages *)
  if test re_SEND_NORM hexStr then Some SEND_NORM
  else if test re_CONF_ACK hexStr then Some CONF_ACK_
  (* MP and SB messages *)
  else if test re_MP hexStr then Some MP
  else if test re_SB hexStr then Some SB
  (* System state messages *)
  else if test re_SYS_INT_ARMED hexStr then Some SYS_INT_ARMED
  else if test re_SYS_EXT_ARMED hexStr then Some SYS_EXT_ARMED
  else if test re_SYS_DISARMED hexStr then Some SYS_DISARMED
  else if test re_ALARM hexStr then Some ALARM
  else if test re_ALARM_sensor hexStr then Some ALARM
  (* Malfunction messages *)
  else if test re_INTRUSION hexStr then Some INTRUSION
  else if test (re_1A "687302050200001401") hexStr then Some BATTERY_MALFUNCTION
  else if test (re_1A "687302050200001501") hexStr then Some POWER_OUTAGE
  else if test (re_1A "687302050200001301") hexStr
    then Some OPTICAL_FLASHER_MALFUNCTION
  else if test (re_1A "687302050200001101") hexStr then Some HORN_1_MALFUNCTION
  else if test (re_1A "687302050200001201") hexStr then Some HORN_2_MALFUNCTION
  else if test (re_1A "687302050200001701") hexStr then Some COM_FAULT
  (* System messages *)
  else if test re_RESTART hexStr then Some RESTART
  else if test re_SEND_NDAT hexStr then Some SEND_NDAT
  else None.

(** [START_TO_MSG_TYPE[key]]; [None] is [undefined]. *)
Definition START_TO_MSG_TYPE (key : string) : option Classified :=
  if String.eqb key "68020268" then Some (Type_ SEND_NORM)
  else if String.eqb key "682C2C68" then Some (Type_ MP)
  else if JS.inherited key then Some (InheritedMember key)
  else None.

(** [getMsgType(hexStr)] *)
Definition getMsgType (hexStr : string) : Classified :=
  match matchHexStrToMsgType hexStr with
  | Some msgTypeFull => Type_ msgTypeFull
  | None =>
      match START_TO_MSG_TYPE (JS.substring0 8 hexStr) with
      | Some msgType => msgType
      | None => Type_ INVALID
      end
  end.

(** [publishToMQTT(topic, message)], awaited. *)
Definition publishToMQTT (env : Env) (t message : string) (w : World) : World :=
  let '(ok, w) := mqtt_publish env t message w in
  if ok then logger LInfo (PublishedTo message t) w
  else logger LError (FailedToPublishTo t) w.

(** A diagnostics message: the object literal is serialised when the
    publish call is evaluated, after the clock was read for
    [timestamp]. *)
Definition publish_diagnostics (env : Env) (subtopic : string)
    (object : string -> list (string * JSON.value)) (w : World) : World :=
  let '(stamp, w) := now env w in
  publishToMQTT env (diagnosticsTopic (config env) ++ subtopic)
    (JSON.stringify (object stamp)) w.

(** [parseData(hexStr, hex)]: the response to send back, and the world
    after the awaited effects. *)
Definition parseData (env : Env) (hexStr : string) (hex : list Z) (w : World)
  : option (list Z) * World :=
  let msgType := getMsgType hexStr in
  let w := logger LDebug
             (ParsedMsgType (match msgType with
                             | Type_ t => Some (number t)
                             | InheritedMember _ => None
                             end)) w in
  let unknown (w : World) :=
    if Discover (config env) then
      logger LDiscover (UnknownMessageType hexStr)
        (logger LDiscover DiscoveryDetection w)
    else logger LWarn (UnknownMessageType hexStr) w in
  let w :=
    match msgType with
    | Type_ SEND_NORM => w
    | Type_ CONF_ACK_ =>
        let w := logger LDebug ConfirmationAckReceived w in
        set_readyToSendData false w
    | Type_ MP =>
        Telenot.decodeHex env hex (content_name (MELDEGRUPPEN (config env))) w
    | Type_ SB =>
        let w := Telenot.decodeHex env hex
                   (content_name (MELDEBEREICHE (config env))) w in
        set_readyToSendData true w
    | Type_ SYS_INT_ARMED =>
        let stateToPublish :=
          VirtualStateHandler.mapToExternalState "armed_home" w in
        let w := publishToMQTT env (stateTopic (config env)) stateToPublish w in
        let night := String.eqb stateToPublish "armed_night" in
        publish_diagnostics env "/state"
          (fun stamp =>
             [ ("state", JSON.JString stateToPublish);
               ("internalState", JSON.JString "armed_home");
               ("timestamp", JSON.JString stamp);
               ("isVirtualMode", JSON.JBool night);
               ("virtualType",
                 if night then JSON.JString "night_mode" else JSON.JNull) ]) w
    | Type_ SYS_DISARMED =>
        let w := VirtualStateHandler.resetVirtualModes w in
        let w := publishToMQTT env (stateTopic (config env)) "disarmed" w in
        publish_diagnostics env "/state"
          (fun stamp =>
             [ ("state", JSON.JString "disarmed");
               ("timestamp", JSON.JString stamp) ]) w
    | Type_ SYS_EXT_ARMED =>
        let w := publishToMQTT env (stateTopic (config env)) "armed_away" w in
        publish_diagnostics env "/state"
          (fun stamp =>
             [ ("state", JSON.JString "armed_away");
               ("timestamp", JSON.JString stamp);
               ("type", JSON.JString "external") ]) w
    | Type_ ALARM =>
        let w := publishToMQTT env (stateTopic (config env)) "triggered" w in
        publish_diagnostics env "/alarm"
          (fun stamp =>
             [ ("state", JSON.JString "triggered");
               ("timestamp", JSON.JString stamp);
               ("type", JSON.JString "alarm") ]) w
    | Type_ INTRUSION =>
        publish_diagnostics env "/intrusion"
          (fun stamp =>
             [ ("state", JSON.JString "triggered");
               ("timestamp", JSON.JString stamp);
               ("type", JSON.JString "intrusion") ]) w
    | Type_ BATTERY_MALFUNCTION =>
        publish_diagnostics env "/battery"
          (fun stamp =>
             [ ("state", JSON.JString "malfunction");
               ("timestamp", JSON.JString stamp) ]) w
    | Type_ POWER_OUTAGE =>
        publish_diagnostics env "/power"
          (fun stamp =>
             [ ("state", JSON.JString "outage");
               ("timestamp", JSON.JString stamp) ]) w
    | Type_ OPTICAL_FLASHER_MALFUNCTION =>
        publish_diagnostics env "/flasher"
          (fun stamp =>
             [ ("state", JSON.JString "malfunction");
               ("timestamp", JSON.JString stamp) ]) w
    | Type_ HORN_1_MALFUNCTION =>
        publish_diagnostics env "/horn1"
          (fun stamp =>
             [ ("state", JSON.JString "malfunction");
               ("timestamp", JSON.JString stamp) ]) w
    | Type_ HORN_2_MALFUNCTION =>
        publish_diagnostics env "/horn2"
          (fun stamp =>
             [ ("state", JSON.JString "malfunction");
               ("timestamp", JSON.JString stamp) ]) w
    | Type_ COM_FAULT =>
        publish_diagnostics env "/communication"
          (fun stamp =>
             [ ("state", JSON.JString "fault");
               ("timestamp", JSON.JString stamp) ]) w
    | Type_ RESTART =>
        let w := logger LInfo SystemRestartDetected w in
        publish_diagnostics env "/restart"
          (fun stamp =>
             [ ("state", JSON.JString "restart");
               ("timestamp", JSON.JString stamp) ]) w
    | _ => unknown w
    end in
  (Some CONF_ACK, w).

(** [data.toString('hex')] of a [Buffer] *)
Definition toString_hex (data : list Z) : string :=
  JS.str (flat_map (fun b => [JSON.hex_char (b / 16); JSON.hex_char (b mod 16)])
            data).

(** [handleData(data)] *)
Definition handleData (env : Env) (data : list Z) (w : World) : World :=
  if negb (SocketManager.getConnectionStatus w) then
    logger LError HandleDataOnClosedSocket w
  else
    let hexStr := toString_hex data in
    let w := logger LDebug (ProcessingHexString hexStr) w in
    match parseData env hexStr data w with
    | (Some sendBack, w) =>
        let w := logger LDebug (SendingResponse sendBack) w in
        let '(ok, w) := SocketManager.sendData env sendBack w in
        if ok then w else logger LError ErrorHandlingData w
    | (None, w) => w
    end.

End SocketHandler.

(** ** The event sources of the running bridge ([Telenot.setupConnections]) *)

Module Bridge.

Inductive Event : Set :=
  | SocketConnect (id : nat)            (* the callback of [socket.connect] *)
  | SocketData (id : nat) (data : list Z)
  | SocketError (id : nat)
  | SocketClose (id : nat)
  | SocketTimeout (id : nat)
  | TimerFired (handle : nat)
  | CommandMessage (msg : string)       (* a message on [commandTopic] *)
  | Resumed (call : nat).               (* a suspended call runs on *)

(** The listeners of socket [id], by the callbacks it was created with.
    [Resumed k]: the [k]-th suspended call of [handleStateChange] runs on
    to its next [await]; when it has none left, it is no longer
    suspended. *)
Definition step (env : Env) (e : Event) (w : World) : World :=
  let callbacks (id : nat) := sockets w !! id in
  match e with
  | SocketConnect id =>
      match callbacks id with
      | Some _ => SocketManager.on_connect w
      | None => w
      end
  | SocketData id data =>
      match callbacks id with
      | Some TelenotCallbacks => SocketHandler.handleData env data w
      | _ => w
      end
  | SocketError id =>
      match callbacks id with
      | Some TelenotCallbacks =>
          SocketManager.on_error (logger LError SocketErrorCallback) w
      | Some EmptyCallbacks => SocketManager.on_error (fun w => w) w
      | None => w
      end
  | SocketClose id =>
      match callbacks id with
      | Some TelenotCallbacks =>
          SocketManager.on_close (logger LInfo SocketClosedCallback) w
      | Some EmptyCallbacks => SocketManager.on_close (fun w => w) w
      | None => w
      end
  | SocketTimeout id =>
      match callbacks id with
      | Some _ => SocketManager.on_timeout id w
      | None => w
      end
  | TimerFired h => SocketManager.reconnect_timer_fired h w
  | CommandMessage msg => snd (CommandHandler.handleCommand env msg w)
  | Resumed k =>
      match suspended w !! k with
      | Some call =>
          match StateManager.resume env call w with
          | (w, Some call) => set_suspended (<[k := call]> (suspended w)) w
          | (w, None) => set_suspended (delete k (suspended w)) w
          end
      | None => w
      end
  end.

(** A run of the bridge over a sequence of events. *)
Definition run (env : Env) (events : list Event) (w : World) : World :=
  fold_left (fun w e => step env e w) events w.

(** Every suspended call runs to its end, the oldest first, with
    nothing in between. *)
Definition settle (env : Env) (w : World) : World :=
  fold_left (fun w call => StateManager.complete env call w) (suspended w)
    (set_suspended [] w).

End Bridge.

(** ** Notions the statements below use *)

Module Spec.

(** The constant of [config-example/config.mjs]. *)
Definition preamble : string := "680909687301050200".

(** The four operations: command base and command code. *)
Definition operations : list (Z * string) :=
  [(1320, "E1"); (1321, "62"); (1322, "61"); (1323, "52")].

(** The sum of the byte values of the hex-digit pairs of [s]. *)
Definition byte_sum (s : string) : Z :=
  fold_right Z.add 0
    (map (default 0) (default [] (Telenot.hexToBytes s))).

(** Bytes rendered with two hex digits each. *)
Definition hex_of_bytes (bytes : list Z) : string :=
  SocketHandler.toString_hex bytes.

(** [s.includes(needle)] *)
Fixpoint is_prefix (needle s : list ascii) : bool :=
  match needle, s with
  | [], _ => true
  | c :: needle', x :: s' => Ascii.eqb c x && is_prefix needle' s'
  | _ :: _, [] => false
  end.

Fixpoint includes_chars (s needle : list ascii) : bool :=
  is_prefix needle s
  || match s with
     | [] => false
     | _ :: s' => includes_chars s' needle
     end.

Definition includes (s needle : string) : bool :=
  includes_chars (JS.chars s) (JS.chars needle).

(** The member [key: value] with a string value, as it stands in
    serialised JSON. *)
Definition member (key value : string) : string :=
  JSON.quote key ++ ":" ++ JSON.quote value.

(** [s.toUpperCase()] of a string of ASCII characters. *)
Definition toUpperCase (s : string) : string :=
  JS.str (map (fun c =>
                 let n := JS.code c in
                 if (97 <=? n) && (n <=? 122)
                 then ascii_of_N (Z.to_N (n - 32)) else c)
            (JS.chars s)).

Definition is_hex_string (s : string) : bool :=
  forallb JS.is_hex_digit (JS.chars s).

(** The number of characters a piece, and a whole expression, consume
    at least. *)
Definition piece_length (pc : SocketHandler.Piece) : nat :=
  match pc with
  | SocketHandler.Text t => String.length t
  | SocketHandler.Class _ n => n
  | SocketHandler.Hex n => n
  | SocketHandler.Dot n => n
  end.

Definition min_length (re : SocketHandler.RegExp) : nat :=
  fold_right (fun pc n => (piece_length pc + n)%nat) 0%nat
    (SocketHandler.pieces re).

(** The number of entries of the log that are the terminal failure of
    [handleReconnect]. *)
Definition terminal_failures (w : World) : nat :=
  List.length
    (List.filter
       (fun e => match e with
                 | (LError, MaxReconnectionAttemptsReached) => true
                 | _ => false
                 end) (log w)).

(** The publish calls to one topic. *)
Definition published_to (t : string) (w : World) : list PublishCall :=
  List.filter (fun c => String.eqb (pub_topic c) t) (published w).

(** The bit address of a catalog entry. *)
Definition bit_address (p : Position) : option Z := JS.parseInt16 (hex p).

(** The positions whose bit address lies in [lo, hi). *)
Definition in_range (lo hi : Z) (p : Position) : bool :=
  match bit_address p with
  | Some a => (lo <=? a) && (a <? hi)
  | None => false
  end.

(** The bit of a position reads differently in the two reversed
    binary strings that [processStateChanges] compares. *)
Definition bit_changed (newBinary oldBinary : string) (p : Position) : bool :=
  match bit_address p with
  | Some a =>
      bool_decide (StateManager.index newBinary (Z.rem a 8)
                   <> StateManager.index oldBinary (Z.rem a 8))
  | None => false
  end.

(** The index of a position's bit within its byte, and the state that
    [publishState] computes for the position when the byte reads
    [newBinary]. *)
Definition bit_index (p : Position) : Z := Z.rem (default 0 (bit_address p)) 8.

Definition new_state (newBinary : string) (p : Position) : string :=
  StateManager.mapBinaryValue (StateManager.index newBinary (bit_index p))
    (inverted p).

(** [publishState] invoked for each position of [ps] in turn, with the
    bit the position has in [newBinary]. *)
Definition hand_over (env : Env) (ps : list Position) (newBinary : string)
    (byteIndex : Z) (contentName : string) (w : World) : World :=
  fold_left
    (fun w p =>
       StateManager.publishState env p
         (StateManager.index newBinary (bit_index p)) byteIndex (bit_index p)
         contentName w)
    ps w.

(** The positions for which [publishState] makes a publish call in [w]:
    the named ones whose topic does not hold the new state already. *)
Definition emitted (newBinary : string) (w : World) (p : Position) : bool :=
  StateManager.has_name p
  && negb (bool_decide (lastPublishedStates w !! topic p
                        = Some (new_state newBinary p))).

(** The character that shows bit [b]. *)
Definition bit_char (b : bool) : ascii := if b then "1"%char else "0"%char.

(** The integers [0 .. n-1]. *)
Definition range (n : nat) : list Z := List.map Z.of_nat (seq 0 n).

(** What the reversed binary strings of a byte [old] and of [old] with
    bit [k] flipped show at index [j]. *)
Definition flip_check (old k j : Z) : bool :=
  bool_decide (StateManager.index (StateManager.reverseBinary old) j
               = Some (bit_char (Z.testbit old j)))
  && bool_decide (StateManager.index
                    (StateManager.reverseBinary (Z.lxor old (2 ^ k))) j
                  = Some (bit_char (xorb (Z.testbit old j) (j =? k)))).


(** A connection-loss event of an existing socket, or the firing of a
    timer. *)
Definition loss_or_timer (w : World) (e : Bridge.Event) : Prop :=
  match e with
  | Bridge.SocketError id | Bridge.SocketClose id | Bridge.SocketTimeout id =>
      (id < List.length (sockets w))%nat
  | Bridge.TimerFired _ => True
  | _ => False
  end.

Definition is_loss (e : Bridge.Event) : bool :=
  match e with
  | Bridge.SocketError _ | Bridge.SocketClose _ | Bridge.SocketTimeout _ => true
  | _ => false
  end.

(** A run in which the TCP link never comes up: every event is a
    connection loss of a socket that exists when it happens, or a
    timer. *)
Fixpoint link_down_run (env : Env) (events : list Bridge.Event) (w : World)
  : Prop :=
  match events with
  | [] => True
  | e :: rest =>
      loss_or_timer w e /\ link_down_run env rest (Bridge.step env e w)
  end.

(** A byte of a [Buffer]. *)
Definition is_byte (b : Z) : Prop := 0 <= b < 256.

(** The sum of a list of numbers. *)
Definition sum (l : list Z) : Z := fold_right Z.add 0 l.

(** What [data.toString('hex')] writes for byte [b]: two hexadecimal
    digits, no line terminators, which [parseInt(_, 16)] reads back as
    [b]. *)
Definition byte_check (b : Z) : bool :=
  let hi := JSON.hex_char (b / 16) in
  let lo := JSON.hex_char (b mod 16) in
  negb (JS.is_line_terminator hi) && negb (JS.is_line_terminator lo)
  && JS.is_hex_digit hi && JS.is_hex_digit lo
  && bool_decide (JS.parseInt16 (JS.str [hi; lo]) = Some b).

(** The fields of [SocketManager], and the sockets and timers it
    created. *)
Definition link (w : World) :=
  (socket w, isConnected w, reconnectAttempts w, maxReconnectAttempts w,
   reconnectTimeout w, sockets w, ended w, timers w, next_timer w).

(** The two maps of [StateManager]. *)
Definition sensors (w : World) := (statesPrevious w, lastPublishedStates w).

(** At most one timer is pending, and it is the one
    [this.reconnectTimeout] holds. *)
Definition one_timer (w : World) : Prop :=
  timers w = [] \/ exists h, timers w = [h] /\ reconnectTimeout w = Some h.

(** Only the first socket, the one of [setupConnections], has listeners
    that do something with what they are told. *)
Definition first_listens (w : World) : Prop :=
  forall id cb, sockets w !! id = Some cb -> id <> 0%nat -> cb = EmptyCallbacks.

(** The frame of each command for area 1, with the preamble of
    [config-example/config.mjs]: the header [68 09 09 68], the constant
    bytes, the two address bytes, [02], the command code, the checksum
    and the terminator [16]. *)
Definition command_bytes (a : CommandHandler.Action) : list Z :=
  ([104; 9; 9; 104; 115; 1; 5; 2; 0; 5]
   ++ match a with
      | CommandHandler.DISARM => [48; 2; 225; 147]
      | CommandHandler.ARM_HOME | CommandHandler.ARM_NIGHT => [49; 2; 98; 21]
      | CommandHandler.ARM_AWAY => [50; 2; 97; 21]
      | CommandHandler.RESET => [51; 2; 82; 7]
      end
   ++ [22])%list.

(** The payload of a frame as [decodeHex] hands it to
    [handleStateChange]. *)
Definition decoded (contentConfig : ContentConfig) (hex : list Z) : ByteMap :=
  imap (fun index value => (Z.of_nat index, value))
    (drop (offset contentConfig) hex).



(** The topic of a named position of a catalog, and a publish call to
    such a topic. *)
Definition catalog_topic (ps : list Position) (t : string) : Prop :=
  exists p, In p ps /\ StateManager.has_name p = true /\ topic p = t.


(** The catalogs of the four content areas. *)
Definition all_positions (config : Config) : list Position :=
  (positions (SICHERUNGSBEREICH config) ++ positions (SICHERUNGSBEREICH2 config)
   ++ positions (MELDEBEREICHE config) ++ positions (MELDEGRUPPEN config))%list.

(** [lastPublishedStates] holds [ON] or [OFF], under topics of [ps]. *)
Definition held_states (ps : list Position) (w : World) : Prop :=
  forall t state,
    lastPublishedStates w !! t = Some state ->
    (state = "ON" \/ state = "OFF") /\ catalog_topic ps t.

(** A call of [publishState] that is suspended at its publish call is
    about to store [ON] or [OFF] under a topic of [ps]. *)
Definition publishing_of (ps : list Position)
    (publishing : option Publishing) : Prop :=
  match publishing with
  | Some publishing =>
      (awaited_state publishing = "ON" \/ awaited_state publishing = "OFF")
      /\ catalog_topic ps (awaited_topic publishing)
  | None => True
  end.

(** A suspended call of [handleStateChange] that goes over positions of
    [ps]. *)
Definition call_of (ps : list Position) (call : Suspended) : Prop :=
  match call with
  | InPublishPositionStates publishing _ rest _ =>
      publishing_of ps publishing /\ (forall p, In p rest -> In p ps)
  | InProcessStateChanges publishing rest _ _ _ _ _ _ positions _ =>
      publishing_of ps publishing
      /\ (forall p, In p rest -> In p ps)
      /\ (forall p, In p positions -> In p ps)
  | InHandleStateChange _ _ _ positions _ =>
      forall p, In p positions -> In p ps
  end.

(** Where a part of a call has left it: over positions of [ps], if it
    is suspended. *)
Definition next_of (ps : list Position) (next : option Suspended) : Prop :=
  match next with
  | Some call => call_of ps call
  | None => True
  end.

(** [lastPublishedStates] holds [ON] or [OFF], under topics of [ps], and
    the calls that are suspended will store nothing else. *)
Definition states_of (ps : list Position) (w : World) : Prop :=
  held_states ps w /\ Forall (call_of ps) (suspended w).

(** Every entry of [byteMap] is what the snapshot [prevMap] holds: the
    loop of [handleStateChange] finds no difference. *)
Definition same_entries (byteMap prevMap : ByteMap) : bool :=
  forallb (fun e => bool_decide (StateManager.Map_get (fst e) prevMap
                                 = Some (snd e))) byteMap.

(** The area has a snapshot, and [byteMap] holds a byte that differs
    from it. *)
Definition differs (byteMap : ByteMap) (contentName : string) (w : World)
  : bool :=
  match statesPrevious w !! contentName with
  | Some prevMap => negb (same_entries byteMap prevMap)
  | None => false
  end.

(** A bound on the number of times a suspended call is suspended
    again before it ends: two for every position a loop has still to
    visit (at [publishState]'s publish call and at the loop's own
    [await]), and for every entry of the byte map that is still to visit
    one for the [await] of [processStateChanges] besides those of its
    loop. *)
Definition awaits_of_entries (entries : list (Z * Z))
    (positions : list Position) : nat :=
  List.length entries * (2 * List.length positions + 2).

Definition awaits_left (call : Suspended) : nat :=
  let waiting (publishing : option Publishing) :=
    match publishing with Some _ => 1%nat | None => 0%nat end in
  match call with
  | InPublishPositionStates publishing _ rest _ =>
      waiting publishing + 2 * List.length rest
  | InProcessStateChanges publishing rest _ _ _ entries _ _ positions _ =>
      waiting publishing + 2 * List.length rest + 1
      + awaits_of_entries entries positions
  | InHandleStateChange entries _ _ positions _ =>
      awaits_of_entries entries positions
  end.

(** The event of a suspended call running on. *)
Definition is_resumed (e : Bridge.Event) : Prop :=
  match e with
  | Bridge.Resumed _ => True
  | _ => False
  end.

(** The topics of the publish calls made between [w] and [w']. *)
Definition new_topics (w w' : World) : list string :=
  pub_topic <$> drop (List.length (published w)) (published w').

(** No named position is published under one of the two topics that
    [determineAlarmState] reads. *)
Definition no_alarm_topics (ps : list Position) : Prop :=
  ~ catalog_topic ps "telenot/alarm/kg/ema_zentrale/extern_scharf"
  /\ ~ catalog_topic ps "telenot/alarm/kg/ema_zentrale/intern_scharf".

(** A publish call for a position whose bit differs between the stored
    snapshot [prevMap] and an entry of the byte map [byteMap] that is not
    in the snapshot. *)
Definition changed_call (byteMap prevMap : ByteMap) (ps : list Position)
    (c : PublishCall) : Prop :=
  exists p byteIndex byteValue,
    In p ps
    /\ In (byteIndex, byteValue) byteMap
    /\ StateManager.Map_get byteIndex prevMap <> Some byteValue
    /\ StateManager.relevant byteIndex p = true
    /\ bit_changed (StateManager.reverseBinary byteValue)
         (StateManager.reverseBinary
            (default 0 (StateManager.Map_get byteIndex prevMap))) p = true
    /\ StateManager.has_name p = true
    /\ pub_topic c = topic p.

End Spec.

(** ** A concrete installation, for the examples *)

Module Example.

Definition door : Position :=
  mkPosition "0x010" (Some "MK Tuer") (Some "Magnetkontakt") (Some "magnetkontakt")
    "telenot/alarm/eg/tuer" (Some "Eingang") true.

Definition window : Position :=
  mkPosition "0x011" (Some "MK Fenster") (Some "Magnetkontakt") (Some "magnetkontakt")
    "telenot/alarm/eg/fenster" (Some "Eingang") false.

(** An entry without a name, as discovery mode is meant to find. *)
Definition unknown : Position :=
  mkPosition "0x012" None None None "telenot/alarm/unknown" None false.

Definition config : Config :=
  mkConfig false "telenot/alarm/state" "telenot/alarm/diagnostics"
    "680909687301050200"
    (mkContentConfig "SICHERUNGSBEREICH" 10 [])
    (mkContentConfig "SICHERUNGSBEREICH2" 10 [])
    (mkContentConfig "MELDEBEREICHE" 10 [door; window; unknown])
    (mkContentConfig "MELDEGRUPPEN" 12 []).

(** Every publish and every write succeeds; the clock ticks one
    millisecond per reading. *)
Definition env : Env :=
  mkEnv config (fun _ => true) (fun _ => true)
    (fun n => mkDate 2026 11 3 7 13 0 (Z.of_nat n)).

(** The same installation with a publish sink that rejects. *)
Definition env_failing : Env :=
  mkEnv config (fun _ => false) (fun _ => true)
    (fun n => mkDate 2026 11 3 7 13 0 (Z.of_nat n)).


(** The bridge after [setupConnections], before the socket connects. *)
Definition started : World :=
  SocketManager.createConnection TelenotCallbacks Telenot.new.

(** The bridge with its socket connected. *)
Definition connected : World :=
  Bridge.run env [Bridge.SocketConnect 0%nat] started.

(** Two [SB] frames that differ in bit 0 of payload byte 2 (bit
    address 16): [... 24 00 05 | 00 02 01 ...] and [... | 00 02 00 ...]. *)
Definition frame_bit_set : list Z :=
  [104; 7; 7; 104; 115; 2; 5; 36; 0; 5; 0; 2; 1; 0; 22].
Definition frame_bit_clear : list Z :=
  [104; 7; 7; 104; 115; 2; 5; 36; 0; 5; 0; 2; 0; 0; 22].

(** The bridge after the first of the two frames, when the call of
    [handleStateChange] has run to its end. *)
Definition seen : World :=
  Bridge.settle env
    (snd (SocketHandler.parseData env (SocketHandler.toString_hex frame_bit_set)
            frame_bit_set connected)).


(** The payloads of the two frames as [decodeHex] hands them on. *)
Definition bytes_bit_set : ByteMap := [(0, 0); (1, 2); (2, 1); (3, 0); (4, 22)].
Definition bytes_bit_clear : ByteMap := [(0, 0); (1, 2); (2, 0); (3, 0); (4, 22)].


End Example.

(** * Properties *)

(** ** The expectations of the test-suite, on the embedding *)

(** StateManager.test.mjs, [reverseBinary] and [mapBinaryValue]. *)
Example reverseBinary_tests :
  StateManager.reverseBinary 5 = "10100000"
  /\ StateManager.reverseBinary 255 = "11111111"
  /\ StateManager.reverseBinary 0 = "00000000".
Proof. vm_compute. repeat split; reflexivity. Qed.

Example mapBinaryValue_tests :
  StateManager.mapBinaryValue (Some "1"%char) false = "ON"
  /\ StateManager.mapBinaryValue (Some "0"%char) false = "OFF"
  /\ StateManager.mapBinaryValue (Some "0"%char) true = "ON"
  /\ StateManager.mapBinaryValue (Some "1"%char) true = "OFF".
Proof. vm_compute. repeat split; reflexivity. Qed.

(** StateManager.test.mjs, [getPreviousBit] with the snapshot [{0: 5}]. *)
Example getPreviousBit_tests :
  let w := set_statesPrevious {[ "TEST" := [(0, 5)] ]} Telenot.new in
  StateManager.getPreviousBit "UNKNOWN" 0 0 w = "N/A"
  /\ StateManager.getPreviousBit "TEST" 99 0 w = "N/A"
  /\ StateManager.getPreviousBit "TEST" 0 0 w = "1"
  /\ StateManager.getPreviousBit "TEST" 0 1 w = "0"
  /\ StateManager.getPreviousBit "TEST" 0 2 w = "1".
Proof. vm_compute. repeat split; reflexivity. Qed.

(** SocketHandler.test.mjs, [getMsgType] and [matchHexStrToMsgType]. *)
Example getMsgType_tests :
  map (fun s => SocketHandler.getMsgType s)
    [ "6802026840024216"; "68020268"; "682C2C68";
      "682c2c68730205020005310162"; "unknownhex"; "12345678"; ""; "ABCDEF" ]
  = map SocketHandler.Type_
      [ SocketHandler.SEND_NORM; SocketHandler.SEND_NORM; SocketHandler.MP;
        SocketHandler.SYS_INT_ARMED; SocketHandler.INVALID;
        SocketHandler.INVALID; SocketHandler.INVALID; SocketHandler.INVALID ].
Proof. vm_compute. reflexivity. Qed.

Example matchHexStrToMsgType_tests :
  map SocketHandler.matchHexStrToMsgType
    [ "6802026840024216"; "6802026800020216"; "68ABCD687302FF240000000116";
      "68ABCD687302FF240005000216"; "682c2c68730205020005310162";
      "682c2c68730205020005320161"; "682c2c687302050200053001e1";
      "682c2c6873020502000540"; "682c2c687302050201001001";
      "681a1a687302050200001401"; "681a1a687302050200001501";
      "681a1a687302050200001301"; "681a1a687302050200001101";
      "681a1a687302050200001201"; "681a1a687302050200001701";
      "68ABCD687302FF0000FFFF015316"; "68FF68730"; "invalidhexstring" ]
  = [ Some SocketHandler.SEND_NORM; Some SocketHandler.CONF_ACK_;
      Some SocketHandler.MP; Some SocketHandler.SB;
      Some SocketHandler.SYS_INT_ARMED; Some SocketHandler.SYS_EXT_ARMED;
      Some SocketHandler.SYS_DISARMED; Some SocketHandler.ALARM;
      Some SocketHandler.INTRUSION; Some SocketHandler.BATTERY_MALFUNCTION;
      Some SocketHandler.POWER_OUTAGE;
      Some SocketHandler.OPTICAL_FLASHER_MALFUNCTION;
      Some SocketHandler.HORN_1_MALFUNCTION;
      Some SocketHandler.HORN_2_MALFUNCTION; Some SocketHandler.COM_FAULT;
      Some SocketHandler.RESTART; Some SocketHandler.SEND_NDAT; None ].
Proof. vm_compute. reflexivity. Qed.

(** SocketManager.test.mjs, [handleReconnect] below and at the cap. *)
Example handleReconnect_tests :
  let below := SocketManager.handleReconnect
                 (set_reconnectAttempts 2 Telenot.new) in
  let capped := SocketManager.handleReconnect
                  (set_reconnectAttempts 5 Telenot.new) in
  reconnectAttempts below = 3
  /\ log below = [(LInfo, AttemptingToReconnect 3 5)]
  /\ timers below = [0%nat]
  /\ log capped = [(LError, MaxReconnectionAttemptsReached)]
  /\ timers capped = [].
Proof. vm_compute. repeat split; reflexivity. Qed.

(** CommandHandler.test.mjs, [handleCommand], on a socket that is not
    connected. *)
Example handleCommand_tests :
  map (fun c => fst (CommandHandler.handleCommand Example.env c Telenot.new))
    [ "DISARM"; "ARM_HOME"; "ARM_AWAY"; "ARM_NIGHT"; "RESET";
      "INVALID_COMMAND"; "" ]
  = [ CommandHandler.Returned true; CommandHandler.Returned true;
      CommandHandler.Returned true; CommandHandler.Returned true;
      CommandHandler.Returned true; CommandHandler.Returned false;
      CommandHandler.Returned false ].
Proof. vm_compute. reflexivity. Qed.

(** VirtualStateHandler.test.mjs: the night mode overrides [armed_home]
    only, and only until the next command. *)
Example mapToExternalState_tests :
  let night := snd (VirtualStateHandler.mapToInternalState "ARM_NIGHT"
                      Telenot.new) in
  let day := snd (VirtualStateHandler.mapToInternalState "DISARM" night) in
  fst (VirtualStateHandler.mapToInternalState "ARM_NIGHT" Telenot.new)
  = "ARM_HOME"
  /\ VirtualStateHandler.mapToExternalState "armed_home" night = "armed_night"
  /\ VirtualStateHandler.mapToExternalState "armed_away" night = "armed_away"
  /\ VirtualStateHandler.mapToExternalState "armed_home" day = "armed_home".
Proof. vm_compute. repeat split; reflexivity. Qed.

(** StateManager.test.mjs, [publishState]: topic, [id] and [state] of the
    payload, and the entry of [lastPublishedStates]. *)
Example publishState_tests :
  let testPosition :=
    mkPosition "00" (Some "Test Position 1") (Some "Test HA 1") (Some "binary")
      "test/topic/1" (Some "Test Location") false in
  let w := StateManager.publishState Example.env testPosition (Some "1"%char)
             0 0 "TEST_CONTENT" Telenot.new in
  map pub_topic (published w) = ["test/topic/1"]
  /\ forallb (fun c => Spec.includes (pub_message c)
                         (Spec.member "id" "test_position_1_00")
                       && Spec.includes (pub_message c)
                            (Spec.member "state" "ON")
                       && pub_retain c) (published w) = true
  /\ lastPublishedStates w !! "test/topic/1" = Some "ON"
  /\ List.length
       (published
          (StateManager.publishState Example.env testPosition (Some "1"%char)
             0 0 "TEST_CONTENT" w)) = 1%nat.
Proof. vm_compute. repeat split; reflexivity. Qed.

(** StateManager.test.mjs, [handleStateChange]: the first snapshot
    publishes every position, a changed bit publishes once, an unchanged
    snapshot publishes nothing. *)
Example handleStateChange_tests :
  let sensor :=
    mkPosition "10" (Some "Test Sensor") (Some "Test Sensor") (Some "sensor")
      "test/topic" (Some "Test Location") false in
  let cc := mkContentConfig "TEST_CONTENT" 0 [sensor] in
  let w1 := StateManager.handleStateChange Example.env [(2, 0)] "TEST_CONTENT"
              cc Telenot.new in
  let w2 := StateManager.handleStateChange Example.env [(2, 1)] "TEST_CONTENT"
              cc w1 in
  let w3 := StateManager.handleStateChange Example.env [(2, 1)] "TEST_CONTENT"
              cc w2 in
  List.length (published w1) = 1%nat
  /\ List.length (published w2) = 2%nat
  /\ List.length (published w3) = 2%nat.
Proof. vm_compute. repeat split; reflexivity. Qed.

(** StateManager.test.mjs, [processStateChanges] with an inverted
    position whose bit goes from 1 to 0: the state published is [ON]. *)
Example processStateChanges_tests :
  let position :=
    mkPosition "00" (Some "Test Position 1") (Some "Test HA 1") (Some "binary")
      "test/topic/1" (Some "Test Location") true in
  let w := StateManager.processStateChanges Example.env 0 1 0 [position]
             "TEST_CONTENT" Telenot.new in
  map pub_topic (published w) = ["test/topic/1"]
  /\ forallb (fun c => Spec.includes (pub_message c)
                         (Spec.member "state" "ON")) (published w) = true.
Proof. vm_compute. repeat split; reflexivity. Qed.

(** ** Strings *)

Lemma length_append (a b : string) :
  String.length (a ++ b) = (String.length a + String.length b)%nat.
Proof. induction a as [|c a IH]; simpl; [reflexivity | now rewrite IH]. Qed.

(** ** The command encoder ([Telenot.createCommandMessage]) *)

(** An address outside 1..8 is answered with the string [error]. *)
Lemma createCommandMessage_out_of_range env address baseHex commandHex w :
  address < 1 \/ 8 < address ->
  Telenot.createCommandMessage env address baseHex commandHex w
  = (Some "error", logger LError InvalidParametersForSBArea w).
Proof.
  intros H. unfold Telenot.createCommandMessage.
  replace ((address <? 1) || (address >? 8)) with true; [reflexivity |].
  symmetry. apply orb_true_iff.
  destruct H; [left; lia | right; lia].
Qed.

(** C1, as amended: for an address in 1..8 and each of the four
    operations, the frame is the 9-byte preamble, a TWO-byte address
    field holding [base + 8 * address] (four hex digits), [02], the
    command code, the checksum as two hex digits -- the sum modulo 256 of
    the byte values of the hex-digit pairs after the first 8 hex
    characters of the message built so far -- and the terminator [16].
    The world is left as it was. *)
Theorem createCommandMessage_frame env w address baseHex commandHex :
  COMMAND_SB_STATE_ON (config env) = Spec.preamble ->
  1 <= address <= 8 ->
  In (baseHex, commandHex) Spec.operations ->
  let value := baseHex + address * 8 in
  let body := Spec.preamble
              ++ Spec.hex_of_bytes [value / 256; value mod 256]
              ++ "02" ++ commandHex in
  Telenot.createCommandMessage env address baseHex commandHex w
  = (Some (body
           ++ Spec.hex_of_bytes [Spec.byte_sum (JS.slice_from 8 body) mod 256]
           ++ "16"), w).
Proof.
  intros Hpre Hrange Hop value body. subst value body.
  unfold Telenot.createCommandMessage. rewrite Hpre.
  assert (Ha : address = 1 \/ address = 2 \/ address = 3 \/ address = 4 \/
               address = 5 \/ address = 6 \/ address = 7 \/ address = 8) by lia.
  unfold Spec.operations in Hop. simpl in Hop.
  destruct Hop as [Hop | [Hop | [Hop | [Hop | []]]]];
    injection Hop as <- <-;
    destruct Ha as [-> | [-> | [-> | [-> | [-> | [-> | [-> | ->]]]]]]];
    vm_compute; reflexivity.
Qed.

Lemma createCommandMessage_frame_witness :
  fst (Telenot.createCommandMessage Example.env 3 1322 "61" Telenot.new)
  = Some "680909687301050200054202612516".
Proof.
  rewrite (createCommandMessage_frame Example.env Telenot.new 3 1322 "61").
  - vm_compute. reflexivity.
  - reflexivity.
  - lia.
  - simpl. right. right. left. reflexivity.
Defined.

(** C1, as stated, fails: the frame for address 1 of [disarm] has 15
    bytes, so it is not the preamble followed by ONE address byte, [02],
    the command code, a checksum byte and [16], whatever the address
    byte and the checksum are. *)
Lemma createCommandMessage_not_one_address_byte :
  fst (Telenot.createCommandMessage Example.env 1 1320 "E1" Telenot.new)
  = Some "680909687301050200053002E19316"
  /\ ~ (exists addressByte checksum : string,
          String.length addressByte = 2%nat /\ String.length checksum = 2%nat /\
          fst (Telenot.createCommandMessage Example.env 1 1320 "E1" Telenot.new)
          = Some (Spec.preamble ++ addressByte ++ "02" ++ "E1" ++ checksum ++ "16")).
Proof.
  assert (E : fst (Telenot.createCommandMessage Example.env 1 1320 "E1" Telenot.new)
              = Some "680909687301050200053002E19316")
    by (vm_compute; reflexivity).
  split; [exact E |].
  intros (a & c & Ha & Hc & H).
  rewrite E in H. injection H as H.
  apply (f_equal String.length) in H.
  rewrite !length_append, Ha, Hc in H.
  simpl in H. lia.
Qed.

(** C2, the code at an address outside 1..8: no frame is built, but the
    string [error] comes back in its place, and [sendCommand] takes it for
    a command: on a connected socket the three bytes [0e 00 00] are handed
    to [socket.write], for each of the four operations. *)
Theorem command_area_invalid_address env baseHex commandHex action address w id :
  address < 1 \/ 8 < address ->
  isConnected w = true ->
  socket w = Some id ->
  fst (Telenot.createCommandMessage env address baseHex commandHex w)
  = Some "error"
  /\ written (snd (Telenot.command_area env baseHex commandHex action address w))
     = (written w ++ [[14; 0; 0]])%list.
Proof.
  intros Haddr Hconn Hsock.
  unfold Telenot.command_area.
  rewrite createCommandMessage_out_of_range by exact Haddr.
  split; [reflexivity |].
  unfold Telenot.sendCommand, SocketManager.getConnectionStatus.
  change (String.eqb "error" "") with false. cbv iota.
  change (isConnected (logger ?l ?m (logger ?l' ?m' w))) with (isConnected w).
  rewrite Hconn. simpl negb. cbv iota.
  change (Telenot.hexToBytes "error") with (Some [Some 14; None; None]).
  cbv iota. change (JS.Buffer_from [Some 14; None; None]) with [14; 0; 0].
  unfold SocketManager.sendData.
  change (socket (logger ?l ?m (logger ?l' ?m' (logger ?l'' ?m'' w))))
    with (socket w).
  rewrite Hsock.
  change (isConnected (logger ?l ?m (logger ?l' ?m' (logger ?l'' ?m'' w))))
    with (isConnected w).
  rewrite Hconn. simpl negb. cbv iota.
  destruct (write_outcome env _); reflexivity.
Qed.

Lemma command_area_invalid_address_witness :
  isConnected Example.connected = true
  /\ written Example.connected = []
  /\ written (snd (Telenot.disarmArea Example.env 0 Example.connected))
     = [[14; 0; 0]].
Proof.
  split; [reflexivity |]. split; [reflexivity |].
  apply (command_area_invalid_address Example.env 1320 "E1" "disarmArea" 0
           Example.connected 0%nat).
  - left. lia.
  - reflexivity.
  - reflexivity.
Defined.

(** ** Fields that a method leaves alone *)

(** Case analysis on the conditions a method tests. *)
Ltac split_cases :=
  repeat match goal with
    | |- context [if ?b then _ else _] => destruct b eqn:?
    | |- context [match ?x with _ => _ end] => destruct x eqn:?
    end.

Section Preserved.

Variable env : Env.

Lemma publishState_start_ready position bitValue byteIndex bitIndex
    contentName w :
  readyToSendData
    (fst (StateManager.publishState_start env position bitValue byteIndex
            bitIndex contentName w))
  = readyToSendData w.
Proof.
  unfold StateManager.publishState_start, now, mqtt_publish, logger.
  split_cases; reflexivity.
Qed.

Lemma publish_changed_bits_start_ready ps nb ob byteIndex contentName w :
  readyToSendData
    (fst (StateManager.publish_changed_bits_start env ps nb ob byteIndex
            contentName w))
  = readyToSendData w.
Proof.
  revert w. induction ps as [|p ps IH]; intros w; simpl; [reflexivity |].
  destruct (JS.parseInt16 (hex p)); [| apply IH].
  case_bool_decide as Hd; [| apply IH].
  pose proof (publishState_start_ready p
                (StateManager.index nb (Z.rem z 8)) byteIndex (Z.rem z 8)
                contentName w) as H.
  destruct (StateManager.publishState_start env _ _ _ _ _ _). exact H.
Qed.

Lemma publishPositionStates_start_ready byteMap ps contentName w :
  readyToSendData
    (fst (StateManager.publishPositionStates_start env byteMap ps contentName
            w))
  = readyToSendData w.
Proof.
  revert w. induction ps as [|p ps IH]; intros w; simpl; [reflexivity |].
  destruct (JS.parseInt16 (hex p)); [| apply IH].
  destruct (StateManager.Map_get _ _); [| apply IH].
  destruct (StateManager.index _ _) as [c|]; [| apply IH].
  pose proof (publishState_start_ready p (Some c) (z / 8) (Z.rem z 8)
                contentName w) as H.
  destruct (StateManager.publishState_start env _ _ _ _ _ _). exact H.
Qed.

Lemma process_entries_start_ready entries prevMap byteMap ps contentName w :
  readyToSendData
    (fst (StateManager.process_entries_start env entries prevMap byteMap ps
            contentName w))
  = readyToSendData w.
Proof.
  revert w. induction entries as [|[i v] entries IH]; intros w; simpl;
    [reflexivity |].
  case_bool_decide as Hd; [| apply IH].
  unfold StateManager.processStateChanges_start.
  match goal with
  | |- context [StateManager.publish_changed_bits_start env ?rel ?nb ?ob i
                  contentName w] =>
      pose proof (publish_changed_bits_start_ready rel nb ob i contentName w)
        as H;
      destruct (StateManager.publish_changed_bits_start env rel nb ob i
                  contentName w) as [w1 [[publishing rest]|]]
  end; exact H.
Qed.

Lemma handleStateChange_start_ready byteMap contentName contentConfig w :
  readyToSendData
    (fst (StateManager.handleStateChange_start env byteMap contentName
            contentConfig w))
  = readyToSendData w.
Proof.
  unfold StateManager.handleStateChange_start.
  destruct (statesPrevious w !! contentName).
  - apply process_entries_start_ready.
  - rewrite publishPositionStates_start_ready. reflexivity.
Qed.

Lemma decodeHex_ready hex contentName w :
  readyToSendData (Telenot.decodeHex env hex contentName w)
  = readyToSendData w.
Proof.
  unfold Telenot.decodeHex.
  destruct (Telenot_area (config env) contentName) as [cc|]; [| reflexivity].
  match goal with
  | |- context [StateManager.handleStateChange_start env ?m contentName cc w] =>
      pose proof (handleStateChange_start_ready m contentName cc w) as H;
      destruct (StateManager.handleStateChange_start env m contentName cc w)
        as [w1 [call|]]
  end; exact H.
Qed.

Lemma publishToMQTT_ready t message w :
  readyToSendData (SocketHandler.publishToMQTT env t message w)
  = readyToSendData w.
Proof.
  unfold SocketHandler.publishToMQTT, mqtt_publish. split_cases; reflexivity.
Qed.

Lemma publish_diagnostics_ready subtopic object w :
  readyToSendData (SocketHandler.publish_diagnostics env subtopic object w)
  = readyToSendData w.
Proof.
  unfold SocketHandler.publish_diagnostics, now.
  rewrite publishToMQTT_ready. reflexivity.
Qed.

Lemma sendData_night data w :
  virtualNightMode (snd (SocketManager.sendData env data w))
  = virtualNightMode w.
Proof. unfold SocketManager.sendData. split_cases; reflexivity. Qed.

Lemma sendCommand_night command action w :
  virtualNightMode (snd (Telenot.sendCommand env command action w))
  = virtualNightMode w.
Proof.
  unfold Telenot.sendCommand.
  destruct (String.eqb command ""); [reflexivity |].
  destruct (negb _); [reflexivity |].
  destruct (Telenot.hexToBytes command) as [bytes|]; [| reflexivity].
  pose proof (sendData_night (JS.Buffer_from bytes)
                (logger LInfo (Sending action command)
                   (logger LDebug (AttemptingToSend command action) w))) as H.
  destruct (SocketManager.sendData env _ _) as [[] w']; simpl in *; exact H.
Qed.

Lemma createCommandMessage_night address baseHex commandHex w :
  virtualNightMode
    (snd (Telenot.createCommandMessage env address baseHex commandHex w))
  = virtualNightMode w.
Proof. unfold Telenot.createCommandMessage. split_cases; reflexivity. Qed.

Lemma command_area_night baseHex commandHex action address w :
  virtualNightMode
    (snd (Telenot.command_area env baseHex commandHex action address w))
  = virtualNightMode w.
Proof.
  unfold Telenot.command_area.
  pose proof (createCommandMessage_night address baseHex commandHex w) as H1.
  destruct (Telenot.createCommandMessage env _ _ _ _) as [[command|] w1];
    simpl in H1; [| exact H1].
  pose proof (sendCommand_night command action w1) as H2.
  destruct (Telenot.sendCommand env _ _ _) as [[] w2]; simpl in *; congruence.
Qed.

End Preserved.

(** ** The readiness flag ([SocketHandler.parseData]) *)

(** C8: [parseData] always returns, with the acknowledgement frame, and
    it changes [readyToSendData] on two message types only: [SB] sets it
    to [true], [CONF_ACK] sets it to [false]; after any other frame
    (every other member of the enumeration, an unclassified frame) the
    flag is what it was. *)
Theorem parseData_readyToSendData env hexStr hex w :
  fst (SocketHandler.parseData env hexStr hex w) = Some SocketHandler.CONF_ACK
  /\ readyToSendData (snd (SocketHandler.parseData env hexStr hex w))
     = match SocketHandler.getMsgType hexStr with
       | SocketHandler.Type_ SocketHandler.SB => true
       | SocketHandler.Type_ SocketHandler.CONF_ACK_ => false
       | _ => readyToSendData w
       end.
Proof.
  unfold SocketHandler.parseData. split; [reflexivity |].
  destruct (SocketHandler.getMsgType hexStr) as [[] | key]; cbn [snd];
    rewrite ?publish_diagnostics_ready, ?publishToMQTT_ready, ?decodeHex_ready;
    try reflexivity;
    destruct (Discover (config env)); reflexivity.
Qed.

(** ** The virtual night mode ([CommandHandler.handleCommand]) *)

Lemma handleCommand_night_iff env c w :
  virtualNightMode (snd (CommandHandler.handleCommand env c w)) = true
  <-> c = "ARM_NIGHT".
Proof.
  rewrite <- String.eqb_eq.
  unfold CommandHandler.handleCommand, VirtualStateHandler.mapToInternalState.
  destruct (String.eqb c "ARM_NIGHT") eqn:Hc.
  - (* ARM_NIGHT is handed on as ARM_HOME *)
    cbn.
    pose proof (command_area_night env 1321 "62" "intArmArea" 1
                  (logger LVerbose (ExecutingCommand c "ARM_HOME" true)
                     (set_virtualNightMode true w))) as H.
    unfold Telenot.intArmArea.
    destruct (Telenot.command_area env _ _ _ _ _) as [[] w']; simpl in *;
      rewrite H; tauto.
  - unfold CommandHandler.commandMap. rewrite Hc.
    assert (Hrun : forall a w0, a <> CommandHandler.ARM_NIGHT ->
              virtualNightMode w0 = false ->
              virtualNightMode (snd (CommandHandler.run env a w0)) = false).
    { intros a w0 Ha Hw0. destruct a; simpl;
        unfold Telenot.disarmArea, Telenot.intArmArea, Telenot.extArmArea,
          Telenot.resetArmArea;
        rewrite ?command_area_night; try assumption; try reflexivity.
      contradiction. }
    split_cases; cbn [snd];
      try (match goal with
           | H : CommandHandler.run env ?a ?w0 = _ |- _ =>
               pose proof (Hrun a w0 ltac:(discriminate) eq_refl) as Hr;
               rewrite H in Hr; simpl in Hr; rewrite Hr
           end);
      simpl; split; congruence.
Qed.

(** C10: after [handleCommand(c)], however it ends (the command is
    handled, unknown, or its action throws), the night-mode flag is [true]
    if [c] is [ARM_NIGHT] and [false] for every other string: it is what
    [mapToInternalState] made it before the dispatch. *)
Theorem handleCommand_virtualNightMode env c w :
  virtualNightMode (snd (CommandHandler.handleCommand env c w))
  = bool_decide (c = "ARM_NIGHT")
  /\ virtualNightMode (snd (CommandHandler.handleCommand env c w))
     = virtualNightMode (snd (VirtualStateHandler.mapToInternalState c w)).
Proof.
  pose proof (handleCommand_night_iff env c w) as H.
  assert (E : virtualNightMode (snd (CommandHandler.handleCommand env c w))
              = bool_decide (c = "ARM_NIGHT")).
  { destruct (virtualNightMode _); case_bool_decide; try reflexivity.
    - exfalso. tauto.
    - exfalso. apply H in H0. discriminate. }
  split; [exact E |]. rewrite E.
  unfold VirtualStateHandler.mapToInternalState.
  case_bool_decide as Hc.
  - subst c. reflexivity.
  - apply String.eqb_neq in Hc. rewrite Hc. reflexivity.
Qed.

(** ** Publishing one sensor state ([StateManager.publishState]) *)

Section PublishState.

Variable env : Env.

(** The state that was published last to the topic is not published
    again: nothing at all happens. *)
Lemma publishState_suppressed position bitValue byteIndex bitIndex contentName w :
  lastPublishedStates w !! topic position
  = Some (StateManager.mapBinaryValue bitValue (inverted position)) ->
  StateManager.publishState env position bitValue byteIndex bitIndex
    contentName w = w.
Proof.
  intros H. unfold StateManager.publishState.
  rewrite bool_decide_eq_true_2 by exact H. reflexivity.
Qed.

(** Any other state of a named position is published, once; the topic
    remembers it when the publish call succeeds. *)
Lemma publishState_named position bitValue byteIndex bitIndex contentName w :
  StateManager.has_name position = true ->
  lastPublishedStates w !! topic position
  <> Some (StateManager.mapBinaryValue bitValue (inverted position)) ->
  let state := StateManager.mapBinaryValue bitValue (inverted position) in
  let stamp := DateISO.toISOString (clock env (clock_reads w)) in
  let w' := StateManager.publishState env position bitValue byteIndex
              bitIndex contentName w in
  published w'
  = (published w
     ++ [mkPublishCall (topic position)
           (JSON.stringify (StateManager.payload position state stamp)) true])%list
  /\ lastPublishedStates w'
     = (if publish_outcome env (List.length (published w))
        then <[topic position := state]> (lastPublishedStates w)
        else lastPublishedStates w)
  /\ statesPrevious w' = statesPrevious w.
Proof.
  intros Hname Hlast state stamp. unfold StateManager.publishState.
  rewrite bool_decide_eq_false_2 by exact Hlast.
  rewrite Hname. simpl negb. rewrite andb_false_r.
  unfold now, mqtt_publish, set_clock_reads. cbn [published].
  destruct (publish_outcome env (List.length (published w)));
    repeat split; reflexivity.
Qed.

(** C9: a position without a name is never published and never enters
    [lastPublishedStates], whatever the bit is; the log grows by the two
    lines of a discovery entry when discovery mode is on, and not at all
    otherwise. *)
Theorem publishState_without_name position bitValue byteIndex bitIndex
    contentName w :
  StateManager.has_name position = false ->
  let w' := StateManager.publishState env position bitValue byteIndex
              bitIndex contentName w in
  published w' = published w
  /\ lastPublishedStates w' = lastPublishedStates w
  /\ (log w' = log w
      \/ Discover (config env) = true
         /\ log w'
            = (log w
               ++ [ (LDiscover, DiscoveryDetection);
                    (LDiscover,
                      DiscoveryDetail contentName byteIndex bitIndex
                        (hex position)
                        (StateManager.getPreviousBit contentName byteIndex
                           bitIndex w)
                        bitValue) ])%list).
Proof.
  intros Hname. unfold StateManager.publishState. rewrite Hname.
  case_bool_decide; [auto |].
  destruct (Discover (config env)); simpl.
  - repeat split; try reflexivity. right. split; [reflexivity |].
    unfold logger. simpl. rewrite <- app_assoc. reflexivity.
  - auto.
Qed.

(** C5, as amended: two invocations in a row for one topic, by named
    positions, when the topic's last published state is not the first
    computed state and the first publish call succeeds: one publish
    call if the two computed states are the same, two if they differ;
    every call goes to that topic. *)
Theorem publishState_twice p1 p2 b1 b2 byteIndex1 bitIndex1 byteIndex2
    bitIndex2 contentName1 contentName2 w :
  StateManager.has_name p1 = true ->
  StateManager.has_name p2 = true ->
  topic p2 = topic p1 ->
  lastPublishedStates w !! topic p1
  <> Some (StateManager.mapBinaryValue b1 (inverted p1)) ->
  publish_outcome env (List.length (published w)) = true ->
  let state1 := StateManager.mapBinaryValue b1 (inverted p1) in
  let state2 := StateManager.mapBinaryValue b2 (inverted p2) in
  let w' := StateManager.publishState env p2 b2 byteIndex2 bitIndex2
              contentName2
              (StateManager.publishState env p1 b1 byteIndex1 bitIndex1
                 contentName1 w) in
  exists calls,
    published w' = (published w ++ calls)%list
    /\ Forall (fun c => pub_topic c = topic p1) calls
    /\ List.length calls = if bool_decide (state1 = state2) then 1%nat else 2%nat.
Proof.
  intros Hn1 Hn2 Htopic Hlast Hok state1 state2.
  destruct (publishState_named p1 b1 byteIndex1 bitIndex1 contentName1 w
              Hn1 Hlast) as (Hpub1 & Hlast1 & _).
  rewrite Hok in Hlast1.
  set (w1 := StateManager.publishState env p1 b1 byteIndex1 bitIndex1
               contentName1 w) in *.
  assert (Hmem : lastPublishedStates w1 !! topic p2 = Some state1).
  { rewrite Hlast1, Htopic. apply lookup_insert_eq. }
  case_bool_decide as Hsame.
  - (* the same state: the second invocation is suppressed *)
    cbn zeta. rewrite publishState_suppressed.
    + eexists. split; [exact Hpub1 |]. split; [| reflexivity].
      repeat constructor.
    + rewrite Hmem. f_equal. exact Hsame.
  - (* another state: the second invocation publishes as well *)
    destruct (publishState_named p2 b2 byteIndex2 bitIndex2 contentName2 w1
                Hn2) as (Hpub2 & _ & _).
    { rewrite Hmem. intros E. apply Hsame. injection E as E. exact E. }
    cbn zeta. rewrite Hpub2, Hpub1, <- app_assoc.
    eexists. split; [reflexivity |]. split; [| reflexivity].
    repeat constructor. simpl. exact Htopic.
Qed.

End PublishState.

Lemma publishState_without_name_witness :
  published
    (StateManager.publishState Example.env Example.unknown (Some "1"%char) 2 2
       "MELDEBEREICHE" Telenot.new) = [].
Proof.
  apply (publishState_without_name Example.env Example.unknown (Some "1"%char)
           2 2 "MELDEBEREICHE" Telenot.new).
  reflexivity.
Defined.

Lemma publishState_twice_witness :
  exists calls,
    published
      (StateManager.publishState Example.env Example.door (Some "0"%char) 2 0
         "MELDEBEREICHE"
         (StateManager.publishState Example.env Example.door (Some "1"%char)
            2 0 "MELDEBEREICHE" Telenot.new))
    = (published Telenot.new ++ calls)%list
    /\ Forall (fun c => pub_topic c = topic Example.door) calls
    /\ List.length calls = 2%nat.
Proof.
  apply (publishState_twice Example.env Example.door Example.door
           (Some "1"%char) (Some "0"%char) 2 0 2 0
           "MELDEBEREICHE" "MELDEBEREICHE" Telenot.new).
  - reflexivity.
  - reflexivity.
  - reflexivity.
  - vm_compute. discriminate.
  - reflexivity.
Defined.

(** C5, as stated, fails.  (1) The door's topic holds [ON]; invoking
    [publishState] with [ON] and then with [OFF], two different states,
    makes one publish call, not two.  (2) With a sink that rejects, the
    same state twice from a fresh bridge makes two publish calls, not
    one. *)
Lemma publishState_twice_counterexample :
  let w0 := StateManager.publishState Example.env Example.door (Some "0"%char)
              2 0 "MELDEBEREICHE" Telenot.new in
  let different :=
    StateManager.publishState Example.env Example.door (Some "1"%char) 2 0
      "MELDEBEREICHE"
      (StateManager.publishState Example.env Example.door (Some "0"%char) 2 0
         "MELDEBEREICHE" w0) in
  let same :=
    StateManager.publishState Example.env_failing Example.door (Some "1"%char)
      2 0 "MELDEBEREICHE"
      (StateManager.publishState Example.env_failing Example.door
         (Some "1"%char) 2 0 "MELDEBEREICHE" Telenot.new) in
  StateManager.mapBinaryValue (Some "0"%char) (inverted Example.door) = "ON"
  /\ StateManager.mapBinaryValue (Some "1"%char) (inverted Example.door) = "OFF"
  /\ lastPublishedStates w0 !! topic Example.door = Some "ON"
  /\ List.length (Spec.published_to (topic Example.door) different)
     = S (List.length (Spec.published_to (topic Example.door) w0))
  /\ List.length (Spec.published_to (topic Example.door) same) = 2%nat.
Proof. vm_compute. repeat split; reflexivity. Qed.

(** ** Reconnection of the TCP link ([SocketManager.handleReconnect]) *)

Lemma terminal_failures_logger l m w :
  Spec.terminal_failures (logger l m w)
  = (Spec.terminal_failures w
     + match l, m with
       | LError, MaxReconnectionAttemptsReached => 1
       | _, _ => 0
       end)%nat.
Proof.
  unfold Spec.terminal_failures, logger. simpl.
  rewrite List.filter_app, List.length_app. f_equal.
  destruct l, m; reflexivity.
Qed.

Lemma terminal_failures_log v w :
  log v = log w -> Spec.terminal_failures v = Spec.terminal_failures w.
Proof. unfold Spec.terminal_failures. intros ->. reflexivity. Qed.

(** One call of [handleReconnect]: below the cap it counts the attempt
    and sets a timer; at the cap it only logs the terminal failure. *)
Lemma handleReconnect_effect w :
  let w' := SocketManager.handleReconnect w in
  maxReconnectAttempts w' = maxReconnectAttempts w
  /\ sockets w' = sockets w
  /\ if reconnectAttempts w <? maxReconnectAttempts w
     then reconnectAttempts w' = reconnectAttempts w + 1
          /\ next_timer w' = S (next_timer w)
          /\ Spec.terminal_failures w' = Spec.terminal_failures w
     else reconnectAttempts w' = reconnectAttempts w
          /\ next_timer w' = next_timer w
          /\ Spec.terminal_failures w' = S (Spec.terminal_failures w).
Proof.
  unfold SocketManager.handleReconnect.
  destruct (reconnectAttempts w <? maxReconnectAttempts w).
  - destruct (reconnectTimeout _); cbn; repeat split; try reflexivity;
      unfold Spec.terminal_failures; simpl;
      rewrite List.filter_app, List.length_app; simpl; apply Nat.add_0_r.
  - cbv zeta. repeat split; try reflexivity.
    rewrite terminal_failures_logger. apply Nat.add_1_r.
Qed.

(** What one event of a run with the link down does to the counters. *)
Lemma link_down_step env e w :
  Spec.loss_or_timer w e ->
  let w' := Bridge.step env e w in
  maxReconnectAttempts w' = maxReconnectAttempts w
  /\ (List.length (sockets w) <= List.length (sockets w'))%nat
  /\ if Spec.is_loss e && (reconnectAttempts w <? maxReconnectAttempts w)
     then reconnectAttempts w' = reconnectAttempts w + 1
          /\ next_timer w' = S (next_timer w)
          /\ Spec.terminal_failures w' = Spec.terminal_failures w
     else reconnectAttempts w' = reconnectAttempts w
          /\ next_timer w' = next_timer w
          /\ Spec.terminal_failures w'
             = (Spec.terminal_failures w + if Spec.is_loss e then 1 else 0)%nat.
Proof.
  intros Hvalid.
  assert (Hloss : forall v : World,
            maxReconnectAttempts v = maxReconnectAttempts w ->
            sockets v = sockets w ->
            reconnectAttempts v = reconnectAttempts w ->
            next_timer v = next_timer w ->
            Spec.terminal_failures v = Spec.terminal_failures w ->
            let w' := SocketManager.handleReconnect v in
            maxReconnectAttempts w' = maxReconnectAttempts w
            /\ (List.length (sockets w) <= List.length (sockets w'))%nat
            /\ if true && (reconnectAttempts w <? maxReconnectAttempts w)
               then reconnectAttempts w' = reconnectAttempts w + 1
                    /\ next_timer w' = S (next_timer w)
                    /\ Spec.terminal_failures w' = Spec.terminal_failures w
               else reconnectAttempts w' = reconnectAttempts w
                    /\ next_timer w' = next_timer w
                    /\ Spec.terminal_failures w'
                       = (Spec.terminal_failures w + 1)%nat).
  { intros v Hm Hs Ha Hn Ht.
    destruct (handleReconnect_effect v) as (Hm' & Hs' & Hrest).
    rewrite Hm, Ha in Hrest. cbn zeta. rewrite Hm', Hs', Hm, Hs.
    split; [reflexivity |]. split; [lia |].
    simpl andb. destruct (reconnectAttempts w <? maxReconnectAttempts w);
      destruct Hrest as (-> & -> & ->); rewrite ?Ha, ?Hn, ?Ht;
      repeat split; lia. }
  destruct e as [id | id data | id | id | id | h | msg | k]; simpl in Hvalid;
    try contradiction.
  - (* error *)
    apply lookup_lt_is_Some_2 in Hvalid. destruct Hvalid as [cb Hcb].
    cbn. rewrite Hcb. destruct cb; unfold SocketManager.on_error;
      apply Hloss; try reflexivity.
    rewrite terminal_failures_logger. apply Nat.add_0_r.
  - (* close *)
    apply lookup_lt_is_Some_2 in Hvalid. destruct Hvalid as [cb Hcb].
    cbn. rewrite Hcb. destruct cb; unfold SocketManager.on_close;
      apply Hloss; try reflexivity.
    rewrite terminal_failures_logger. apply Nat.add_0_r.
  - (* timeout *)
    apply lookup_lt_is_Some_2 in Hvalid. destruct Hvalid as [cb Hcb].
    cbn. rewrite Hcb. unfold SocketManager.on_timeout.
    apply Hloss; try reflexivity.
    rewrite (terminal_failures_log _ (logger LWarn SocketConnectionTimedOut w))
      by reflexivity.
    rewrite terminal_failures_logger. apply Nat.add_0_r.
  - (* a timer fires *)
    cbn. unfold SocketManager.reconnect_timer_fired.
    destruct (existsb _ _); cbn; rewrite ?List.length_app; simpl;
      repeat split; try lia; symmetry; apply Nat.add_0_r.
Qed.

(** C7, as amended: in a run with the link down, the attempt counter
    stops at [maxReconnectAttempts] (5); a connection loss below the cap
    schedules one reconnection, and so at most [max - attempts] are ever
    scheduled; every connection loss observed at the cap schedules
    nothing and logs the terminal failure once more, so that [n] further
    losses leave [n] such entries in the log. *)
Theorem reconnect_bounded env events w :
  reconnectAttempts w <= maxReconnectAttempts w ->
  Spec.link_down_run env events w ->
  let w' := Bridge.run env events w in
  let losses := Z.of_nat (List.length (List.filter Spec.is_loss events)) in
  let room := maxReconnectAttempts w - reconnectAttempts w in
  reconnectAttempts w' = Z.min (maxReconnectAttempts w) (reconnectAttempts w + losses)
  /\ Z.of_nat (next_timer w') = Z.of_nat (next_timer w) + Z.min losses room
  /\ Z.of_nat (Spec.terminal_failures w')
     = Z.of_nat (Spec.terminal_failures w) + Z.max 0 (losses - room).
Proof.
  revert w. induction events as [|e events IH]; intros w Hle Hrun.
  - cbn. repeat split; lia.
  - destruct Hrun as [Hvalid Hrun].
    pose proof (link_down_step env e w Hvalid) as (Hmax & _ & Hstep).
    set (w1 := Bridge.step env e w) in *.
    assert (Hle1 : reconnectAttempts w1 <= maxReconnectAttempts w1).
    { rewrite Hmax.
      destruct (Spec.is_loss e);
        destruct (reconnectAttempts w <? maxReconnectAttempts w) eqn:Hlt;
        simpl in Hstep; destruct Hstep as (-> & _ & _); lia. }
    specialize (IH w1 Hle1 Hrun).
    change (Bridge.run env (e :: events) w) with (Bridge.run env events w1).
    cbn zeta in IH |- *. destruct IH as (IHa & IHn & IHt).
    rewrite IHa, IHn, IHt, Hmax. clear IHa IHn IHt.
    simpl List.filter.
    destruct (Spec.is_loss e);
      destruct (reconnectAttempts w <? maxReconnectAttempts w) eqn:Hlt;
      simpl in Hstep; destruct Hstep as (-> & -> & ->);
      simpl List.length; repeat split; lia.
Qed.

Lemma reconnect_bounded_witness :
  let events :=
    [Bridge.SocketError 0; Bridge.SocketClose 0; Bridge.TimerFired 1;
     Bridge.SocketError 1; Bridge.SocketClose 1; Bridge.TimerFired 3;
     Bridge.SocketError 2; Bridge.SocketClose 2; Bridge.TimerFired 4;
     Bridge.SocketError 3; Bridge.SocketClose 3]%nat in
  let w' := Bridge.run Example.env events Example.started in
  reconnectAttempts Example.started <= maxReconnectAttempts Example.started
  /\ Spec.link_down_run Example.env events Example.started
  /\ List.length (List.filter Spec.is_loss events) = 8%nat
  /\ reconnectAttempts w' = 5
  /\ Z.of_nat (next_timer w') = Z.of_nat (next_timer Example.started) + 5
  /\ Z.of_nat (Spec.terminal_failures w')
     = Z.of_nat (Spec.terminal_failures Example.started) + 3.
Proof.
  intros events w'.
  assert (Hle : reconnectAttempts Example.started
                <= maxReconnectAttempts Example.started)
    by (vm_compute; discriminate).
  assert (Hrun : Spec.link_down_run Example.env events Example.started)
    by (vm_compute; repeat split; lia).
  destruct (reconnect_bounded Example.env events Example.started Hle Hrun)
    as (Hattempts & Htimers & Hfailures).
  split_and!; [exact Hle | exact Hrun | reflexivity | exact Hattempts
              | exact Htimers | exact Hfailures].
Defined.

(** C7, as stated, fails: the link of the example never comes up; the
    counter reaches 5 at the fifth connection loss, and each of the three
    losses observed after that logs the terminal failure again. *)
Lemma terminal_failure_logged_thrice :
  let events :=
    [Bridge.SocketError 0; Bridge.SocketClose 0; Bridge.TimerFired 1;
     Bridge.SocketError 1; Bridge.SocketClose 1; Bridge.TimerFired 3;
     Bridge.SocketError 2; Bridge.SocketClose 2; Bridge.TimerFired 4;
     Bridge.SocketError 3; Bridge.SocketClose 3]%nat in
  let w' := Bridge.run Example.env events Example.started in
  maxReconnectAttempts Example.started = 5
  /\ reconnectAttempts w' = 5
  /\ Spec.terminal_failures w' = 3%nat
  /\ Spec.terminal_failures w' <> 1%nat.
Proof. vm_compute. repeat split; try reflexivity. discriminate. Qed.

(** ** Frame classification ([SocketHandler.getMsgType]) *)

Lemma length_chars (s : string) : List.length (JS.chars s) = String.length s.
Proof. induction s as [|c s IH]; simpl; [reflexivity | now rewrite IH]. Qed.

Lemma consume_text_length t l r :
  SocketHandler.consume_text t l = Some r ->
  List.length l = (List.length t + List.length r)%nat.
Proof.
  revert l. induction t as [|c t IH]; intros l H; simpl in H.
  - injection H as ->. reflexivity.
  - destruct l as [|x l]; [discriminate |].
    destruct (Ascii.eqb c x); [| discriminate].
    simpl. rewrite (IH l H). reflexivity.
Qed.

Lemma consume_length p n l r :
  SocketHandler.consume p n l = Some r ->
  List.length l = (n + List.length r)%nat.
Proof.
  revert l. induction n as [|n IH]; intros l H; simpl in H.
  - injection H as ->. reflexivity.
  - destruct l as [|x l]; [discriminate |].
    destruct (p x); [| discriminate].
    simpl. rewrite (IH l H). reflexivity.
Qed.

Lemma consume_pieces_length ps l r :
  SocketHandler.consume_pieces ps l = Some r ->
  List.length l
  = (fold_right (fun pc n => (Spec.piece_length pc + n)%nat) 0%nat ps
     + List.length r)%nat.
Proof.
  revert l. induction ps as [|pc ps IH]; intros l H; simpl in H.
  - injection H as ->. reflexivity.
  - destruct (SocketHandler.consume_piece pc l) as [l'|] eqn:Hpc; [| discriminate].
    apply IH in H. simpl.
    assert (Hl : List.length l = (Spec.piece_length pc + List.length l')%nat).
    { destruct pc as [t | members n | n | n]; simpl in Hpc |- *.
      - rewrite <- length_chars. apply consume_text_length. exact Hpc.
      - eapply consume_length. exact Hpc.
      - eapply consume_length. exact Hpc.
      - eapply consume_length. exact Hpc. }
    lia.
Qed.

(** An expression matches no string shorter than its pieces. *)
Lemma test_min_length re s :
  (String.length s < Spec.min_length re)%nat -> SocketHandler.test re s = false.
Proof.
  intros Hlen. unfold SocketHandler.test.
  destruct (SocketHandler.consume_pieces _ _) as [r|] eqn:H; [| reflexivity].
  apply consume_pieces_length in H. rewrite length_chars in H.
  unfold Spec.min_length in Hlen. lia.
Qed.

(** Every expression of [matchHexStrToMsgType] needs nine characters or
    more. *)
Lemma matchHexStrToMsgType_short s :
  (String.length s < 9)%nat -> SocketHandler.matchHexStrToMsgType s = None.
Proof.
  intros Hlen. unfold SocketHandler.matchHexStrToMsgType.
  rewrite !test_min_length; [reflexivity | ..];
    (eapply Nat.lt_le_trans; [exact Hlen |]); vm_compute; lia.
Qed.

(** A string of hex digits is not the name of an inherited member. *)
Lemma hex_string_not_inherited s :
  Spec.is_hex_string s = true -> JS.inherited s = false.
Proof.
  intros Hhex. destruct (JS.inherited s) eqn:Hin; [| reflexivity].
  unfold JS.inherited in Hin. apply existsb_exists in Hin as (key & Hkey & Heq).
  apply String.eqb_eq in Heq. subst key.
  unfold JS.Object_prototype_keys in Hkey. simpl in Hkey.
  repeat (destruct Hkey as [<- | Hkey]; [vm_compute in Hhex; discriminate |]).
  contradiction.
Qed.

(** The part of C6 that holds: [getMsgType] is a function of the string
    (it neither throws nor depends on anything else), and a string of
    fewer than eight hex digits, the empty string among them, is
    INVALID. *)
Lemma getMsgType_too_short s :
  Spec.is_hex_string s = true ->
  (String.length s < 8)%nat ->
  SocketHandler.getMsgType s = SocketHandler.Type_ SocketHandler.INVALID.
Proof.
  intros Hhex Hlen. unfold SocketHandler.getMsgType.
  rewrite matchHexStrToMsgType_short by lia.
  assert (Hsub : JS.substring0 8 s = s).
  { unfold JS.substring0, JS.str, JS.chars.
    rewrite take_ge by (rewrite <- length_chars in Hlen; unfold JS.chars in Hlen; lia).
    apply string_of_list_ascii_of_string. }
  rewrite Hsub. unfold SocketHandler.START_TO_MSG_TYPE.
  rewrite (hex_string_not_inherited s Hhex).
  destruct (String.eqb_spec s "68020268") as [-> | _]; [simpl in Hlen; lia |].
  destruct (String.eqb_spec s "682C2C68") as [-> | _]; [simpl in Hlen; lia |].
  reflexivity.
Qed.

(** C6, the code on two hex strings and their upper-cased forms: the
    lower-case prefix [682c2c68] is INVALID while [682C2C68] is MP (the key
    of [START_TO_MSG_TYPE] is upper-case only), and the sensor alarm
    [...002b] is ALARM while [...002B] is MP (the pattern spells [2b] in
    lower case only).  Classification depends on the case of the
    letters. *)
Theorem getMsgType_depends_on_case :
  Spec.is_hex_string "682c2c68" = true
  /\ Spec.toUpperCase "682c2c68" = "682C2C68"
  /\ SocketHandler.getMsgType "682c2c68" = SocketHandler.Type_ SocketHandler.INVALID
  /\ SocketHandler.getMsgType "682C2C68" = SocketHandler.Type_ SocketHandler.MP
  /\ Spec.is_hex_string "682c2c687302050201002b" = true
  /\ SocketHandler.getMsgType "682c2c687302050201002b"
     = SocketHandler.Type_ SocketHandler.ALARM
  /\ SocketHandler.getMsgType (Spec.toUpperCase "682c2c687302050201002b")
     = SocketHandler.Type_ SocketHandler.MP.
Proof. vm_compute. repeat split; reflexivity. Qed.

(** ** Byte maps *)

Lemma Map_get_elem_of (m : ByteMap) k v :
  NoDup (fst <$> m) -> (k, v) ∈ m -> StateManager.Map_get k m = Some v.
Proof.
  induction m as [|[k' v'] m IH]; intros Hnd Hin.
  - inversion Hin.
  - simpl in Hnd. apply NoDup_cons in Hnd as [Hk' Hnd]. simpl.
    apply elem_of_cons in Hin as [Heq | Hin].
    + injection Heq as -> ->. rewrite Z.eqb_refl. reflexivity.
    + destruct (Z.eqb_spec k' k) as [-> | Hne].
      * exfalso. apply Hk'. apply list_elem_of_fmap. exists (k, v). auto.
      * apply IH; assumption.
Qed.

Lemma Map_set_fresh (m : ByteMap) k v :
  k ∉ fst <$> m -> StateManager.Map_set k v m = (m ++ [(k, v)])%list.
Proof.
  induction m as [|[k' v'] m IH]; intros Hk; simpl; [reflexivity |].
  simpl in Hk. apply not_elem_of_cons in Hk as [Hne Hk].
  destruct (Z.eqb_spec k' k) as [-> | _]; [contradiction |].
  rewrite IH by assumption. reflexivity.
Qed.

(** [new Map(entries)] of entries with distinct keys keeps them as they
    are; so does the copy [new Map(byteMap)] of a map. *)
Lemma Map_new_NoDup (l : ByteMap) :
  NoDup (fst <$> l) -> StateManager.Map_new l = l.
Proof.
  unfold StateManager.Map_new.
  assert (H : forall acc : ByteMap,
             NoDup (fst <$> (acc ++ l)%list) ->
             fold_left (fun m e => StateManager.Map_set (fst e) (snd e) m) l acc
             = (acc ++ l)%list).
  { induction l as [|[k v] l IH]; intros acc Hnd; simpl.
    - rewrite app_nil_r. reflexivity.
    - rewrite Map_set_fresh.
      + rewrite IH; rewrite <- app_assoc; [reflexivity | exact Hnd].
      + rewrite fmap_app in Hnd. apply NoDup_app in Hnd as (_ & Hdisj & _).
        intros Hk. apply (Hdisj k Hk). simpl. left. }
  intros Hnd. apply (H []). exact Hnd.
Qed.

(** The entries [decodeHex] builds from the payload bytes. *)
Lemma decoded_keys (l : list Z) :
  fst <$> imap (fun index value => (Z.of_nat index, value)) l
  = Z.of_nat <$> seq 0 (List.length l).
Proof. rewrite fmap_imap. apply (imap_seq_0 l Z.of_nat). Qed.

Lemma decoded_NoDup (l : list Z) :
  NoDup (fst <$> imap (fun index value => (Z.of_nat index, value)) l).
Proof.
  rewrite decoded_keys. apply NoDup_fmap_2; [| apply NoDup_seq].
  intros a b H. lia.
Qed.

Lemma decoded_elem_of (l : list Z) k v :
  (k, v) ∈ imap (fun index value => (Z.of_nat index, value)) l
  <-> exists i : nat, k = Z.of_nat i /\ l !! i = Some v.
Proof.
  rewrite elem_of_lookup_imap. split.
  - intros (i & y & Heq & Hl). injection Heq as -> ->. eauto.
  - intros (i & -> & Hl). eauto.
Qed.

Lemma decoded_get (l : list Z) (i : nat) :
  StateManager.Map_get (Z.of_nat i)
    (imap (fun index value => (Z.of_nat index, value)) l)
  = l !! i.
Proof.
  destruct (l !! i) as [v|] eqn:Hl.
  - apply Map_get_elem_of; [apply decoded_NoDup |].
    apply decoded_elem_of. eauto.
  - assert (H : forall m : ByteMap, Z.of_nat i ∉ fst <$> m ->
                StateManager.Map_get (Z.of_nat i) m = None).
    { induction m as [|[k' v'] m IH]; intros Hk; simpl; [reflexivity |].
      simpl in Hk. apply not_elem_of_cons in Hk as [Hne Hk].
      destruct (Z.eqb_spec k' (Z.of_nat i)) as [-> | _]; [contradiction |].
      apply IH. exact Hk. }
    apply H. rewrite decoded_keys. intros Hin.
    apply list_elem_of_fmap in Hin as (j & Hj & Hin).
    apply elem_of_seq in Hin. apply lookup_ge_None in Hl. lia.
Qed.

(** ** Change detection ([StateManager.handleStateChange]) *)

Section ChangeDetection.

Variable env : Env.

(** Entries that are what the previous snapshot holds are skipped. *)
Lemma process_entries_unchanged entries prevMap ps contentName w :
  (forall k v, (k, v) ∈ entries -> StateManager.Map_get k prevMap = Some v) ->
  StateManager.process_entries env entries prevMap ps contentName w = w.
Proof.
  revert w. induction entries as [|[k v] entries IH]; intros w H; simpl;
    [reflexivity |].
  rewrite bool_decide_eq_false_2.
  - apply IH. intros k' v' Hin. apply H. right. exact Hin.
  - intros Hne. apply Hne. apply H. left.
Qed.

(** When byte [i] is the only one that differs from the previous
    snapshot, the loop of [handleStateChange] comes down to one call of
    [processStateChanges], for byte [i]. *)
Lemma process_entries_single entries prevMap ps contentName w i newValue :
  NoDup (fst <$> entries) ->
  (i, newValue) ∈ entries ->
  StateManager.Map_get i prevMap <> Some newValue ->
  (forall k v, (k, v) ∈ entries -> k <> i ->
               StateManager.Map_get k prevMap = Some v) ->
  StateManager.process_entries env entries prevMap ps contentName w
  = StateManager.processStateChanges env newValue
      (default 0 (StateManager.Map_get i prevMap)) i ps contentName w.
Proof.
  revert w. induction entries as [|[k v] entries IH];
    intros w Hnd Hin Hdiff Hsame.
  - inversion Hin.
  - simpl in Hnd. apply NoDup_cons in Hnd as [Hk Hnd]. simpl.
    destruct (Z.eq_dec k i) as [-> | Hne].
    + (* the entry of byte [i] *)
      assert (v = newValue) as ->.
      { apply elem_of_cons in Hin as [Heq | Hin]; [congruence |].
        exfalso. apply Hk. apply list_elem_of_fmap. exists (i, newValue). auto. }
      rewrite bool_decide_eq_true_2 by exact Hdiff.
      apply process_entries_unchanged.
      intros k' v' Hin'. apply Hsame; [right; exact Hin' |].
      intros ->. apply Hk. apply list_elem_of_fmap. exists (i, v'). auto.
    + rewrite bool_decide_eq_false_2.
      * apply IH; try assumption.
        -- apply elem_of_cons in Hin as [Heq | Hin]; [congruence | exact Hin].
        -- intros k' v' Hin'. apply Hsame. right. exact Hin'.
      * intros Hx. apply Hx. apply Hsame; [left | exact Hne].
Qed.

End ChangeDetection.

Section ChangedBits.

Variable env : Env.

(** One invocation of [publishState] makes at most one publish call,
    to the topic of its position, which then has a name. *)
Lemma publishState_calls position bitValue byteIndex bitIndex contentName w :
  exists calls,
    published
      (StateManager.publishState env position bitValue byteIndex bitIndex
         contentName w)
    = (published w ++ calls)%list
    /\ Forall (fun c => pub_topic c = topic position
                        /\ StateManager.has_name position = true) calls.
Proof.
  destruct (decide (lastPublishedStates w !! topic position
                    = Some (StateManager.mapBinaryValue bitValue
                              (inverted position)))) as [Hlast | Hlast].
  - rewrite publishState_suppressed by exact Hlast.
    exists []. rewrite app_nil_r. split; [reflexivity | constructor].
  - destruct (StateManager.has_name position) eqn:Hname.
    + destruct (publishState_named env position bitValue byteIndex bitIndex
                  contentName w Hname Hlast) as (Hpub & _).
      eexists. split; [exact Hpub |]. repeat constructor.
    + exists []. rewrite app_nil_r. split; [| constructor].
      unfold StateManager.publishState. rewrite Hname.
      rewrite bool_decide_eq_false_2 by exact Hlast.
      destruct (Discover (config env)); reflexivity.
Qed.

(** The loop of [processStateChanges] passes over the positions whose
    bit reads the same in both bytes. *)
Lemma publish_changed_bits_filter ps newBinary oldBinary byteIndex contentName w :
  StateManager.publish_changed_bits env ps newBinary oldBinary byteIndex
    contentName w
  = StateManager.publish_changed_bits env
      (List.filter (Spec.bit_changed newBinary oldBinary) ps)
      newBinary oldBinary byteIndex contentName w.
Proof.
  revert w. induction ps as [|p ps IH]; intros w; [reflexivity |].
  simpl. unfold Spec.bit_changed at 1, Spec.bit_address.
  destruct (JS.parseInt16 (hex p)) as [a|] eqn:Ha; [| apply IH].
  case_bool_decide as Hbit.
  - simpl. rewrite Ha, bool_decide_eq_true_2 by exact Hbit. apply IH.
  - apply IH.
Qed.

(** Every publish call of the loop is for a named position of the
    list whose bit differs. *)
Lemma publish_changed_bits_calls ps newBinary oldBinary byteIndex contentName w :
  exists calls,
    published
      (StateManager.publish_changed_bits env ps newBinary oldBinary byteIndex
         contentName w)
    = (published w ++ calls)%list
    /\ Forall (fun c => exists p,
                   In p ps
                   /\ Spec.bit_changed newBinary oldBinary p = true
                   /\ StateManager.has_name p = true
                   /\ pub_topic c = topic p) calls.
Proof.
  revert w. induction ps as [|p ps IH]; intros w.
  - exists []. rewrite app_nil_r. split; [reflexivity | constructor].
  - simpl.
    set (w1 := match JS.parseInt16 (hex p) with
               | Some posIndex => _
               | None => w
               end).
    assert (H1 : exists calls,
               published w1 = (published w ++ calls)%list
               /\ Forall (fun c => Spec.bit_changed newBinary oldBinary p = true
                                   /\ StateManager.has_name p = true
                                   /\ pub_topic c = topic p) calls).
    { subst w1. unfold Spec.bit_changed, Spec.bit_address.
      destruct (JS.parseInt16 (hex p)) as [a|].
      - case_bool_decide.
        + destruct (publishState_calls p
                      (StateManager.index newBinary (Z.rem a 8)) byteIndex
                      (Z.rem a 8) contentName w) as (calls & Hpub & Hall).
          exists calls. split; [exact Hpub |].
          eapply Forall_impl; [exact Hall |]. intros c [? ?]. auto.
        + exists []. rewrite app_nil_r. split; [reflexivity | constructor].
      - exists []. rewrite app_nil_r. split; [reflexivity | constructor]. }
    destruct H1 as (calls1 & Hpub1 & Hall1).
    destruct (IH w1) as (calls2 & Hpub2 & Hall2).
    exists (calls1 ++ calls2)%list. split.
    + rewrite Hpub2, Hpub1, app_assoc. reflexivity.
    + apply Forall_app. split.
      * eapply Forall_impl; [exact Hall1 |].
        intros c (? & ? & ?). exists p. simpl. auto.
      * eapply Forall_impl; [exact Hall2 |].
        intros c (q & ? & ? & ? & ?). exists q. simpl. auto.
Qed.

(** A loop over positions whose bit differs invokes [publishState] for
    each of them. *)
Lemma publish_changed_bits_hand_over ps newBinary oldBinary byteIndex
    contentName w :
  Forall (fun p => Spec.bit_changed newBinary oldBinary p = true) ps ->
  StateManager.publish_changed_bits env ps newBinary oldBinary byteIndex
    contentName w
  = Spec.hand_over env ps newBinary byteIndex contentName w.
Proof.
  revert w. induction ps as [|p ps IH]; intros w Hall; [reflexivity |].
  apply Forall_cons in Hall as [Hp Hall].
  simpl. rewrite IH by exact Hall. f_equal.
  unfold Spec.bit_changed, Spec.bit_index, Spec.bit_address in *.
  destruct (JS.parseInt16 (hex p)) as [a|]; [| discriminate].
  rewrite Hp. reflexivity.
Qed.

(** One invocation of [publishState]: the publish call it makes, and
    the topics whose last published state it leaves alone. *)
Lemma publishState_emitted p newBinary byteIndex contentName w :
  let w' := StateManager.publishState env p
              (StateManager.index newBinary (Spec.bit_index p)) byteIndex
              (Spec.bit_index p) contentName w in
  (exists calls,
     published w' = (published w ++ calls)%list
     /\ pub_topic <$> calls
        = if Spec.emitted newBinary w p then [topic p] else [])
  /\ forall t, t <> topic p ->
               lastPublishedStates w' !! t = lastPublishedStates w !! t.
Proof.
  cbv zeta. unfold Spec.emitted, Spec.new_state.
  set (bit := StateManager.index newBinary (Spec.bit_index p)).
  case_bool_decide as Hlast.
  - rewrite publishState_suppressed by exact Hlast.
    rewrite andb_false_r. split; [| reflexivity].
    exists []. rewrite app_nil_r. split; reflexivity.
  - destruct (StateManager.has_name p) eqn:Hname; simpl andb.
    + destruct (publishState_named env p bit byteIndex (Spec.bit_index p)
                  contentName w Hname Hlast) as (Hpub & Hstates & _).
      split.
      * eexists. split; [exact Hpub | reflexivity].
      * intros t Ht. rewrite Hstates.
        destruct (publish_outcome env _); [| reflexivity].
        apply lookup_insert_ne. congruence.
    + assert (E : StateManager.publishState env p bit byteIndex
                    (Spec.bit_index p) contentName w
                  = if Discover (config env)
                    then logger LDiscover
                           (DiscoveryDetail contentName byteIndex
                              (Spec.bit_index p) (hex p)
                              (StateManager.getPreviousBit contentName byteIndex
                                 (Spec.bit_index p)
                                 (logger LDiscover DiscoveryDetection w)) bit)
                           (logger LDiscover DiscoveryDetection w)
                    else w).
      { unfold StateManager.publishState. rewrite Hname.
        rewrite bool_decide_eq_false_2 by exact Hlast.
        destruct (Discover (config env)); reflexivity. }
      rewrite E. split.
      * exists []. rewrite app_nil_r.
        destruct (Discover (config env)); split; reflexivity.
      * intros t _. destruct (Discover (config env)); reflexivity.
Qed.

(** Positions with topics of their own: the publish calls are those of
    the positions that have a name and a state the topic does not hold,
    in the order of the list. *)
Lemma hand_over_topics ps newBinary byteIndex contentName w :
  NoDup (topic <$> ps) ->
  exists calls,
    published (Spec.hand_over env ps newBinary byteIndex contentName w)
    = (published w ++ calls)%list
    /\ pub_topic <$> calls
       = topic <$> List.filter (Spec.emitted newBinary w) ps.
Proof.
  revert w. induction ps as [|p ps IH]; intros w Hnd.
  - exists []. rewrite app_nil_r. split; reflexivity.
  - simpl in Hnd. apply NoDup_cons in Hnd as [Hp Hnd].
    destruct (publishState_emitted p newBinary byteIndex contentName w)
      as ((calls1 & Hpub1 & Htopics1) & Hother).
    unfold Spec.hand_over. simpl fold_left.
    set (w1 := StateManager.publishState env p _ byteIndex _ contentName w) in *.
    destruct (IH w1 Hnd) as (calls2 & Hpub2 & Htopics2).
    exists (calls1 ++ calls2)%list. split.
    + unfold Spec.hand_over in Hpub2. rewrite Hpub2, Hpub1, app_assoc.
      reflexivity.
    + rewrite fmap_app, Htopics1, Htopics2.
      assert (Hrest : List.filter (Spec.emitted newBinary w1) ps
                      = List.filter (Spec.emitted newBinary w) ps).
      { apply filter_ext_in. intros q Hq. unfold Spec.emitted.
        rewrite Hother; [reflexivity |].
        intros E. apply Hp. rewrite <- E.
        apply list_elem_of_fmap. exists q. split; [reflexivity |].
        apply list_elem_of_In. exact Hq. }
      rewrite Hrest. simpl List.filter.
      destruct (Spec.emitted newBinary w p); reflexivity.
Qed.

(** C4, as amended: a byte map for a content area seen before, that
    differs from the previous snapshot at byte index 2 only.  The
    positions that are re-evaluated are exactly those whose bit address
    lies in [16, 24): the loop of [processStateChanges] runs over them,
    in catalog order, and the snapshot is replaced.  Of these, the ones
    whose bit differs, and only they, are handed to [publishState], each
    with its new bit, in catalog order.  Every publish call made is for a
    named position with a bit address in [16, 24) whose bit differs, so a
    position in an unchanged byte is not emitted again; and when these
    positions have topics of their own, the publish calls are, in catalog
    order, those of the ones that have a name and whose topic does not
    hold the new state already. *)
Theorem handleStateChange_byte_2 byteMap contentName contentConfig prevMap
    newValue w :
  statesPrevious w !! contentName = Some prevMap ->
  NoDup (fst <$> byteMap) ->
  StateManager.Map_get 2 byteMap = Some newValue ->
  StateManager.Map_get 2 prevMap <> Some newValue ->
  (forall i, i <> 2 ->
             StateManager.Map_get i byteMap = StateManager.Map_get i prevMap) ->
  let newBinary := StateManager.reverseBinary newValue in
  let oldBinary :=
    StateManager.reverseBinary (default 0 (StateManager.Map_get 2 prevMap)) in
  let evaluated :=
    List.filter (Spec.in_range 16 24) (positions contentConfig) in
  let handed := List.filter (Spec.bit_changed newBinary oldBinary) evaluated in
  let w1 := StateManager.publish_changed_bits env evaluated newBinary
              oldBinary 2 contentName w in
  let w' := StateManager.handleStateChange env byteMap contentName
              contentConfig w in
  w' = set_statesPrevious (<[contentName := byteMap]> (statesPrevious w1)) w1
  /\ w1 = StateManager.publish_changed_bits env handed newBinary oldBinary 2
            contentName w
  /\ w1 = Spec.hand_over env handed newBinary 2 contentName w
  /\ exists calls,
       published w' = (published w ++ calls)%list
       /\ Forall (fun c => exists p,
                      In p (positions contentConfig)
                      /\ Spec.in_range 16 24 p = true
                      /\ Spec.bit_changed newBinary oldBinary p = true
                      /\ StateManager.has_name p = true
                      /\ pub_topic c = topic p) calls
       /\ (NoDup (topic <$> handed) ->
           pub_topic <$> calls
           = topic <$> List.filter (Spec.emitted newBinary w) handed).
Proof.
  intros Hprev Hnd Hnew Hdiff Hsame newBinary oldBinary evaluated handed w1 w'.
  assert (Hin : (2, newValue) ∈ byteMap).
  { clear - Hnew. induction byteMap as [|[k v] m IH]; [discriminate |].
    simpl in Hnew. destruct (Z.eqb_spec k 2) as [-> | _].
    - injection Hnew as ->. left.
    - right. apply IH. exact Hnew. }
  assert (Hw' : w' = set_statesPrevious
                       (<[contentName := byteMap]> (statesPrevious w1)) w1).
  { subst w'. unfold StateManager.handleStateChange. rewrite Hprev.
    rewrite Map_new_NoDup by exact Hnd.
    rewrite (process_entries_single env byteMap prevMap
               (positions contentConfig) contentName w 2 newValue
               Hnd Hin Hdiff).
    - reflexivity.
    - intros k v Hkv Hk. rewrite <- (Hsame k Hk).
      apply Map_get_elem_of; assumption. }
  assert (Hfilter : w1 = StateManager.publish_changed_bits env handed
                           newBinary oldBinary 2 contentName w)
    by apply publish_changed_bits_filter.
  assert (Hhand : w1 = Spec.hand_over env handed newBinary 2 contentName w).
  { rewrite Hfilter. apply publish_changed_bits_hand_over.
    apply List.Forall_forall. intros p Hp.
    apply filter_In in Hp as [_ Hp]. exact Hp. }
  split; [exact Hw' |]. split; [exact Hfilter |]. split; [exact Hhand |].
  destruct (publish_changed_bits_calls evaluated newBinary oldBinary 2
              contentName w) as (calls & Hpub & Hall).
  exists calls. split_and!.
  - rewrite Hw'. exact Hpub.
  - eapply Forall_impl; [exact Hall |].
    intros c (p & Hp & Hbit & Hname & Htopic).
    apply filter_In in Hp as [Hp Hrange]. exists p. auto.
  - intros Htopics.
    destruct (hand_over_topics handed newBinary 2 contentName w Htopics)
      as (calls' & Hpub' & Htopics').
    rewrite <- Hhand in Hpub'. fold w1 in Hpub. rewrite Hpub in Hpub'.
    apply app_inv_head in Hpub'. subst calls'. exact Htopics'.
Qed.

End ChangedBits.

Lemma handleStateChange_byte_2_witness :
  let w' := StateManager.handleStateChange Example.env Example.bytes_bit_clear
              "MELDEBEREICHE" (MELDEBEREICHE Example.config) Example.seen in
  let w1 := StateManager.publishState Example.env Example.door
              (Some "0"%char) 2 0 "MELDEBEREICHE" Example.seen in
  w' = set_statesPrevious
         (<["MELDEBEREICHE" := Example.bytes_bit_clear]> (statesPrevious w1)) w1
  /\ exists calls,
       published w' = (published Example.seen ++ calls)%list
       /\ pub_topic <$> calls = [topic Example.door].
Proof.
  destruct (handleStateChange_byte_2 Example.env Example.bytes_bit_clear
              "MELDEBEREICHE" (MELDEBEREICHE Example.config)
              Example.bytes_bit_set 0 Example.seen)
    as (Hw' & _ & Hhand & calls & Hpub & _ & Htopics).
  - vm_compute. reflexivity.
  - apply (bool_decide_unpack _). vm_compute. exact I.
  - reflexivity.
  - vm_compute. discriminate.
  - intros i Hi. unfold Example.bytes_bit_clear, Example.bytes_bit_set.
    cbn [StateManager.Map_get].
    destruct (0 =? i); [reflexivity |]. destruct (1 =? i); [reflexivity |].
    destruct (Z.eqb_spec 2 i); [lia | reflexivity].
  - cbv zeta. split.
    + rewrite Hw', Hhand. reflexivity.
    + exists calls. split; [exact Hpub |].
      rewrite Htopics; [vm_compute; reflexivity |].
      apply (bool_decide_unpack _). vm_compute. exact I.
Defined.

(** C4, as stated, fails: the two snapshots differ at byte index 2 only
    (1 against 0: bit 16, the door); the window has bit address 17, in
    [16, 24), a name and a topic of its own, and yet nothing is published
    for it: only the door is reported. *)
Lemma handleStateChange_unchanged_bit_not_reported :
  let w' := StateManager.handleStateChange Example.env Example.bytes_bit_clear
              "MELDEBEREICHE" (MELDEBEREICHE Example.config) Example.seen in
  statesPrevious Example.seen !! "MELDEBEREICHE" = Some Example.bytes_bit_set
  /\ In Example.window (positions (MELDEBEREICHE Example.config))
  /\ Spec.bit_address Example.window = Some 17
  /\ Spec.in_range 16 24 Example.window = true
  /\ StateManager.has_name Example.window = true
  /\ Spec.published_to (topic Example.window) w'
     = Spec.published_to (topic Example.window) Example.seen
  /\ List.length (Spec.published_to (topic Example.door) w')
     = S (List.length (Spec.published_to (topic Example.door) Example.seen)).
Proof.
  cbv zeta. split_and!; try (vm_compute; reflexivity).
  right. left. reflexivity.
Qed.

(** ** A call that is not awaited ([Telenot.decodeHex])

    The parts of the methods, from [await] to [await], make up the
    awaited methods. *)

Section NotAwaited.

Variable env : Env.

(** [publishState] is its part up to the publish call, followed by its
    part after. *)
Lemma publishState_start_end position bitValue byteIndex bitIndex
    contentName w :
  StateManager.publishState env position bitValue byteIndex bitIndex
    contentName w
  = let '(w1, publishing) :=
      StateManager.publishState_start env position bitValue byteIndex bitIndex
        contentName w in
    StateManager.publishState_end env publishing w1.
Proof.
  unfold StateManager.publishState, StateManager.publishState_start,
    StateManager.publishState_end, StateManager.publishState_settled.
  case_bool_decide; [reflexivity |].
  destruct (StateManager.has_name position);
    destruct (Discover (config env)); reflexivity.
Qed.


Lemma publish_changed_bits_start_end ps newBinary oldBinary byteIndex
    contentName w :
  StateManager.publish_changed_bits env ps newBinary oldBinary byteIndex
    contentName w
  = match StateManager.publish_changed_bits_start env ps newBinary oldBinary
            byteIndex contentName w with
    | (w1, Some (publishing, rest)) =>
        StateManager.publish_changed_bits env rest newBinary oldBinary byteIndex
          contentName (StateManager.publishState_end env publishing w1)
    | (w1, None) => w1
    end.
Proof.
  revert w. induction ps as [|p ps IH]; intros w; [reflexivity |].
  simpl. destruct (JS.parseInt16 (hex p)) as [a|]; [| apply IH].
  case_bool_decide as Hbit; [| apply IH].
  rewrite publishState_start_end.
  destruct (StateManager.publishState_start env _ _ _ _ _ _). reflexivity.
Qed.

Lemma publishPositionStates_start_end byteMap ps contentName w :
  StateManager.publishPositionStates env byteMap ps contentName w
  = match StateManager.publishPositionStates_start env byteMap ps contentName
            w with
    | (w1, Some call) => StateManager.complete env call w1
    | (w1, None) => w1
    end.
Proof.
  revert w. induction ps as [|p ps IH]; intros w; [reflexivity |].
  simpl. destruct (JS.parseInt16 (hex p)) as [a|]; [| apply IH].
  destruct (StateManager.Map_get _ _); [| apply IH].
  destruct (StateManager.index _ _) as [c|]; [| apply IH].
  rewrite publishState_start_end.
  destruct (StateManager.publishState_start env _ _ _ _ _ _). reflexivity.
Qed.

Lemma processStateChanges_start_end rel newBinary oldBinary byteIndex entries
    prevMap byteMap ps contentName w :
  (let w1 := StateManager.publish_changed_bits env rel newBinary oldBinary
               byteIndex contentName w in
   let w2 := StateManager.process_entries env entries prevMap ps contentName
               w1 in
   set_statesPrevious
     (<[contentName := StateManager.Map_new byteMap]> (statesPrevious w2)) w2)
  = match StateManager.processStateChanges_start env rel newBinary oldBinary
            byteIndex entries prevMap byteMap ps contentName w with
    | (w1, Some call) => StateManager.complete env call w1
    | (w1, None) => w1
    end.
Proof.
  unfold StateManager.processStateChanges_start. cbv zeta.
  rewrite publish_changed_bits_start_end.
  destruct (StateManager.publish_changed_bits_start env _ _ _ _ _ _)
    as [w1 [[publishing rest]|]]; reflexivity.
Qed.

Lemma process_entries_start_end entries prevMap byteMap ps contentName w :
  (let w1 := StateManager.process_entries env entries prevMap ps contentName
               w in
   set_statesPrevious
     (<[contentName := StateManager.Map_new byteMap]> (statesPrevious w1)) w1)
  = match StateManager.process_entries_start env entries prevMap byteMap ps
            contentName w with
    | (w1, Some call) => StateManager.complete env call w1
    | (w1, None) => w1
    end.
Proof.
  revert w. induction entries as [|[i v] entries IH]; intros w;
    [reflexivity |].
  simpl. case_bool_decide as Hdiff; [| apply IH].
  apply processStateChanges_start_end.
Qed.

(** The awaited [handleStateChange] is its part up to the first
    [await], followed by what is left of the call. *)
Lemma handleStateChange_start_end byteMap contentName contentConfig w :
  StateManager.handleStateChange env byteMap contentName contentConfig w
  = match StateManager.handleStateChange_start env byteMap contentName
            contentConfig w with
    | (w1, Some call) => StateManager.complete env call w1
    | (w1, None) => w1
    end.
Proof.
  unfold StateManager.handleStateChange, StateManager.handleStateChange_start.
  destruct (statesPrevious w !! contentName) as [prevMap|].
  - apply process_entries_start_end.
  - apply publishPositionStates_start_end.
Qed.

(** What is left of a suspended call is its part up to the next
    [await], followed by what is left then. *)
Lemma resume_complete call w :
  StateManager.complete env call w
  = match StateManager.resume env call w with
    | (w1, Some call') => StateManager.complete env call' w1
    | (w1, None) => w1
    end.
Proof.
  destruct call as [[publishing|] byteMap rest contentName
                   |[publishing|] rest nb ob i entries prevMap byteMap ps
                      contentName
                   |entries prevMap byteMap ps contentName];
    cbn [StateManager.resume StateManager.complete
         StateManager.publishState_end]; try reflexivity.
  - apply publishPositionStates_start_end.
  - apply processStateChanges_start_end.
  - apply process_entries_start_end.
Qed.



Lemma processStateChanges_start_fst rel newBinary oldBinary byteIndex entries
    prevMap byteMap ps contentName w :
  fst (StateManager.processStateChanges_start env rel newBinary oldBinary
         byteIndex entries prevMap byteMap ps contentName w)
  = fst (StateManager.publish_changed_bits_start env rel newBinary oldBinary
           byteIndex contentName w).
Proof.
  unfold StateManager.processStateChanges_start.
  destruct (StateManager.publish_changed_bits_start env _ _ _ _ _ _)
    as [w1 [[publishing rest]|]]; reflexivity.
Qed.

(** What [decodeHex] leaves of a frame of a configured area when it
    returns: the world in which the call of [handleStateChange] is
    suspended, but for the list of the suspended calls. *)
Lemma decodeHex_start {T} (P : World -> T) hex contentName contentConfig w :
  (forall x v, P (set_suspended x v) = P v) ->
  Telenot_area (config env) contentName = Some contentConfig ->
  P (Telenot.decodeHex env hex contentName w)
  = P (fst (StateManager.handleStateChange_start env
              (StateManager.Map_new (Spec.decoded contentConfig hex))
              contentName contentConfig w)).
Proof.
  intros HP Ha. unfold Telenot.decodeHex, Spec.decoded. rewrite Ha.
  destruct (StateManager.handleStateChange_start env _ _ _ _) as [w1 [call|]];
    [apply HP | reflexivity].
Qed.

End NotAwaited.

(** ** Bits of a byte ([StateManager.reverseBinary]) *)

Lemma elem_of_range (n : nat) (z : Z) : 0 <= z < Z.of_nat n -> In z (Spec.range n).
Proof.
  intros H. unfold Spec.range. apply in_map_iff. exists (Z.to_nat z).
  split; [lia |]. apply in_seq. lia.
Qed.


Lemma flip_check_all :
  forallb (fun old =>
             forallb (fun k => forallb (Spec.flip_check old k) (Spec.range 8))
               (Spec.range 8))
    (Spec.range 256) = true.
Proof. vm_compute. reflexivity. Qed.

(** Index [j] of [reverseBinary(b)] shows bit [j] of the byte [b], the
    least significant bit first; flipping bit [k] changes index [k] and no
    other. *)
Lemma reverseBinary_flip old k j :
  0 <= old < 256 -> 0 <= k < 8 -> 0 <= j < 8 ->
  StateManager.index (StateManager.reverseBinary old) j
  = Some (Spec.bit_char (Z.testbit old j))
  /\ StateManager.index (StateManager.reverseBinary (Z.lxor old (2 ^ k))) j
     = Some (Spec.bit_char (xorb (Z.testbit old j) (j =? k))).
Proof.
  intros Ho Hk Hj.
  pose proof flip_check_all as H.
  rewrite forallb_forall in H. specialize (H old (elem_of_range 256 old Ho)).
  rewrite forallb_forall in H. specialize (H k (elem_of_range 8 k Hk)).
  rewrite forallb_forall in H. specialize (H j (elem_of_range 8 j Hj)).
  unfold Spec.flip_check in H. apply andb_true_iff in H as [H1 H2].
  apply bool_decide_eq_true_1 in H1, H2. auto.
Qed.

(** ** Serialised payloads *)












(** ** Time stamps *)




(** ** One flipped bit in an [SB] frame *)


Section OneBit.

Variable env : Env.




End OneBit.



(** * Further properties *)

(** ** Hexadecimal digits ([toString(16)], [toString('hex')],
    [parseInt(_, 16)]) *)

(** [chars] and [str] are inverse to each other. *)
Lemma chars_str (l : list ascii) : JS.chars (JS.str l) = l.
Proof. apply list_ascii_of_string_of_list_ascii. Qed.

(** The digits of a hexadecimal numeral, as characters. *)
Lemma chars_revapp (d d' : Hexadecimal.uint) :
  JS.chars (HexadecimalString.NilEmpty.string_of_uint (Hexadecimal.revapp d d'))
  = (rev (JS.chars (HexadecimalString.NilEmpty.string_of_uint d))
     ++ JS.chars (HexadecimalString.NilEmpty.string_of_uint d'))%list.
Proof.
  revert d'. induction d; intros d'; cbn [Hexadecimal.revapp];
    [reflexivity | rewrite IHd; cbn; rewrite <- app_assoc; reflexivity ..].
Qed.

Lemma chars_hd_tl (d : Hexadecimal.uint) :
  d <> Hexadecimal.Nil ->
  JS.chars (HexadecimalString.NilEmpty.string_of_uint d)
  = JSON.hex_char (Z.of_N (HexadecimalPos.Unsigned.hd d))
    :: JS.chars (HexadecimalString.NilEmpty.string_of_uint
                   (HexadecimalPos.Unsigned.tl d)).
Proof. destruct d; [congruence | reflexivity ..]. Qed.

Lemma hd_lt_16 (d : Hexadecimal.uint) : (HexadecimalPos.Unsigned.hd d < 16)%N.
Proof. destruct d; cbn; lia. Qed.

Lemma of_lu_to_little (p : positive) :
  HexadecimalPos.Unsigned.of_lu (Pos.to_little_hex_uint p) = N.pos p.
Proof.
  rewrite <- HexadecimalPos.Unsigned.of_lu_rev.
  apply HexadecimalPos.Unsigned.of_to.
Qed.

Lemma of_lu_digits (d : Hexadecimal.uint) :
  HexadecimalPos.Unsigned.of_lu d <> 0%N ->
  d <> Hexadecimal.Nil
  /\ HexadecimalPos.Unsigned.hd d = (HexadecimalPos.Unsigned.of_lu d mod 16)%N
  /\ HexadecimalPos.Unsigned.of_lu (HexadecimalPos.Unsigned.tl d)
     = (HexadecimalPos.Unsigned.of_lu d / 16)%N.
Proof.
  intros Hne. split; [intros ->; apply Hne; reflexivity |].
  pose proof (HexadecimalPos.Unsigned.of_lu_eqn d) as E.
  pose proof (hd_lt_16 d) as Hlt.
  set (h := HexadecimalPos.Unsigned.hd d) in *.
  set (t := HexadecimalPos.Unsigned.of_lu (HexadecimalPos.Unsigned.tl d)) in *.
  rewrite E. clearbody h t. clear E Hne.
  split; zify; Z.to_euclidean_division_equations; lia.
Qed.

Lemma toString16_digit (n : Z) :
  0 <= n < 16 -> JS.toString16 n = JS.str [JSON.hex_char n].
Proof.
  intros H.
  assert (forallb (fun n => String.eqb (JS.toString16 n)
                              (JS.str [JSON.hex_char n]))
            (Spec.range 16) = true) as A by (vm_compute; reflexivity).
  rewrite forallb_forall in A. apply String.eqb_eq, A, elem_of_range. lia.
Qed.

(** The last two characters of [n.toString(16)] are the two hex digits
    of [n mod 256], once [n] has two digits. *)
Lemma toString16_last_2 (n : Z) :
  16 <= n ->
  JS.slice_last 2 (JS.toString16 n) = SocketHandler.toString_hex [n mod 256].
Proof.
  intros H. unfold JS.toString16.
  destruct (n <? 0) eqn:E; [lia |]. clear E.
  destruct (Z.to_N n) as [|p] eqn:E; [lia |].
  cbn [N.to_hex_uint]. unfold Pos.to_hex_uint, Hexadecimal.rev.
  pose proof (of_lu_to_little p) as Hp.
  set (d := Pos.to_little_hex_uint p) in *.
  destruct (of_lu_digits d) as (Hd & Hhd & Htl); [rewrite Hp; lia |].
  destruct (of_lu_digits (HexadecimalPos.Unsigned.tl d)) as (Hd' & Hhd' & _).
  { rewrite Htl, Hp. intros Hz. apply N.div_small_iff in Hz; lia. }
  rewrite Htl in Hhd'. rewrite Hp in Hhd, Hhd'.
  pose proof (chars_revapp d Hexadecimal.Nil) as C.
  rewrite (chars_hd_tl d Hd), (chars_hd_tl _ Hd'), Hhd, Hhd' in C.
  cbn [rev JS.chars HexadecimalString.NilEmpty.string_of_uint
       list_ascii_of_string] in C.
  rewrite app_nil_r, <- !app_assoc in C. cbn [app] in C.
  assert (HexadecimalString.NilZero.string_of_uint
            (Hexadecimal.revapp d Hexadecimal.Nil)
          = HexadecimalString.NilEmpty.string_of_uint
              (Hexadecimal.revapp d Hexadecimal.Nil)) as ->.
  { destruct (Hexadecimal.revapp d Hexadecimal.Nil) eqn:R; try reflexivity.
    cbn in C. destruct (rev _); discriminate C. }
  unfold JS.slice_last. rewrite <- length_chars, C. rewrite length_app.
  cbn [List.length].
  rewrite drop_app_length'; [| lia].
  unfold SocketHandler.toString_hex. cbn [flat_map app]. do 3 f_equal.
  - f_equal. zify; Z.to_euclidean_division_equations; lia.
  - f_equal. zify; Z.to_euclidean_division_equations; lia.
Qed.

Lemma str_chars (s : string) : JS.str (JS.chars s) = s.
Proof. apply string_of_list_ascii_of_string. Qed.

(** The two digits of every byte, by enumeration. *)
Lemma byte_check_all : forallb Spec.byte_check (Spec.range 256) = true.
Proof. vm_compute. reflexivity. Qed.

Lemma byte_checked (b : Z) : Spec.is_byte b -> Spec.byte_check b = true.
Proof.
  intros Hb.
  pose proof byte_check_all as H. rewrite forallb_forall in H.
  apply H, elem_of_range. unfold Spec.is_byte in Hb. lia.
Qed.

Lemma chars_toString_hex (data : list Z) :
  JS.chars (SocketHandler.toString_hex data)
  = flat_map (fun b => [JSON.hex_char (b / 16); JSON.hex_char (b mod 16)]) data.
Proof. apply chars_str. Qed.

Lemma match_1_2_toString_hex (data : list Z) :
  Forall Spec.is_byte data ->
  JS.match_1_2 (JS.chars (SocketHandler.toString_hex data))
  = map (fun b => SocketHandler.toString_hex [b]) data.
Proof.
  rewrite chars_toString_hex.
  induction 1 as [|b data Hb _ IH]; [reflexivity |].
  apply byte_checked in Hb. unfold Spec.byte_check in Hb.
  repeat (apply andb_prop in Hb; destruct Hb as [Hb ?]).
  apply negb_true_iff in Hb.
  match goal with
  | H : negb _ = true |- _ => apply negb_true_iff in H; rename H into Hlo
  end.
  cbn [flat_map app JS.match_1_2 map]. rewrite Hb, Hlo, IH. reflexivity.
Qed.

Lemma parseInt16_toString_hex (b : Z) :
  Spec.is_byte b -> JS.parseInt16 (SocketHandler.toString_hex [b]) = Some b.
Proof.
  intros Hb. apply byte_checked in Hb. unfold Spec.byte_check in Hb.
  repeat (apply andb_prop in Hb; destruct Hb as [Hb ?]).
  match goal with
  | H : bool_decide _ = true |- _ => apply bool_decide_eq_true_1 in H; exact H
  end.
Qed.

Lemma Buffer_from_bytes (data : list Z) :
  Forall Spec.is_byte data -> JS.Buffer_from (map Some data) = data.
Proof.
  induction 1 as [|b data Hb _ IH]; [reflexivity |].
  cbn [map JS.Buffer_from] in *. unfold JS.Buffer_from in IH. rewrite IH.
  rewrite Z.mod_small by exact Hb. reflexivity.
Qed.

Lemma hexToBytes_bytes (data : list Z) :
  data <> [] ->
  Forall Spec.is_byte data ->
  Telenot.hexToBytes (SocketHandler.toString_hex data) = Some (map Some data).
Proof.
  intros Hne Hb.
  unfold Telenot.hexToBytes, JS.match_pairs.
  rewrite match_1_2_toString_hex by exact Hb.
  destruct data as [|b data]; [congruence |].
  cbn [map]. f_equal.
  change (map JS.parseInt16
            (map (fun b => SocketHandler.toString_hex [b]) (b :: data))
          = map Some (b :: data)).
  rewrite map_map. apply map_ext_in. intros x Hx.
  apply parseInt16_toString_hex. rewrite List.Forall_forall in Hb.
  apply Hb, Hx.
Qed.

(** X1: the hex text of a non-empty buffer, as [data.toString('hex')]
    writes it, is read back by [hexToBytes] byte for byte, and
    [Buffer.from] of what is read is the buffer again. *)
Theorem hexToBytes_toString_hex (data : list Z) :
  data <> [] ->
  Forall Spec.is_byte data ->
  Telenot.hexToBytes (SocketHandler.toString_hex data) = Some (map Some data)
  /\ JS.Buffer_from (map Some data) = data.
Proof.
  intros Hne Hb. split; [apply hexToBytes_bytes; assumption |].
  apply Buffer_from_bytes, Hb.
Qed.

Lemma hexToBytes_toString_hex_witness :
  Telenot.hexToBytes (SocketHandler.toString_hex SocketHandler.CONF_ACK)
  = Some (map Some SocketHandler.CONF_ACK)
  /\ JS.Buffer_from (map Some SocketHandler.CONF_ACK) = SocketHandler.CONF_ACK.
Proof.
  apply (hexToBytes_toString_hex SocketHandler.CONF_ACK).
  - discriminate.
  - repeat constructor; unfold Spec.is_byte; lia.
Defined.

Lemma drop_toString_hex (n : nat) (data : list Z) :
  drop (2 * n) (JS.chars (SocketHandler.toString_hex data))
  = JS.chars (SocketHandler.toString_hex (drop n data)).
Proof.
  rewrite !chars_toString_hex. revert data.
  induction n as [|n IH]; intros data; [reflexivity |].
  destruct data as [|b data]; [reflexivity |].
  replace (2 * S n)%nat with (S (S (2 * n))) by lia.
  cbn [flat_map app drop]. apply IH.
Qed.

Lemma sum_pairs (data : list Z) (acc : Z) :
  Forall Spec.is_byte data ->
  fold_left (fun sum byte => JS.num_add sum (JS.parseInt16 byte))
    (map (fun b => SocketHandler.toString_hex [b]) data) (Some acc)
  = Some (acc + Spec.sum data).
Proof.
  intros H. revert acc.
  induction H as [|b data Hb _ IH]; intros acc;
    cbn [map fold_left Spec.sum fold_right].
  - f_equal. lia.
  - rewrite parseInt16_toString_hex by exact Hb. cbn [JS.num_add].
    rewrite IH. f_equal. unfold Spec.sum. lia.
Qed.

Lemma sum_nonneg (data : list Z) :
  Forall Spec.is_byte data -> 0 <= Spec.sum data.
Proof.
  induction 1 as [|b data Hb _ IH]; cbn; [lia |].
  unfold Spec.is_byte in Hb. unfold Spec.sum in IH. lia.
Qed.

Lemma toString_hex_empty (data : list Z) :
  SocketHandler.toString_hex data = "" -> data = [].
Proof.
  intros H. apply (f_equal JS.chars) in H. rewrite chars_toString_hex in H.
  destruct data; [reflexivity | discriminate H].
Qed.

(** X2: the checksum of a frame of more than four bytes, given as hex
    text, is the sum of the bytes after the four header bytes, written
    as the two hex digits of the sum modulo 256; when the sum is below
    16 it is one hex digit only, not two. *)
Theorem calculateChecksum_frame (data : list Z) :
  (4 < List.length data)%nat ->
  Forall Spec.is_byte data ->
  let sum := Spec.sum (drop 4 data) in
  Telenot.calculateChecksum (SocketHandler.toString_hex data)
  = Some (if sum <? 16 then JS.str [JSON.hex_char sum]
          else SocketHandler.toString_hex [sum mod 256]).
Proof.
  intros Hlen Hb sum. unfold Telenot.calculateChecksum.
  destruct (String.eqb _ "") eqn:E.
  { apply String.eqb_eq, toString_hex_empty in E. subst data. cbn in Hlen.
    lia. }
  unfold JS.match_pairs, JS.slice_from.
  rewrite (drop_toString_hex 4 data
           : drop 8 (JS.chars (SocketHandler.toString_hex data)) = _).
  assert (Forall Spec.is_byte (drop 4 data)) as Hb' by (apply Forall_drop, Hb).
  rewrite chars_str, chars_toString_hex, <- chars_toString_hex.
  rewrite match_1_2_toString_hex by exact Hb'.
  destruct (drop 4 data) as [|b rest] eqn:D.
  { apply (f_equal List.length) in D. rewrite length_drop in D. cbn in D.
    lia. }
  cbn [map].
  change (SocketHandler.toString_hex [b]
          :: map (fun b => SocketHandler.toString_hex [b]) rest)
    with (map (fun b => SocketHandler.toString_hex [b]) (b :: rest)).
  rewrite sum_pairs by exact Hb'. cbn [JS.num_toString16]. rewrite Z.add_0_l.
  f_equal. fold sum. pose proof (sum_nonneg _ Hb') as Hs. fold sum in Hs.
  destruct (sum <? 16) eqn:E16.
  - rewrite toString16_digit by lia. reflexivity.
  - apply toString16_last_2. lia.
Qed.

Lemma calculateChecksum_frame_witness :
  Telenot.calculateChecksum
    (SocketHandler.toString_hex
       [104; 9; 9; 104; 115; 1; 5; 2; 0; 5; 48; 2; 225])
  = Some "93".
Proof.
  apply (calculateChecksum_frame
           [104; 9; 9; 104; 115; 1; 5; 2; 0; 5; 48; 2; 225]).
  - cbn. lia.
  - repeat constructor; unfold Spec.is_byte; lia.
Defined.

(** X3: a message of one to eight characters has nothing after the
    header; [match] returns [null] and [calculateChecksum] throws
    instead of returning a checksum. *)
Theorem calculateChecksum_short (message : string) :
  (0 < String.length message <= 8)%nat ->
  Telenot.calculateChecksum message = None.
Proof.
  intros H. unfold Telenot.calculateChecksum.
  destruct (String.eqb message "") eqn:E.
  { apply String.eqb_eq in E. subst. cbn in H. lia. }
  unfold JS.match_pairs, JS.slice_from.
  rewrite drop_ge by (rewrite length_chars; lia). reflexivity.
Qed.

Lemma calculateChecksum_short_witness :
  Telenot.calculateChecksum "68020268" = None.
Proof. apply (calculateChecksum_short "68020268"). cbn. lia. Defined.

(** ** What a part of the bridge leaves untouched

    A projection [P] of the world that the setters a method uses leave
    alone is left alone by the method. *)

Section Untouched.

Variable env : Env.
Variable T : Type.
Variable P : World -> T.

(** [StateManager] and the publishing of [SocketHandler] write four
    fields, [handleStateChange] a fifth. *)
Hypothesis P_log : forall x w, P (set_log x w) = P w.
Hypothesis P_published : forall x w, P (set_published x w) = P w.
Hypothesis P_clock_reads : forall x w, P (set_clock_reads x w) = P w.
Hypothesis P_lastPublishedStates :
  forall x w, P (set_lastPublishedStates x w) = P w.

Ltac untouched :=
  unfold now, mqtt_publish, logger; cbn [fst snd];
  split_cases;
  repeat (rewrite P_log || rewrite P_published || rewrite P_clock_reads
          || rewrite P_lastPublishedStates);
  try reflexivity.

Lemma publishState_untouched position bitValue byteIndex bitIndex
    contentName w :
  P (StateManager.publishState env position bitValue byteIndex bitIndex
       contentName w) = P w.
Proof. unfold StateManager.publishState. untouched. Qed.

Lemma publish_changed_bits_untouched ps nb ob byteIndex contentName w :
  P (StateManager.publish_changed_bits env ps nb ob byteIndex contentName w)
  = P w.
Proof.
  revert w. induction ps as [|p ps IH]; intros w; simpl; [reflexivity |].
  rewrite IH. split_cases; try reflexivity. apply publishState_untouched.
Qed.

Lemma publishPositionStates_untouched byteMap ps contentName w :
  P (StateManager.publishPositionStates env byteMap ps contentName w) = P w.
Proof.
  revert w. induction ps as [|p ps IH]; intros w; simpl; [reflexivity |].
  rewrite IH. split_cases; try reflexivity. apply publishState_untouched.
Qed.

Lemma process_entries_untouched entries prevMap ps contentName w :
  P (StateManager.process_entries env entries prevMap ps contentName w) = P w.
Proof.
  revert w. induction entries as [|[i v] entries IH]; intros w; simpl;
    [reflexivity |].
  rewrite IH. split_cases; try reflexivity.
  apply publish_changed_bits_untouched.
Qed.

Lemma publishToMQTT_untouched t message w :
  P (SocketHandler.publishToMQTT env t message w) = P w.
Proof. unfold SocketHandler.publishToMQTT. untouched. Qed.

Lemma publish_diagnostics_untouched subtopic object w :
  P (SocketHandler.publish_diagnostics env subtopic object w) = P w.
Proof.
  unfold SocketHandler.publish_diagnostics, now.
  rewrite publishToMQTT_untouched. apply P_clock_reads.
Qed.

Hypothesis P_statesPrevious : forall x w, P (set_statesPrevious x w) = P w.

(** The same for a call that is not awaited, from [await] to [await]. *)
Lemma publishState_start_untouched position bitValue byteIndex bitIndex
    contentName w :
  P (fst (StateManager.publishState_start env position bitValue byteIndex
            bitIndex contentName w)) = P w.
Proof.
  unfold StateManager.publishState_start, now, mqtt_publish, logger.
  split_cases; cbn [fst]; untouched.
Qed.

Lemma publishState_end_untouched publishing w :
  P (StateManager.publishState_end env publishing w) = P w.
Proof.
  unfold StateManager.publishState_end, StateManager.publishState_settled.
  untouched.
Qed.

Lemma publish_changed_bits_start_untouched ps nb ob byteIndex contentName w :
  P (fst (StateManager.publish_changed_bits_start env ps nb ob byteIndex
            contentName w)) = P w.
Proof.
  revert w. induction ps as [|p ps IH]; intros w; simpl; [reflexivity |].
  destruct (JS.parseInt16 (hex p)) as [a|]; [| apply IH].
  case_bool_decide as Hbit; [| apply IH].
  pose proof (publishState_start_untouched p
                (StateManager.index nb (Z.rem a 8)) byteIndex (Z.rem a 8)
                contentName w) as H.
  destruct (StateManager.publishState_start env _ _ _ _ _ _). exact H.
Qed.

Lemma publishPositionStates_start_untouched byteMap ps contentName w :
  P (fst (StateManager.publishPositionStates_start env byteMap ps contentName
            w)) = P w.
Proof.
  revert w. induction ps as [|p ps IH]; intros w; simpl; [reflexivity |].
  destruct (JS.parseInt16 (hex p)) as [a|]; [| apply IH].
  destruct (StateManager.Map_get _ _); [| apply IH].
  destruct (StateManager.index _ _) as [c|]; [| apply IH].
  pose proof (publishState_start_untouched p (Some c) (a / 8) (Z.rem a 8)
                contentName w) as H.
  destruct (StateManager.publishState_start env _ _ _ _ _ _). exact H.
Qed.

Lemma processStateChanges_start_untouched rel nb ob byteIndex entries prevMap
    byteMap ps contentName w :
  P (fst (StateManager.processStateChanges_start env rel nb ob byteIndex
            entries prevMap byteMap ps contentName w)) = P w.
Proof.
  rewrite processStateChanges_start_fst.
  apply publish_changed_bits_start_untouched.
Qed.

(** When an entry differs, the loop of [handleStateChange] is suspended
    before the snapshot is stored. *)
Lemma process_entries_start_differs entries prevMap byteMap ps contentName w :
  Spec.same_entries entries prevMap = false ->
  P (fst (StateManager.process_entries_start env entries prevMap byteMap ps
            contentName w)) = P w.
Proof.
  revert w. induction entries as [|[i v] entries IH]; intros w Hs;
    [discriminate Hs |].
  cbn [StateManager.process_entries_start].
  case_bool_decide as Hdiff.
  - apply processStateChanges_start_untouched.
  - apply IH. unfold Spec.same_entries in Hs. cbn [forallb fst snd] in Hs.
    rewrite bool_decide_eq_true_2 in Hs by exact Hdiff. exact Hs.
Qed.

Lemma process_entries_start_untouched entries prevMap byteMap ps contentName
    w :
  P (fst (StateManager.process_entries_start env entries prevMap byteMap ps
            contentName w)) = P w.
Proof.
  revert w. induction entries as [|[i v] entries IH]; intros w; simpl;
    [apply P_statesPrevious |].
  case_bool_decide as Hdiff; [| apply IH].
  apply processStateChanges_start_untouched.
Qed.

Lemma handleStateChange_start_untouched byteMap contentName contentConfig w :
  P (fst (StateManager.handleStateChange_start env byteMap contentName
            contentConfig w)) = P w.
Proof.
  unfold StateManager.handleStateChange_start.
  destruct (statesPrevious w !! contentName).
  - apply process_entries_start_untouched.
  - rewrite publishPositionStates_start_untouched. apply P_statesPrevious.
Qed.

Lemma resume_untouched call w :
  P (fst (StateManager.resume env call w)) = P w.
Proof.
  destruct call as [[publishing|] byteMap rest contentName
                   |[publishing|] rest nb ob i entries prevMap byteMap ps
                      contentName
                   |entries prevMap byteMap ps contentName];
    cbn [StateManager.resume fst].
  - apply (publishState_end_untouched (Some publishing)).
  - apply publishPositionStates_start_untouched.
  - apply (publishState_end_untouched (Some publishing)).
  - apply processStateChanges_start_untouched.
  - apply process_entries_start_untouched.
Qed.

Lemma complete_untouched call w :
  P (StateManager.complete env call w) = P w.
Proof.
  destruct call; cbn [StateManager.complete];
    rewrite ?P_statesPrevious, ?process_entries_untouched,
      ?publish_changed_bits_untouched, ?publishPositionStates_untouched,
      ?publishState_end_untouched;
    reflexivity.
Qed.

Hypothesis P_suspended : forall x w, P (set_suspended x w) = P w.

Lemma decodeHex_untouched hex contentName w :
  P (Telenot.decodeHex env hex contentName w) = P w.
Proof.
  destruct (Telenot_area (config env) contentName) as [cc|] eqn:Ha.
  - rewrite (decodeHex_start env P hex contentName cc w P_suspended Ha).
    apply handleStateChange_start_untouched.
  - unfold Telenot.decodeHex. rewrite Ha. apply P_log.
Qed.

(** A suspended call that runs on. *)
Lemma step_Resumed_untouched k w :
  P (Bridge.step env (Bridge.Resumed k) w) = P w.
Proof.
  cbn [Bridge.step]. destruct (suspended w !! k) as [call|]; [| reflexivity].
  pose proof (resume_untouched call w) as H.
  destruct (StateManager.resume env call w) as [w1 [call'|]];
    rewrite P_suspended; exact H.
Qed.

Hypothesis P_readyToSendData : forall x w, P (set_readyToSendData x w) = P w.
Hypothesis P_virtualNightMode : forall x w, P (set_virtualNightMode x w) = P w.

Lemma parseData_untouched hexStr hex w :
  P (snd (SocketHandler.parseData env hexStr hex w)) = P w.
Proof.
  unfold SocketHandler.parseData, VirtualStateHandler.resetVirtualModes, logger.
  cbn [snd].
  split_cases;
    repeat (rewrite publish_diagnostics_untouched
            || rewrite publishToMQTT_untouched || rewrite P_readyToSendData
            || rewrite decodeHex_untouched || rewrite P_log
            || rewrite P_virtualNightMode);
    reflexivity.
Qed.

End Untouched.

Section UntouchedByCommands.

Variable env : Env.
Variable T : Type.
Variable P : World -> T.

(** The command path writes three fields. *)
Hypothesis P_log : forall x w, P (set_log x w) = P w.
Hypothesis P_written : forall x w, P (set_written x w) = P w.
Hypothesis P_virtualNightMode : forall x w, P (set_virtualNightMode x w) = P w.

Lemma sendData_untouched data w :
  P (snd (SocketManager.sendData env data w)) = P w.
Proof.
  unfold SocketManager.sendData, logger. split_cases; cbn [snd];
    rewrite ?P_log, ?P_written; reflexivity.
Qed.

Lemma sendCommand_untouched command action w :
  P (snd (Telenot.sendCommand env command action w)) = P w.
Proof.
  unfold Telenot.sendCommand.
  destruct (String.eqb command ""); [apply (eq_trans (P_log _ _)), P_log |].
  destruct (negb _); [apply (eq_trans (P_log _ _)), P_log |].
  destruct (Telenot.hexToBytes command) as [bytes|];
    [| apply (eq_trans (P_log _ _)), P_log ].
  pose proof (sendData_untouched (JS.Buffer_from bytes)
                (logger LInfo (Sending action command)
                   (logger LDebug (AttemptingToSend command action) w))) as H.
  destruct (SocketManager.sendData _ _ _) as [[] w']; cbn [snd] in *;
    unfold logger at 1; rewrite P_log, H; unfold logger; rewrite !P_log;
    reflexivity.
Qed.

Lemma command_area_untouched baseHex commandHex action address w :
  P (snd (Telenot.command_area env baseHex commandHex action address w)) = P w.
Proof.
  unfold Telenot.command_area, Telenot.createCommandMessage.
  destruct (_ || _).
  - pose proof (sendCommand_untouched "error" action
                  (logger LError InvalidParametersForSBArea w)) as H.
    destruct (Telenot.sendCommand _ _ _ _) as [[] w']; cbn [snd] in *;
      rewrite H; apply P_log.
  - destruct (Telenot.calculateChecksum _) as [checksum|]; [| reflexivity].
    match goal with
    | |- context [Telenot.sendCommand env ?c action w] =>
        pose proof (sendCommand_untouched c action w) as H;
        destruct (Telenot.sendCommand env c action w) as [[] w']
    end; cbn [snd] in *; exact H.
Qed.

Lemma run_untouched a w : P (snd (CommandHandler.run env a w)) = P w.
Proof.
  destruct a; cbn [CommandHandler.run];
    unfold Telenot.disarmArea, Telenot.intArmArea, Telenot.extArmArea,
      Telenot.resetArmArea, VirtualStateHandler.resetVirtualModes;
    rewrite command_area_untouched; try reflexivity;
    apply P_virtualNightMode.
Qed.

Lemma handleCommand_untouched c w :
  P (snd (CommandHandler.handleCommand env c w)) = P w.
Proof.
  unfold CommandHandler.handleCommand, VirtualStateHandler.mapToInternalState.
  destruct (String.eqb c "ARM_NIGHT");
    destruct (CommandHandler.commandMap _) as [a| |]; cbn [snd];
    try (unfold logger; rewrite P_log; apply P_virtualNightMode).
  all: match goal with
       | |- context [CommandHandler.run env ?a ?v] =>
           pose proof (run_untouched a v) as H;
           destruct (CommandHandler.run env a v) as [ok w']
       end; cbn [snd] in *; rewrite H; unfold logger;
       rewrite P_log; apply P_virtualNightMode.
Qed.

End UntouchedByCommands.

(** ** Receiving a frame ([SocketHandler.handleData]) *)

(** A setter of one field leaves the other fields alone. *)
Ltac setter := intros; reflexivity.



Lemma handleData_link env data w :
  Spec.link (SocketHandler.handleData env data w) = Spec.link w.
Proof.
  unfold SocketHandler.handleData.
  destruct (negb _); [reflexivity |].
  set (w0 := logger LDebug (ProcessingHexString _) w).
  set (hexStr := SocketHandler.toString_hex data).
  pose proof (parseData_untouched env _ Spec.link ltac:(setter) ltac:(setter)
                ltac:(setter) ltac:(setter) ltac:(setter) ltac:(setter)
                ltac:(setter) hexStr data w0) as Hl.
  destruct (SocketHandler.parseData env hexStr data w0) as [[r|] w1];
    cbn [snd] in Hl; [| exact Hl].
  set (w2 := logger LDebug (SendingResponse r) w1).
  pose proof (sendData_untouched env _ Spec.link ltac:(setter) ltac:(setter)
                r w2) as Hs.
  destruct (SocketManager.sendData env r w2) as [[] w3]; cbn [snd] in Hs.
  - rewrite Hs. exact Hl.
  - change (Spec.link w3 = Spec.link w). rewrite Hs. exact Hl.
Qed.

Lemma handleCommand_link env c w :
  Spec.link (snd (CommandHandler.handleCommand env c w)) = Spec.link w.
Proof. apply handleCommand_untouched; setter. Qed.

Lemma step_data_link env id data w :
  Spec.link (Bridge.step env (Bridge.SocketData id data) w) = Spec.link w.
Proof.
  cbn [Bridge.step].
  destruct (sockets w !! id) as [[]|]; [apply handleData_link | reflexivity ..].
Qed.

Lemma step_command_link env msg w :
  Spec.link (Bridge.step env (Bridge.CommandMessage msg) w) = Spec.link w.
Proof. apply handleCommand_link. Qed.

Lemma step_resumed_link env k w :
  Spec.link (Bridge.step env (Bridge.Resumed k) w) = Spec.link w.
Proof. apply step_Resumed_untouched; setter. Qed.

Lemma link_sockets v w : Spec.link v = Spec.link w -> sockets v = sockets w.
Proof. unfold Spec.link. congruence. Qed.

Lemma link_timers v w :
  Spec.link v = Spec.link w ->
  timers v = timers w /\ reconnectTimeout v = reconnectTimeout w.
Proof. unfold Spec.link. intros H. split; congruence. Qed.

Lemma handleReconnect_sockets w :
  sockets (SocketManager.handleReconnect w) = sockets w.
Proof.
  unfold SocketManager.handleReconnect, SocketManager.setTimeout,
    SocketManager.clearTimeout, logger.
  split_cases; reflexivity.
Qed.

Lemma step_sockets env e w :
  sockets (Bridge.step env e w) = sockets w
  \/ sockets (Bridge.step env e w) = (sockets w ++ [EmptyCallbacks])%list.
Proof.
  destruct e as [id|id data|id|id|id|h|msg|k]; cbn [Bridge.step].
  - left. destruct (sockets w !! id); reflexivity.
  - left. apply link_sockets, step_data_link.
  - left. unfold SocketManager.on_error.
    destruct (sockets w !! id) as [[]|]; rewrite ?handleReconnect_sockets;
      reflexivity.
  - left. unfold SocketManager.on_close.
    destruct (sockets w !! id) as [[]|]; rewrite ?handleReconnect_sockets;
      reflexivity.
  - left. unfold SocketManager.on_timeout.
    destruct (sockets w !! id); rewrite ?handleReconnect_sockets; reflexivity.
  - unfold SocketManager.reconnect_timer_fired. destruct (existsb _ _).
    + right. reflexivity.
    + left. reflexivity.
  - left. apply link_sockets, step_command_link.
  - left. apply link_sockets, step_resumed_link.
Qed.

Lemma first_listens_step env e w :
  Spec.first_listens w -> Spec.first_listens (Bridge.step env e w).
Proof.
  intros H id cb Hcb Hid.
  destruct (step_sockets env e w) as [E | E]; rewrite E in Hcb.
  - exact (H id cb Hcb Hid).
  - apply lookup_app_Some in Hcb as [Hcb | [_ Hcb]];
      [exact (H id cb Hcb Hid) |].
    apply list_lookup_singleton_Some in Hcb as [_ <-]. reflexivity.
Qed.

Lemma first_listens_run env events w :
  Spec.first_listens w -> Spec.first_listens (Bridge.run env events w).
Proof.
  revert w. induction events as [|e events IH]; intros w H; [exact H |].
  apply IH, first_listens_step, H.
Qed.

(** X6: the sockets that [handleReconnect] creates have empty listeners.
    In any run, data that arrives on a socket other than the first one
    changes nothing: the frame is neither parsed nor acknowledged, also
    when that socket is the connected one. *)
Theorem reconnected_socket_drops_data env events w id data :
  Spec.first_listens w ->
  id <> 0%nat ->
  let w' := Bridge.run env events w in
  Bridge.step env (Bridge.SocketData id data) w' = w'.
Proof.
  intros H Hid w'. cbn [Bridge.step].
  destruct (sockets w' !! id) as [cb|] eqn:E; [| reflexivity].
  rewrite (first_listens_run env events w H id cb E Hid). reflexivity.
Qed.

Lemma reconnected_socket_drops_data_witness :
  let w' := Bridge.run Example.env
              [Bridge.SocketError 0; Bridge.TimerFired 0;
               Bridge.SocketConnect 1]%nat
              Example.started in
  socket w' = Some 1%nat /\ isConnected w' = true
  /\ Bridge.step Example.env (Bridge.SocketData 1 Example.frame_bit_set) w'
     = w'.
Proof.
  split; [vm_compute; reflexivity |]. split; [vm_compute; reflexivity |].
  apply (reconnected_socket_drops_data Example.env
           [Bridge.SocketError 0; Bridge.TimerFired 0;
            Bridge.SocketConnect 1]%nat
           Example.started 1%nat Example.frame_bit_set).
  - intros [|[|n]] cb H Hn; [congruence | discriminate H | discriminate H].
  - lia.
Defined.

(** ** The reconnection timer ([SocketManager.handleReconnect]) *)

Lemma handleReconnect_one_timer w :
  Spec.one_timer w -> Spec.one_timer (SocketManager.handleReconnect w).
Proof.
  intros H. unfold SocketManager.handleReconnect.
  destruct (_ <? _); [| exact H].
  right. exists (next_timer w).
  unfold SocketManager.setTimeout, SocketManager.clearTimeout, logger.
  cbn. destruct H as [H | (h & H & Hr)].
  - destruct (reconnectTimeout w); cbn; rewrite H; split; reflexivity.
  - rewrite Hr. cbn. rewrite H. cbn. rewrite Nat.eqb_refl. cbn.
    split; reflexivity.
Qed.

Lemma one_timer_link v w :
  Spec.link v = Spec.link w -> Spec.one_timer w -> Spec.one_timer v.
Proof.
  intros E H. apply link_timers in E as [Et Er].
  unfold Spec.one_timer. rewrite Et, Er. exact H.
Qed.

Lemma one_timer_step env e w :
  Spec.one_timer w -> Spec.one_timer (Bridge.step env e w).
Proof.
  intros H.
  destruct e as [id|id data|id|id|id|h|msg|k]; cbn [Bridge.step].
  - destruct (sockets w !! id); exact H.
  - eapply one_timer_link; [apply step_data_link | exact H].
  - unfold SocketManager.on_error.
    destruct (sockets w !! id) as [[]|]; try exact H;
      apply handleReconnect_one_timer; exact H.
  - unfold SocketManager.on_close.
    destruct (sockets w !! id) as [[]|]; try exact H;
      apply handleReconnect_one_timer; exact H.
  - unfold SocketManager.on_timeout.
    destruct (sockets w !! id); try exact H;
      apply handleReconnect_one_timer; exact H.
  - unfold SocketManager.reconnect_timer_fired.
    destruct (existsb _ _) eqn:E; [| exact H].
    left. destruct H as [H | (h' & H & Hr)]; cbn; rewrite H in *.
    + reflexivity.
    + cbn in E. rewrite orb_false_r in E. apply Nat.eqb_eq in E. subst h'.
      cbn. rewrite Nat.eqb_refl. reflexivity.
  - eapply one_timer_link; [apply step_command_link | exact H].
  - eapply one_timer_link; [apply step_resumed_link | exact H].
Qed.

(** X7: [handleReconnect] clears the timer it holds before it sets a new
    one.  In any run at most one reconnection is pending, the one
    [this.reconnectTimeout] holds, however many error, close and timeout
    events arrive. *)
Theorem one_pending_timer env events w :
  Spec.one_timer w -> Spec.one_timer (Bridge.run env events w).
Proof.
  revert w. induction events as [|e events IH]; intros w H; [exact H |].
  apply IH, one_timer_step, H.
Qed.

Lemma one_pending_timer_witness :
  Spec.one_timer
    (Bridge.run Example.env
       [Bridge.SocketError 0; Bridge.SocketClose 0;
        Bridge.SocketTimeout 0]%nat
       Example.started).
Proof.
  apply (one_pending_timer Example.env
           [Bridge.SocketError 0; Bridge.SocketClose 0;
            Bridge.SocketTimeout 0]%nat
           Example.started).
  left. reflexivity.
Defined.

(** ** Commands on the wire ([CommandHandler.handleCommand]) *)

Section Commands.

Variable env : Env.

Lemma sendCommand_not_connected command action w :
  isConnected w = false ->
  fst (Telenot.sendCommand env command action w) = Telenot.Rejected
  /\ written (snd (Telenot.sendCommand env command action w)) = written w.
Proof.
  intros H.
  unfold Telenot.sendCommand, SocketManager.getConnectionStatus, logger.
  cbn [isConnected set_log]. rewrite H. cbn [negb].
  destruct (String.eqb command ""); split; reflexivity.
Qed.

Lemma sendCommand_connected command action w id bytes :
  command <> "" ->
  isConnected w = true ->
  socket w = Some id ->
  Telenot.hexToBytes command = Some bytes ->
  fst (Telenot.sendCommand env command action w) <> Telenot.Threw
  /\ written (snd (Telenot.sendCommand env command action w))
     = (written w ++ [JS.Buffer_from bytes])%list.
Proof.
  intros Hne Hc Hs Hb.
  unfold Telenot.sendCommand, SocketManager.getConnectionStatus,
    SocketManager.sendData, logger.
  cbn [isConnected socket written set_log set_written].
  apply String.eqb_neq in Hne. rewrite Hne, Hc, Hs, Hb. cbn [negb].
  destruct (write_outcome env _); split; (discriminate || reflexivity).
Qed.

(** The four messages for area 1. *)
Lemma createCommandMessage_area_1 w :
  COMMAND_SB_STATE_ON (config env) = Spec.preamble ->
  Telenot.createCommandMessage env 1 1320 "E1" w
  = (Some "680909687301050200053002E19316", w)
  /\ Telenot.createCommandMessage env 1 1321 "62" w
     = (Some "680909687301050200053102621516", w)
  /\ Telenot.createCommandMessage env 1 1322 "61" w
     = (Some "680909687301050200053202611516", w)
  /\ Telenot.createCommandMessage env 1 1323 "52" w
     = (Some "680909687301050200053302520716", w).
Proof.
  intros H. unfold Telenot.createCommandMessage. rewrite H.
  assert (Telenot.calculateChecksum
            (Spec.preamble ++ "0" ++ JS.toString16 (1320 + 1 * 8) ++ "02"
             ++ "E1")
          = Some "93") as -> by (vm_compute; reflexivity).
  assert (Telenot.calculateChecksum
            (Spec.preamble ++ "0" ++ JS.toString16 (1321 + 1 * 8) ++ "02"
             ++ "62")
          = Some "15") as -> by (vm_compute; reflexivity).
  assert (Telenot.calculateChecksum
            (Spec.preamble ++ "0" ++ JS.toString16 (1322 + 1 * 8) ++ "02"
             ++ "61")
          = Some "15") as -> by (vm_compute; reflexivity).
  assert (Telenot.calculateChecksum
            (Spec.preamble ++ "0" ++ JS.toString16 (1323 + 1 * 8) ++ "02"
             ++ "52")
          = Some "07") as -> by (vm_compute; reflexivity).
  split_and!; reflexivity.
Qed.

(** Every action builds one of them and hands it to [sendCommand]. *)
Lemma run_created a w :
  COMMAND_SB_STATE_ON (config env) = Spec.preamble ->
  exists base code action command v,
    CommandHandler.run env a w = Telenot.command_area env base code action 1 v
    /\ Telenot.createCommandMessage env 1 base code v = (Some command, v)
    /\ command <> ""
    /\ option_map JS.Buffer_from (Telenot.hexToBytes command)
       = Some (Spec.command_bytes a)
    /\ Spec.link v = Spec.link w /\ written v = written w.
Proof.
  intros H.
  destruct a; cbn [CommandHandler.run].
  - destruct (createCommandMessage_area_1
                (VirtualStateHandler.resetVirtualModes w) H) as (E & _).
    do 5 eexists. split; [reflexivity |]. split; [exact E |].
    split; [discriminate |]. split; [vm_compute; reflexivity |].
    split; reflexivity.
  - destruct (createCommandMessage_area_1 w H) as (_ & E & _).
    do 5 eexists. split; [reflexivity |]. split; [exact E |].
    split; [discriminate |]. split; [vm_compute; reflexivity |].
    split; reflexivity.
  - destruct (createCommandMessage_area_1 w H) as (_ & _ & E & _).
    do 5 eexists. split; [reflexivity |]. split; [exact E |].
    split; [discriminate |]. split; [vm_compute; reflexivity |].
    split; reflexivity.
  - destruct (createCommandMessage_area_1
                (snd (VirtualStateHandler.mapToInternalState "ARM_NIGHT" w)) H)
      as (_ & E & _).
    do 5 eexists. split; [reflexivity |]. split; [exact E |].
    split; [discriminate |]. split; [vm_compute; reflexivity |].
    split; reflexivity.
  - destruct (createCommandMessage_area_1 w H) as (_ & _ & _ & E).
    do 5 eexists. split; [reflexivity |]. split; [exact E |].
    split; [discriminate |]. split; [vm_compute; reflexivity |].
    split; reflexivity.
Qed.

Lemma run_wire a w :
  COMMAND_SB_STATE_ON (config env) = Spec.preamble ->
  fst (CommandHandler.run env a w) = true
  /\ written (snd (CommandHandler.run env a w))
     = if isConnected w && bool_decide (socket w <> None)
       then (written w ++ [Spec.command_bytes a])%list
       else written w.
Proof.
  intros H.
  destruct (run_created a w H)
    as (base & code & action & command & v & -> & E & Hne & Hb & Hl & Hw).
  assert (isConnected v = isConnected w /\ socket v = socket w) as [Hc Hs]
    by (unfold Spec.link in Hl; split; congruence).
  rewrite <- Hc, <- Hs, <- Hw. clear Hc Hs Hw Hl w.
  destruct (Telenot.hexToBytes command) as [bytes|] eqn:Hx;
    [| discriminate Hb].
  injection Hb as Hb.
  unfold Telenot.command_area. rewrite E.
  destruct (isConnected v) eqn:Hc; cbn [andb].
  - destruct (socket v) as [id|] eqn:Hs.
    + rewrite bool_decide_true by congruence.
      destruct (sendCommand_connected command action v id bytes Hne Hc Hs Hx)
        as [F W].
      destruct (Telenot.sendCommand env command action v) as [[] w2];
        cbn [fst snd] in *; rewrite ?W, ?Hb; split; congruence.
    + rewrite bool_decide_false by congruence.
      unfold Telenot.sendCommand, SocketManager.getConnectionStatus,
        SocketManager.sendData, logger.
      cbn [isConnected socket written set_log].
      apply String.eqb_neq in Hne. rewrite Hne, Hc, Hs, Hx. cbn [negb fst snd].
      split; reflexivity.
  - destruct (sendCommand_not_connected command action v Hc) as [F W].
    destruct (Telenot.sendCommand env command action v) as [s w2].
    cbn [fst snd] in *. subst s. split; [reflexivity | exact W].
Qed.

End Commands.

(** X8: with the preamble of [config-example/config.mjs], [handleCommand]
    returns [true] for each of its five commands whether or not anything
    could be sent.  On a connected socket it writes exactly one buffer,
    the 15 bytes of the command for area 1, and [ARM_NIGHT] puts the
    frame of [ARM_HOME] on the wire; without a connection it writes
    nothing.  Any other command writes nothing. *)
Theorem handleCommand_wire env c w :
  COMMAND_SB_STATE_ON (config env) = Spec.preamble ->
  fst (CommandHandler.handleCommand env c w)
  = match CommandHandler.commandMap c with
    | CommandHandler.Own _ => CommandHandler.Returned true
    | CommandHandler.Inherited => CommandHandler.CalledInherited c
    | CommandHandler.Undefined => CommandHandler.Returned false
    end
  /\ written (snd (CommandHandler.handleCommand env c w))
     = match CommandHandler.commandMap c with
       | CommandHandler.Own a =>
           if isConnected w && bool_decide (socket w <> None)
           then (written w ++ [Spec.command_bytes a])%list
           else written w
       | _ => written w
       end.
Proof.
  intros H.
  unfold CommandHandler.handleCommand, VirtualStateHandler.mapToInternalState.
  destruct (String.eqb c "ARM_NIGHT") eqn:E.
  - apply String.eqb_eq in E. subst c.
    change (CommandHandler.commandMap "ARM_HOME")
      with (CommandHandler.Own CommandHandler.ARM_HOME).
    change (CommandHandler.commandMap "ARM_NIGHT")
      with (CommandHandler.Own CommandHandler.ARM_NIGHT).
    cbv iota beta.
    match goal with
    | |- context [CommandHandler.run env ?a ?v] =>
        destruct (run_wire env a v H) as [F W];
        destruct (CommandHandler.run env a v) as [ok w']
    end.
    cbn [fst snd] in *. subst ok. split; [reflexivity | exact W].
  - destruct (CommandHandler.commandMap c) as [a| |] eqn:M; cbv iota beta;
      [| split; reflexivity ..].
    match goal with
    | |- context [CommandHandler.run env ?a ?v] =>
        destruct (run_wire env a v H) as [F W];
        destruct (CommandHandler.run env a v) as [ok w']
    end.
    cbn [fst snd] in *. subst ok. split; [reflexivity | exact W].
Qed.

Lemma handleCommand_wire_witness :
  written (snd (CommandHandler.handleCommand Example.env "ARM_NIGHT"
                  Example.connected))
  = [[104; 9; 9; 104; 115; 1; 5; 2; 0; 5; 49; 2; 98; 21; 22]].
Proof.
  apply (handleCommand_wire Example.env "ARM_NIGHT" Example.connected).
  reflexivity.
Defined.

(** ** The virtual night mode, from the command to the published state *)

Section Night.

Variable env : Env.

(** X9: of all the frames the panel sends, only [SYS_DISARMED] ends the
    virtual night mode; every other frame, sensor frames included,
    leaves the flag as it is. *)
Theorem parseData_virtualNightMode hexStr hex w :
  virtualNightMode (snd (SocketHandler.parseData env hexStr hex w))
  = match SocketHandler.getMsgType hexStr with
    | SocketHandler.Type_ SocketHandler.SYS_DISARMED => false
    | _ => virtualNightMode w
    end.
Proof.
  unfold SocketHandler.parseData. cbn [snd].
  pose proof (fun s o v => publish_diagnostics_untouched env _ virtualNightMode
                ltac:(setter) ltac:(setter) ltac:(setter) s o v) as D.
  pose proof (fun t m v => publishToMQTT_untouched env _ virtualNightMode
                ltac:(setter) ltac:(setter) t m v) as Q.
  pose proof (fun h n v => decodeHex_untouched env _ virtualNightMode
                ltac:(setter) ltac:(setter) ltac:(setter) ltac:(setter)
                ltac:(setter) h n v) as X.
  destruct (SocketHandler.getMsgType hexStr) as [[]|key];
    rewrite ?D, ?Q; cbn [virtualNightMode set_readyToSendData];
    rewrite ?X; try reflexivity;
    destruct (Discover (config env)); reflexivity.
Qed.

Lemma publishToMQTT_published t message w :
  published (SocketHandler.publishToMQTT env t message w)
  = (published w ++ [mkPublishCall t message true])%list.
Proof.
  unfold SocketHandler.publishToMQTT, mqtt_publish, logger.
  destruct (publish_outcome env _); reflexivity.
Qed.

Lemma publish_diagnostics_published subtopic object w :
  published (SocketHandler.publish_diagnostics env subtopic object w)
  = (published w
     ++ [mkPublishCall (diagnosticsTopic (config env) ++ subtopic)
           (JSON.stringify
              (object (DateISO.toISOString (clock env (clock_reads w)))))
           true])%list.
Proof.
  unfold SocketHandler.publish_diagnostics, now.
  rewrite publishToMQTT_published. reflexivity.
Qed.

(** X10: a command followed by a [SYS_INT_ARMED] frame.  The frame
    publishes to the state topic, retained, [armed_night] when the
    command was [ARM_NIGHT] and [armed_home] after any other command,
    and then one diagnostics message to [<diagnosticsTopic>/state]; the
    command itself publishes nothing. *)
Theorem armed_night_published c hexStr hex w :
  SocketHandler.getMsgType hexStr
  = SocketHandler.Type_ SocketHandler.SYS_INT_ARMED ->
  let w1 := snd (CommandHandler.handleCommand env c w) in
  let w2 := snd (SocketHandler.parseData env hexStr hex w1) in
  exists diagnostics,
    published w2
    = (published w
       ++ [mkPublishCall (stateTopic (config env))
             (if bool_decide (c = "ARM_NIGHT") then "armed_night"
              else "armed_home") true;
           mkPublishCall (diagnosticsTopic (config env) ++ "/state")
             diagnostics true])%list.
Proof.
  intros Ht w1 w2.
  assert (published w1 = published w) as Hp
    by (apply handleCommand_untouched; setter).
  assert (forall v,
             virtualNightMode v = virtualNightMode w1 ->
             VirtualStateHandler.mapToExternalState "armed_home" v
             = if bool_decide (c = "ARM_NIGHT") then "armed_night"
               else "armed_home") as Hs.
  { intros v Hv. unfold VirtualStateHandler.mapToExternalState. rewrite Hv.
    pose proof (handleCommand_night_iff env c w) as N. fold w1 in N.
    case_bool_decide as Hc.
    - apply N in Hc. rewrite Hc. reflexivity.
    - destruct (virtualNightMode w1); [exfalso; apply Hc, N; reflexivity |].
      reflexivity. }
  subst w2. unfold SocketHandler.parseData. rewrite Ht. cbn [snd].
  rewrite !Hs by reflexivity. eexists.
  rewrite publish_diagnostics_published, publishToMQTT_published.
  cbn [published set_log logger]. rewrite Hp, <- app_assoc. reflexivity.
Qed.

End Night.

Lemma armed_night_published_witness :
  exists diagnostics,
    published
      (snd (SocketHandler.parseData Example.env "682c2c68730205020005310162" []
              (snd (CommandHandler.handleCommand Example.env "ARM_NIGHT"
                      Example.connected))))
    = [mkPublishCall "telenot/alarm/state" "armed_night" true;
       mkPublishCall "telenot/alarm/diagnostics/state" diagnostics true].
Proof.
  apply (armed_night_published Example.env "ARM_NIGHT"
           "682c2c68730205020005310162" [] Example.connected).
  vm_compute. reflexivity.
Defined.

(** ** Snapshots of a content area ([Telenot.decodeHex]) *)

Section Snapshots.

Variable env : Env.

(** The snapshot stored after [handleStateChange]. *)
Lemma handleStateChange_statesPrevious byteMap contentName contentConfig w :
  statesPrevious
    (StateManager.handleStateChange env byteMap contentName contentConfig w)
  = <[contentName := StateManager.Map_new byteMap]> (statesPrevious w).
Proof.
  unfold StateManager.handleStateChange.
  destruct (statesPrevious w !! contentName) as [prevMap|].
  - cbn [statesPrevious set_statesPrevious].
    rewrite (process_entries_untouched env _ statesPrevious) by setter.
    reflexivity.
  - rewrite (publishPositionStates_untouched env _ statesPrevious) by setter.
    reflexivity.
Qed.

Lemma same_entries_true (byteMap prevMap : ByteMap) :
  Spec.same_entries byteMap prevMap = true ->
  forall k v, (k, v) ∈ byteMap -> StateManager.Map_get k prevMap = Some v.
Proof.
  unfold Spec.same_entries. rewrite forallb_forall. intros H k v Hin.
  apply list_elem_of_In in Hin. specialize (H _ Hin).
  apply bool_decide_eq_true_1 in H. exact H.
Qed.

Lemma same_entries_refl (byteMap : ByteMap) :
  NoDup (fst <$> byteMap) -> Spec.same_entries byteMap byteMap = true.
Proof.
  intros Hnd. apply forallb_forall. intros [k v] Hin.
  apply bool_decide_eq_true_2. apply Map_get_elem_of; [exact Hnd |].
  apply list_elem_of_In. exact Hin.
Qed.

(** When no entry differs, the loop of [handleStateChange] ends without
    an [await], and the snapshot is stored. *)
Lemma process_entries_start_same entries prevMap byteMap ps contentName w :
  Spec.same_entries entries prevMap = true ->
  StateManager.process_entries_start env entries prevMap byteMap ps
    contentName w
  = (set_statesPrevious
       (<[contentName := StateManager.Map_new byteMap]> (statesPrevious w)) w,
     None).
Proof.
  intros Hs. pose proof (same_entries_true _ _ Hs) as H. clear Hs.
  induction entries as [|[k v] entries IH]; [reflexivity |].
  cbn [StateManager.process_entries_start].
  rewrite bool_decide_eq_false_2.
  - apply IH. intros k' v' Hin. apply H. right. exact Hin.
  - intros Hne. apply Hne, H. left.
Qed.

(** When an entry differs, the call is suspended. *)
Lemma process_entries_start_suspends entries prevMap byteMap ps contentName w :
  Spec.same_entries entries prevMap = false ->
  exists call,
    snd (StateManager.process_entries_start env entries prevMap byteMap ps
           contentName w) = Some call.
Proof.
  induction entries as [|[k v] entries IH]; intros Hs; [discriminate Hs |].
  cbn [StateManager.process_entries_start].
  case_bool_decide as Hdiff.
  - unfold StateManager.processStateChanges_start.
    destruct (StateManager.publish_changed_bits_start env _ _ _ _ _ _)
      as [w1 [[publishing rest]|]]; eexists; reflexivity.
  - apply IH. unfold Spec.same_entries in Hs. cbn [forallb fst snd] in Hs.
    rewrite bool_decide_eq_true_2 in Hs by exact Hdiff. exact Hs.
Qed.

Lemma set_suspended_same w : set_suspended (suspended w) w = w.
Proof. destruct w; reflexivity. Qed.

(** With no other call suspended, [decodeHex] followed by the rest of
    the call it has made is the awaited [handleStateChange]. *)
Lemma decodeHex_settle hex contentName contentConfig w :
  suspended w = [] ->
  Telenot_area (config env) contentName = Some contentConfig ->
  Bridge.settle env (Telenot.decodeHex env hex contentName w)
  = StateManager.handleStateChange env
      (StateManager.Map_new (Spec.decoded contentConfig hex)) contentName
      contentConfig w.
Proof.
  intros Hs Ha. rewrite handleStateChange_start_end.
  unfold Telenot.decodeHex, Spec.decoded. rewrite Ha.
  match goal with
  | |- context [StateManager.handleStateChange_start env ?m contentName
                  contentConfig w] =>
      pose proof (handleStateChange_start_untouched env _ suspended
                    ltac:(setter) ltac:(setter) ltac:(setter) ltac:(setter)
                    m contentName contentConfig w) as Hu;
      destruct (StateManager.handleStateChange_start env m contentName
                  contentConfig w) as [w1 [call|]]
  end; cbn [fst] in Hu; rewrite Hs in Hu; unfold Bridge.settle.
  - cbn [suspended set_suspended]. rewrite Hu. cbn [app fold_left].
    f_equal. rewrite <- (set_suspended_same w1) at 2. rewrite Hu.
    reflexivity.
  - rewrite Hu. cbn [fold_left]. rewrite <- Hu. apply set_suspended_same.
Qed.

(** The snapshot of the area when [decodeHex] returns. *)
Lemma decodeHex_statesPrevious hex contentName contentConfig w :
  Telenot_area (config env) contentName = Some contentConfig ->
  statesPrevious (Telenot.decodeHex env hex contentName w)
  = if Spec.differs (Spec.decoded contentConfig hex) contentName w
    then statesPrevious w
    else <[contentName := Spec.decoded contentConfig hex]> (statesPrevious w).
Proof.
  intros Ha.
  rewrite (decodeHex_start env statesPrevious hex contentName contentConfig w)
    by (reflexivity || exact Ha).
  unfold StateManager.handleStateChange_start, Spec.differs, Spec.decoded.
  rewrite !Map_new_NoDup by (rewrite ?Map_new_NoDup; apply decoded_NoDup).
  destruct (statesPrevious w !! contentName) as [prevMap|].
  - destruct (Spec.same_entries _ prevMap) eqn:Hs; cbn [negb].
    + rewrite process_entries_start_same by exact Hs. cbn [fst statesPrevious set_statesPrevious].
      rewrite Map_new_NoDup by apply decoded_NoDup. reflexivity.
    + apply (process_entries_start_differs env _ statesPrevious); try setter.
      exact Hs.
  - rewrite (publishPositionStates_start_untouched env _ statesPrevious)
      by setter.
    reflexivity.
Qed.

(** A frame whose payload is the snapshot of its area changes nothing. *)
Lemma decodeHex_same_snapshot hex contentName contentConfig w :
  Telenot_area (config env) contentName = Some contentConfig ->
  statesPrevious w !! contentName = Some (Spec.decoded contentConfig hex) ->
  Telenot.decodeHex env hex contentName w = w.
Proof.
  intros Ha Hprev. unfold Telenot.decodeHex. rewrite Ha.
  unfold StateManager.handleStateChange_start. fold (Spec.decoded contentConfig hex).
  rewrite Hprev.
  rewrite !Map_new_NoDup by (rewrite ?Map_new_NoDup; apply decoded_NoDup).
  rewrite process_entries_start_same
    by (apply same_entries_refl, decoded_NoDup).
  rewrite Map_new_NoDup by apply decoded_NoDup.
  rewrite insert_id by exact Hprev. destruct w; reflexivity.
Qed.

(** X11: [decodeHex] does not await [handleStateChange].  When it
    returns for a frame of a configured content area, the snapshot of the
    area is the frame's payload -- the bytes after the area's offset,
    numbered from 0 -- if the frame is the first of its area or holds no
    byte that differs from the snapshot; when a byte differs, the call is
    suspended before it stores anything, and the snapshot is still that of
    the previous frame.  It is the frame's payload once the call has run
    to its end, whatever became of the publish calls.  The snapshots of
    the other areas are as before. *)
Theorem decodeHex_snapshot hex contentName contentConfig w :
  Telenot_area (config env) contentName = Some contentConfig ->
  let w' := Telenot.decodeHex env hex contentName w in
  statesPrevious w' !! contentName
  = (if Spec.differs (Spec.decoded contentConfig hex) contentName w
     then statesPrevious w !! contentName
     else Some (Spec.decoded contentConfig hex))
  /\ (suspended w = [] ->
      statesPrevious (Bridge.settle env w') !! contentName
      = Some (Spec.decoded contentConfig hex))
  /\ forall other, other <> contentName ->
       statesPrevious w' !! other = statesPrevious w !! other
       /\ (suspended w = [] ->
           statesPrevious (Bridge.settle env w') !! other
           = statesPrevious w !! other).
Proof.
  intros Ha w'. subst w'.
  rewrite (decodeHex_statesPrevious hex contentName contentConfig w Ha).
  assert (Hsettled : suspended w = [] ->
            statesPrevious
              (Bridge.settle env (Telenot.decodeHex env hex contentName w))
            = <[contentName := Spec.decoded contentConfig hex]>
                (statesPrevious w)).
  { intros Hs. rewrite (decodeHex_settle hex contentName contentConfig w Hs Ha).
    rewrite handleStateChange_statesPrevious. unfold Spec.decoded.
    rewrite !Map_new_NoDup by (rewrite ?Map_new_NoDup; apply decoded_NoDup).
    reflexivity. }
  split_and!.
  - destruct (Spec.differs _ _ w); [reflexivity | apply lookup_insert_eq].
  - intros Hs. rewrite (Hsettled Hs). apply lookup_insert_eq.
  - intros other Hne. split.
    + destruct (Spec.differs _ _ w); [reflexivity |].
      apply lookup_insert_ne. congruence.
    + intros Hs. rewrite (Hsettled Hs). apply lookup_insert_ne. congruence.
Qed.

(** X12: what [getPreviousBit(area, i, j)] reads when [decodeHex] has
    returned.  For a frame that is the first of its area, or holds no
    byte that differs from the snapshot, it is bit [j] of payload byte
    [i] of that frame, the least significant bit being bit 0.  For a
    frame with a byte that differs it is what it was before, the bit of
    the previous frame, for as long as the call of [handleStateChange] is
    suspended; it is the frame's bit once the call has run to its end. *)
Theorem getPreviousBit_after_decodeHex hex contentName contentConfig w
    (i : nat) b j :
  Telenot_area (config env) contentName = Some contentConfig ->
  drop (offset contentConfig) hex !! i = Some b ->
  Spec.is_byte b ->
  0 <= j < 8 ->
  let w' := Telenot.decodeHex env hex contentName w in
  StateManager.getPreviousBit contentName (Z.of_nat i) j w'
  = (if Spec.differs (Spec.decoded contentConfig hex) contentName w
     then StateManager.getPreviousBit contentName (Z.of_nat i) j w
     else JS.str [Spec.bit_char (Z.testbit b j)])
  /\ (suspended w = [] ->
      StateManager.getPreviousBit contentName (Z.of_nat i) j
        (Bridge.settle env w')
      = JS.str [Spec.bit_char (Z.testbit b j)]).
Proof.
  intros Ha Hi Hb Hj w'. subst w'.
  assert (Hread : forall v,
            statesPrevious v !! contentName
            = Some (Spec.decoded contentConfig hex) ->
            StateManager.getPreviousBit contentName (Z.of_nat i) j v
            = JS.str [Spec.bit_char (Z.testbit b j)]).
  { intros v Hv. unfold StateManager.getPreviousBit. rewrite Hv.
    unfold Spec.decoded. rewrite decoded_get, Hi.
    destruct (reverseBinary_flip b 0 j Hb ltac:(lia) Hj) as [-> _].
    reflexivity. }
  split.
  - destruct (Spec.differs _ _ w) eqn:Hd.
    + unfold StateManager.getPreviousBit.
      rewrite (decodeHex_statesPrevious hex contentName contentConfig w Ha), Hd.
      reflexivity.
    + apply Hread.
      rewrite (decodeHex_statesPrevious hex contentName contentConfig w Ha), Hd.
      apply lookup_insert_eq.
  - intros Hs. apply Hread.
    rewrite (decodeHex_settle hex contentName contentConfig w Hs Ha).
    rewrite handleStateChange_statesPrevious. unfold Spec.decoded.
    rewrite !Map_new_NoDup by (rewrite ?Map_new_NoDup; apply decoded_NoDup).
    apply lookup_insert_eq.
Qed.

(** X16: a frame that is received twice in a row.  Once the call of
    [handleStateChange] for the first has run to its end, the second
    changes nothing: no publish call, no log entry, also when publish
    calls of the first were rejected -- the snapshot is stored all the
    same, so what was not published is not tried again.  While that
    call is suspended, the second changes nothing either if the first
    was the first frame of its area or held no byte that differs from the
    snapshot. *)
Theorem decodeHex_repeated_frame hex contentName contentConfig w :
  Telenot_area (config env) contentName = Some contentConfig ->
  let w1 := Telenot.decodeHex env hex contentName w in
  (suspended w = [] ->
   Telenot.decodeHex env hex contentName (Bridge.settle env w1)
   = Bridge.settle env w1)
  /\ (Spec.differs (Spec.decoded contentConfig hex) contentName w = false ->
      Telenot.decodeHex env hex contentName w1 = w1).
Proof.
  intros Ha w1. subst w1. split.
  - intros Hs.
    apply (decodeHex_same_snapshot hex contentName contentConfig _ Ha).
    rewrite (decodeHex_settle hex contentName contentConfig w Hs Ha).
    rewrite handleStateChange_statesPrevious. unfold Spec.decoded.
    rewrite !Map_new_NoDup by (rewrite ?Map_new_NoDup; apply decoded_NoDup).
    apply lookup_insert_eq.
  - intros Hd.
    apply (decodeHex_same_snapshot hex contentName contentConfig _ Ha).
    rewrite (decodeHex_statesPrevious hex contentName contentConfig w Ha), Hd.
    apply lookup_insert_eq.
Qed.

End Snapshots.

Lemma decodeHex_snapshot_witness :
  let w' := Telenot.decodeHex Example.env Example.frame_bit_clear
              "MELDEBEREICHE" Example.seen in
  statesPrevious w' !! "MELDEBEREICHE" = Some Example.bytes_bit_set
  /\ statesPrevious (Bridge.settle Example.env w') !! "MELDEBEREICHE"
     = Some Example.bytes_bit_clear.
Proof.
  destruct (decodeHex_snapshot Example.env Example.frame_bit_clear
              "MELDEBEREICHE" (MELDEBEREICHE Example.config) Example.seen
              eq_refl) as (Hreturn & Hsettled & _).
  split.
  - rewrite Hreturn. vm_compute. reflexivity.
  - apply Hsettled. vm_compute. reflexivity.
Defined.

Lemma getPreviousBit_after_decodeHex_witness :
  let w' := Telenot.decodeHex Example.env Example.frame_bit_clear
              "MELDEBEREICHE" Example.seen in
  StateManager.getPreviousBit "MELDEBEREICHE" 2 0 Example.seen = "1"
  /\ StateManager.getPreviousBit "MELDEBEREICHE" 2 0 w' = "1"
  /\ StateManager.getPreviousBit "MELDEBEREICHE" 2 0
       (Bridge.settle Example.env w') = "0".
Proof.
  destruct (getPreviousBit_after_decodeHex Example.env Example.frame_bit_clear
              "MELDEBEREICHE" (MELDEBEREICHE Example.config) Example.seen
              2%nat 0 0) as (Hreturn & Hsettled).
  - reflexivity.
  - reflexivity.
  - unfold Spec.is_byte. lia.
  - lia.
  - split_and!.
    + vm_compute. reflexivity.
    + refine (eq_trans Hreturn _). vm_compute. reflexivity.
    + apply Hsettled. vm_compute. reflexivity.
Defined.

Lemma decodeHex_repeated_frame_witness :
  let w1 := Telenot.decodeHex Example.env_failing Example.frame_bit_clear
              "MELDEBEREICHE" Example.seen in
  let first := Telenot.decodeHex Example.env_failing Example.frame_bit_set
                 "MELDEBEREICHE" Example.connected in
  Telenot.decodeHex Example.env_failing Example.frame_bit_clear "MELDEBEREICHE"
    (Bridge.settle Example.env_failing w1)
  = Bridge.settle Example.env_failing w1
  /\ Telenot.decodeHex Example.env_failing Example.frame_bit_set
       "MELDEBEREICHE" first = first.
Proof.
  split.
  - apply (decodeHex_repeated_frame Example.env_failing
             Example.frame_bit_clear "MELDEBEREICHE"
             (MELDEBEREICHE Example.config) Example.seen eq_refl).
    vm_compute. reflexivity.
  - apply (decodeHex_repeated_frame Example.env_failing Example.frame_bit_set
             "MELDEBEREICHE" (MELDEBEREICHE Example.config) Example.connected
             eq_refl).
    vm_compute. reflexivity.
Defined.

(** ** A frame received again while its call is suspended *)

Section Twice.

Variable env : Env.

Lemma new_topics_same (v v' : World) :
  published v' = published v -> Spec.new_topics v v' = [].
Proof.
  unfold Spec.new_topics. intros ->. rewrite drop_all. reflexivity.
Qed.

Lemma new_topics_published (v v' v'' : World) :
  published v'' = published v' ->
  Spec.new_topics v v'' = Spec.new_topics v v'.
Proof. unfold Spec.new_topics. intros ->. reflexivity. Qed.

(** The topic [publishState] publishes to depends on the world through
    [lastPublishedStates] only. *)
Lemma publishState_start_topics p bitValue byteIndex bitIndex contentName
    v w :
  lastPublishedStates v = lastPublishedStates w ->
  Spec.new_topics v
    (fst (StateManager.publishState_start env p bitValue byteIndex bitIndex
            contentName v))
  = Spec.new_topics w
      (fst (StateManager.publishState_start env p bitValue byteIndex bitIndex
              contentName w)).
Proof.
  intros E. unfold StateManager.publishState_start. rewrite E.
  case_bool_decide as Hlast;
    [rewrite !new_topics_same by reflexivity; reflexivity |].
  destruct (StateManager.has_name p); destruct (Discover (config env));
    cbn [andb negb fst];
    rewrite ?new_topics_same by reflexivity; try reflexivity;
    unfold Spec.new_topics, now, mqtt_publish, logger;
    cbn [fst published set_published set_clock_reads set_log];
    rewrite !drop_app_length; reflexivity.
Qed.

Lemma publish_changed_bits_start_topics rel nb ob byteIndex contentName v w :
  lastPublishedStates v = lastPublishedStates w ->
  Spec.new_topics v
    (fst (StateManager.publish_changed_bits_start env rel nb ob byteIndex
            contentName v))
  = Spec.new_topics w
      (fst (StateManager.publish_changed_bits_start env rel nb ob byteIndex
              contentName w)).
Proof.
  intros E. induction rel as [|p rel IH];
    [cbn; rewrite !new_topics_same by reflexivity; reflexivity |].
  cbn [StateManager.publish_changed_bits_start].
  destruct (JS.parseInt16 (hex p)) as [a|]; [| exact IH].
  case_bool_decide as Hbit; [| exact IH].
  pose proof (publishState_start_topics p (StateManager.index nb (Z.rem a 8))
                byteIndex (Z.rem a 8) contentName v w E) as H.
  do 2 destruct (StateManager.publishState_start env _ _ _ _ _ _).
  exact H.
Qed.

Lemma process_entries_start_topics entries prevMap byteMap ps contentName
    v w :
  lastPublishedStates v = lastPublishedStates w ->
  Spec.new_topics v
    (fst (StateManager.process_entries_start env entries prevMap byteMap ps
            contentName v))
  = Spec.new_topics w
      (fst (StateManager.process_entries_start env entries prevMap byteMap ps
              contentName w)).
Proof.
  intros E. induction entries as [|[i x] entries IH];
    [cbn [StateManager.process_entries_start fst];
     rewrite !new_topics_same by reflexivity; reflexivity |].
  cbn [StateManager.process_entries_start].
  case_bool_decide as Hdiff; [| exact IH].
  rewrite !processStateChanges_start_fst.
  apply publish_changed_bits_start_topics, E.
Qed.

(** A frame with a byte that differs leaves one more call suspended. *)
Lemma decodeHex_suspends hex contentName contentConfig w :
  Telenot_area (config env) contentName = Some contentConfig ->
  Spec.differs (Spec.decoded contentConfig hex) contentName w = true ->
  exists call,
    suspended (Telenot.decodeHex env hex contentName w)
    = (suspended w ++ [call])%list.
Proof.
  intros Ha Hd. unfold Telenot.decodeHex, Spec.differs, Spec.decoded in *.
  rewrite Ha.
  match goal with
  | |- context [StateManager.handleStateChange_start env ?m contentName
                  contentConfig w] =>
      pose proof (handleStateChange_start_untouched env _ suspended
                    ltac:(setter) ltac:(setter) ltac:(setter) ltac:(setter)
                    m contentName contentConfig w) as Hu;
      assert (Hsome : exists call,
                 snd (StateManager.handleStateChange_start env m contentName
                        contentConfig w) = Some call)
  end.
  { unfold StateManager.handleStateChange_start.
    destruct (statesPrevious w !! contentName) as [prevMap|];
      [| discriminate Hd].
    apply process_entries_start_suspends.
    rewrite Map_new_NoDup by apply decoded_NoDup.
    apply negb_true_iff. exact Hd. }
  destruct Hsome as [call Hcall].
  destruct (StateManager.handleStateChange_start env _ _ _ _) as [w1 o].
  cbn [fst snd] in *. subst o. exists call.
  cbn [suspended set_suspended]. rewrite Hu. reflexivity.
Qed.

(** X23: a frame of an area seen before, with a byte that differs from
    the snapshot, that is received a second time while the call of
    [handleStateChange] for the first is still suspended.  The first
    call has stored nothing yet, so the second compares the frame with
    the same snapshot and the same published states, and publishes to the
    same topics once more; then both calls are suspended. *)
Theorem decodeHex_twice_suspended hex contentName contentConfig w :
  Telenot_area (config env) contentName = Some contentConfig ->
  Spec.differs (Spec.decoded contentConfig hex) contentName w = true ->
  let w1 := Telenot.decodeHex env hex contentName w in
  let w2 := Telenot.decodeHex env hex contentName w1 in
  Spec.sensors w1 = Spec.sensors w
  /\ Spec.sensors w2 = Spec.sensors w
  /\ Spec.new_topics w1 w2 = Spec.new_topics w w1
  /\ exists call1 call2,
       suspended w2 = (suspended w ++ [call1; call2])%list.
Proof.
  intros Ha Hd w1 w2.
  assert (Hkeeps : forall v,
            Spec.differs (Spec.decoded contentConfig hex) contentName v = true ->
            Spec.sensors (Telenot.decodeHex env hex contentName v)
            = Spec.sensors v).
  { intros v Hv. unfold Spec.sensors. f_equal.
    - rewrite (decodeHex_statesPrevious env hex contentName contentConfig v Ha),
        Hv. reflexivity.
    - apply (decodeHex_untouched env _ lastPublishedStates); setter. }
  assert (H1 : Spec.sensors w1 = Spec.sensors w) by (apply Hkeeps, Hd).
  assert (Hd1 : Spec.differs (Spec.decoded contentConfig hex) contentName w1
                = true).
  { unfold Spec.differs in *. unfold Spec.sensors in H1.
    assert (statesPrevious w1 = statesPrevious w) as -> by congruence.
    exact Hd. }
  assert (H2 : Spec.sensors w2 = Spec.sensors w)
    by (subst w2; rewrite (Hkeeps w1 Hd1); exact H1).
  split_and!; [exact H1 | exact H2 | |].
  - subst w2.
    rewrite (new_topics_published w1 _ _
               (decodeHex_start env published hex contentName contentConfig w1
                  ltac:(setter) Ha)).
    subst w1.
    rewrite (new_topics_published w _ _
               (decodeHex_start env published hex contentName contentConfig w
                  ltac:(setter) Ha)).
    set (w1 := Telenot.decodeHex env hex contentName w) in *.
    unfold Spec.sensors in H1.
    unfold StateManager.handleStateChange_start.
    assert (statesPrevious w1 = statesPrevious w) as -> by congruence.
    destruct (statesPrevious w !! contentName) as [prevMap|] eqn:Hprev;
      [| unfold Spec.differs in Hd; rewrite Hprev in Hd; discriminate Hd].
    apply process_entries_start_topics. congruence.
  - destruct (decodeHex_suspends hex contentName contentConfig w Ha Hd)
      as [call1 E1].
    destruct (decodeHex_suspends hex contentName contentConfig w1 Ha Hd1)
      as [call2 E2].
    exists call1, call2. subst w2. rewrite E2. subst w1. rewrite E1.
    rewrite <- app_assoc. reflexivity.
Qed.

End Twice.

Lemma decodeHex_twice_suspended_witness :
  let w1 := Telenot.decodeHex Example.env Example.frame_bit_clear
              "MELDEBEREICHE" Example.seen in
  let w2 := Telenot.decodeHex Example.env Example.frame_bit_clear
              "MELDEBEREICHE" w1 in
  Spec.new_topics Example.seen w1 = [topic Example.door]
  /\ Spec.new_topics w1 w2 = [topic Example.door]
  /\ Spec.sensors w2 = Spec.sensors Example.seen.
Proof.
  destruct (decodeHex_twice_suspended Example.env Example.frame_bit_clear
              "MELDEBEREICHE" (MELDEBEREICHE Example.config) Example.seen)
    as (_ & Hsensors & Htopics & _).
  - reflexivity.
  - vm_compute. reflexivity.
  - cbv zeta. split_and!.
    + vm_compute. reflexivity.
    + rewrite Htopics. vm_compute. reflexivity.
    + exact Hsensors.
Defined.

(** ** Every suspended call comes to its end *)

Section Ends.

Variable env : Env.

(** The list of the suspended calls is no concern of the methods. *)
Lemma publishState_set_suspended l position bitValue byteIndex bitIndex
    contentName w :
  StateManager.publishState env position bitValue byteIndex bitIndex
    contentName (set_suspended l w)
  = set_suspended l
      (StateManager.publishState env position bitValue byteIndex bitIndex
         contentName w).
Proof.
  unfold StateManager.publishState, StateManager.getPreviousBit, now,
    mqtt_publish, logger.
  cbn [lastPublishedStates statesPrevious clock_reads published log
       set_suspended set_log].
  case_bool_decide as Hlast; [reflexivity |].
  destruct (StateManager.has_name position); destruct (Discover (config env));
    cbn [andb negb];
    cbn [lastPublishedStates statesPrevious clock_reads published log
         set_suspended set_log set_clock_reads set_published];
    try reflexivity;
    destruct (publish_outcome env _); reflexivity.
Qed.

Lemma publishState_end_set_suspended l publishing w :
  StateManager.publishState_end env publishing (set_suspended l w)
  = set_suspended l (StateManager.publishState_end env publishing w).
Proof.
  destruct publishing as [publishing|]; [| reflexivity].
  unfold StateManager.publishState_end, StateManager.publishState_settled.
  destruct (publish_outcome env _); reflexivity.
Qed.

Lemma publish_changed_bits_set_suspended l ps nb ob byteIndex contentName w :
  StateManager.publish_changed_bits env ps nb ob byteIndex contentName
    (set_suspended l w)
  = set_suspended l
      (StateManager.publish_changed_bits env ps nb ob byteIndex contentName w).
Proof.
  revert w. induction ps as [|p ps IH]; intros w; [reflexivity |].
  cbn [StateManager.publish_changed_bits].
  destruct (JS.parseInt16 (hex p)) as [a|]; [| apply IH].
  case_bool_decide as Hbit; [| apply IH].
  rewrite publishState_set_suspended. apply IH.
Qed.

Lemma publishPositionStates_set_suspended l byteMap ps contentName w :
  StateManager.publishPositionStates env byteMap ps contentName
    (set_suspended l w)
  = set_suspended l
      (StateManager.publishPositionStates env byteMap ps contentName w).
Proof.
  revert w. induction ps as [|p ps IH]; intros w; [reflexivity |].
  cbn [StateManager.publishPositionStates].
  destruct (JS.parseInt16 (hex p)) as [a|]; [| apply IH].
  destruct (StateManager.Map_get _ _); [| apply IH].
  destruct (StateManager.index _ _) as [c|]; [| apply IH].
  rewrite publishState_set_suspended. apply IH.
Qed.

Lemma process_entries_set_suspended l entries prevMap ps contentName w :
  StateManager.process_entries env entries prevMap ps contentName
    (set_suspended l w)
  = set_suspended l
      (StateManager.process_entries env entries prevMap ps contentName w).
Proof.
  revert w. induction entries as [|[i v] entries IH]; intros w;
    [reflexivity |].
  cbn [StateManager.process_entries].
  case_bool_decide as Hdiff; [| apply IH].
  unfold StateManager.processStateChanges.
  rewrite publish_changed_bits_set_suspended. apply IH.
Qed.

Lemma complete_set_suspended l call w :
  StateManager.complete env call (set_suspended l w)
  = set_suspended l (StateManager.complete env call w).
Proof.
  destruct call; cbn [StateManager.complete];
    rewrite publishState_end_set_suspended ||
    idtac;
    rewrite ?publish_changed_bits_set_suspended,
      ?publishPositionStates_set_suspended, ?process_entries_set_suspended;
    reflexivity.
Qed.

(** Each part of a call leaves fewer [await]s to pass. *)
Lemma publish_changed_bits_start_awaits rel nb ob byteIndex contentName w :
  match snd (StateManager.publish_changed_bits_start env rel nb ob byteIndex
               contentName w) with
  | Some (publishing, rest) => (List.length rest < List.length rel)%nat
  | None => True
  end.
Proof.
  induction rel as [|p rel IH]; [exact I |].
  assert (Hnext :
            match snd (StateManager.publish_changed_bits_start env rel nb ob
                         byteIndex contentName w) with
            | Some (publishing, rest) =>
                (List.length rest < List.length (p :: rel))%nat
            | None => True
            end).
  { destruct (snd (StateManager.publish_changed_bits_start env rel nb ob
                     byteIndex contentName w)) as [[publishing rest]|];
      [| exact I].
    cbn [List.length]. lia. }
  cbn [StateManager.publish_changed_bits_start].
  destruct (JS.parseInt16 (hex p)) as [a|]; [| exact Hnext].
  case_bool_decide as Hbit; [| exact Hnext].
  destruct (StateManager.publishState_start env _ _ _ _ _ _).
  cbn [snd List.length]. lia.
Qed.

Lemma publishPositionStates_start_awaits byteMap rest contentName w :
  match snd (StateManager.publishPositionStates_start env byteMap rest
               contentName w) with
  | Some call => (Spec.awaits_left call < 2 * List.length rest)%nat
  | None => True
  end.
Proof.
  induction rest as [|p rest IH]; [exact I |].
  assert (Hnext :
            match snd (StateManager.publishPositionStates_start env byteMap
                         rest contentName w) with
            | Some call =>
                (Spec.awaits_left call < 2 * List.length (p :: rest))%nat
            | None => True
            end).
  { destruct (snd (StateManager.publishPositionStates_start env byteMap rest
                     contentName w)) as [call|]; [| exact I].
    cbn [List.length]. lia. }
  cbn [StateManager.publishPositionStates_start].
  destruct (JS.parseInt16 (hex p)) as [a|]; [| exact Hnext].
  destruct (StateManager.Map_get _ _); [| exact Hnext].
  destruct (StateManager.index _ _) as [c|]; [| exact Hnext].
  destruct (StateManager.publishState_start env _ _ _ _ _ _)
    as [w1 [publishing|]]; cbn [snd Spec.awaits_left List.length]; lia.
Qed.

Lemma processStateChanges_start_awaits rel nb ob byteIndex entries prevMap
    byteMap qs contentName w :
  match snd (StateManager.processStateChanges_start env rel nb ob byteIndex
               entries prevMap byteMap qs contentName w) with
  | Some call =>
      (Spec.awaits_left call
       <= 2 * List.length rel + Spec.awaits_of_entries entries qs)%nat
  | None => True
  end.
Proof.
  unfold StateManager.processStateChanges_start.
  pose proof (publish_changed_bits_start_awaits rel nb ob byteIndex
                contentName w) as H.
  destruct (StateManager.publish_changed_bits_start env _ _ _ _ _ _)
    as [w1 [[[publishing|] rest]|]]; cbn [snd Spec.awaits_left] in *; lia.
Qed.

Lemma process_entries_start_awaits entries prevMap byteMap qs contentName w :
  match snd (StateManager.process_entries_start env entries prevMap byteMap qs
               contentName w) with
  | Some call =>
      (Spec.awaits_left call < Spec.awaits_of_entries entries qs)%nat
  | None => True
  end.
Proof.
  induction entries as [|[i v] entries IH]; [exact I |].
  assert (Hcons : Spec.awaits_of_entries ((i, v) :: entries) qs
                  = (2 * List.length qs + 2
                     + Spec.awaits_of_entries entries qs)%nat)
    by reflexivity.
  cbn [StateManager.process_entries_start].
  case_bool_decide as Hdiff.
  - pose proof (processStateChanges_start_awaits
                  (List.filter (StateManager.relevant i) qs)
                  (StateManager.reverseBinary v)
                  (StateManager.reverseBinary
                     (default 0 (StateManager.Map_get i prevMap)))
                  i entries prevMap byteMap qs contentName w) as H.
    pose proof (List.filter_length_le (StateManager.relevant i) qs) as Hle.
    match goal with
    | |- match ?x with _ => _ end => destruct x as [call|]
    end; [| exact I].
    rewrite Hcons. lia.
  - match goal with
    | |- match ?x with _ => _ end => destruct x as [call|]
    end; [| exact I].
    rewrite Hcons. lia.
Qed.

Lemma resume_awaits call w :
  match snd (StateManager.resume env call w) with
  | Some call' => (Spec.awaits_left call' < Spec.awaits_left call)%nat
  | None => True
  end.
Proof.
  destruct call as [[publishing|] byteMap rest contentName
                   |[publishing|] rest nb ob i entries prevMap byteMap qs
                      contentName
                   |entries prevMap byteMap qs contentName];
    cbn [StateManager.resume snd].
  - cbn [Spec.awaits_left]. lia.
  - apply publishPositionStates_start_awaits.
  - cbn [Spec.awaits_left]. lia.
  - pose proof (processStateChanges_start_awaits rest nb ob i entries prevMap
                  byteMap qs contentName w) as H.
    match goal with
    | |- match ?x with _ => _ end => destruct x as [call'|]
    end; [| exact I].
    cbn [Spec.awaits_left]. lia.
  - apply process_entries_start_awaits.
Qed.

Lemma run_app events1 events2 w :
  Bridge.run env (events1 ++ events2) w
  = Bridge.run env events2 (Bridge.run env events1 w).
Proof. apply fold_left_app. Qed.

(** The oldest suspended call runs on until it ends: what it leaves is
    the rest of the awaited methods. *)
Lemma oldest_call_ends (n : nat) call rest w :
  (Spec.awaits_left call < n)%nat ->
  suspended w = call :: rest ->
  exists events,
    Forall Spec.is_resumed events
    /\ (List.length events <= n)%nat
    /\ Bridge.run env events w
       = set_suspended rest (StateManager.complete env call w).
Proof.
  revert call w. induction n as [|n IH]; intros call w Hn Hs; [lia |].
  pose proof (resume_awaits call w) as Hless.
  pose proof (resume_complete env call w) as Hcomplete.
  pose proof (resume_untouched env _ suspended ltac:(setter) ltac:(setter)
                ltac:(setter) ltac:(setter) ltac:(setter) call w) as Hu.
  assert (Hstep : Bridge.step env (Bridge.Resumed 0) w
                  = match StateManager.resume env call w with
                    | (w1, Some call') => set_suspended (call' :: rest) w1
                    | (w1, None) => set_suspended rest w1
                    end).
  { cbn [Bridge.step]. rewrite Hs. cbn [lookup list_lookup].
    destruct (StateManager.resume env call w) as [w1 [call'|]];
      cbn [fst] in Hu; rewrite Hu, Hs; reflexivity. }
  destruct (StateManager.resume env call w) as [w1 [call'|]];
    cbn [fst snd] in *.
  - destruct (IH call' (set_suspended (call' :: rest) w1) ltac:(lia) eq_refl)
      as (events & Hall & Hlen & Hrun).
    exists (Bridge.Resumed 0 :: events). split_and!.
    + constructor; [exact I | exact Hall].
    + cbn [List.length]. lia.
    + change (Bridge.run env (Bridge.Resumed 0 :: events) w)
        with (Bridge.run env events (Bridge.step env (Bridge.Resumed 0) w)).
      rewrite Hstep, Hrun, complete_set_suspended, Hcomplete. reflexivity.
  - exists [Bridge.Resumed 0%nat]. split_and!.
    + repeat constructor.
    + cbn [List.length]. lia.
    + change (Bridge.run env [Bridge.Resumed 0%nat] w)
        with (Bridge.step env (Bridge.Resumed 0) w).
      rewrite Hstep, Hcomplete. reflexivity.
Qed.

Lemma settle_cons call rest w :
  suspended w = call :: rest ->
  Bridge.settle env w
  = Bridge.settle env (set_suspended rest (StateManager.complete env call w)).
Proof.
  intros Hs. unfold Bridge.settle. rewrite Hs.
  cbn [fold_left suspended set_suspended].
  rewrite complete_set_suspended. reflexivity.
Qed.

(** X24: the calls of [handleStateChange] that [decodeHex] leaves
    suspended all come to an end: from any state of the bridge there is
    a finite run in which nothing happens but suspended calls running on,
    from [await] to [await], after which no call is suspended; each call
    has done what is left of the awaited methods, the oldest call
    first. *)
Theorem suspended_calls_end w :
  exists events,
    Forall Spec.is_resumed events
    /\ Bridge.run env events w = Bridge.settle env w
    /\ suspended (Bridge.settle env w) = [].
Proof.
  assert (Hnone : forall v, suspended (Bridge.settle env v) = []).
  { intros v. unfold Bridge.settle.
    assert (H : forall l u, suspended u = [] ->
                suspended
                  (fold_left (fun w call => StateManager.complete env call w)
                     l u) = []).
    { induction l as [|call l IHl]; intros u Hu; [exact Hu |].
      cbn [fold_left]. apply IHl.
      rewrite (complete_untouched env _ suspended) by setter. exact Hu. }
    apply H. reflexivity. }
  remember (suspended w) as l eqn:Hl. revert w Hl.
  induction l as [|call rest IH]; intros w Hl.
  - exists []. split_and!; [constructor | | apply Hnone].
    unfold Bridge.settle. rewrite <- Hl. cbn [fold_left Bridge.run].
    rewrite Hl. symmetry. apply set_suspended_same.
  - destruct (oldest_call_ends (S (Spec.awaits_left call)) call rest w
                ltac:(lia) (eq_sym Hl)) as (events1 & Hall1 & _ & Hrun1).
    destruct (IH (set_suspended rest (StateManager.complete env call w))
                eq_refl) as (events2 & Hall2 & Hrun2 & _).
    exists (events1 ++ events2)%list. split_and!.
    + apply Forall_app. split; assumption.
    + rewrite run_app, Hrun1, Hrun2. symmetry.
      apply settle_cons. symmetry. exact Hl.
    + apply Hnone.
Qed.

End Ends.

(** ** The first frame of a content area ([StateManager.publishPositionStates]) *)

Section FirstFrame.

Variable env : Env.




End FirstFrame.


(** ** Classification of received frames *)

Lemma take_toString_hex (n : nat) (data : list Z) :
  take (2 * n) (JS.chars (SocketHandler.toString_hex data))
  = JS.chars (SocketHandler.toString_hex (take n data)).
Proof.
  rewrite !chars_toString_hex. revert data.
  induction n as [|n IH]; intros data; [reflexivity |].
  destruct data as [|b data]; [reflexivity |].
  replace (2 * S n)%nat with (S (S (2 * n))) by lia.
  cbn [flat_map app take]. rewrite IH. reflexivity.
Qed.

Lemma substring0_toString_hex (data : list Z) :
  JS.substring0 8 (SocketHandler.toString_hex data)
  = SocketHandler.toString_hex (take 4 data).
Proof.
  unfold JS.substring0.
  rewrite (take_toString_hex 4 data
           : take 8 (JS.chars (SocketHandler.toString_hex data)) = _).
  apply str_chars.
Qed.

Lemma is_hex_string_toString_hex (data : list Z) :
  Forall Spec.is_byte data ->
  Spec.is_hex_string (SocketHandler.toString_hex data) = true.
Proof.
  unfold Spec.is_hex_string. rewrite chars_toString_hex.
  induction 1 as [|b data Hb _ IH]; [reflexivity |].
  apply byte_checked in Hb. unfold Spec.byte_check in Hb.
  repeat (apply andb_prop in Hb; destruct Hb as [Hb ?]).
  cbn [flat_map app forallb]. rewrite IH.
  repeat match goal with
         | H : JS.is_hex_digit _ = true |- _ => rewrite H; clear H
         end.
  reflexivity.
Qed.

(** Two buffers with the same hex text are the same buffer. *)
Lemma toString_hex_inj (data bytes : list Z) :
  Forall Spec.is_byte data ->
  Forall Spec.is_byte bytes ->
  SocketHandler.toString_hex data = SocketHandler.toString_hex bytes ->
  data = bytes.
Proof.
  intros Hd Hb E.
  assert (JS.match_1_2 (JS.chars (SocketHandler.toString_hex data))
          = JS.match_1_2 (JS.chars (SocketHandler.toString_hex bytes))) as M
    by (rewrite E; reflexivity).
  rewrite !match_1_2_toString_hex in M by assumption.
  apply (f_equal (map JS.parseInt16)) in M. rewrite !map_map in M.
  rewrite (map_ext_in _ Some data) in M
    by (intros x Hx; apply parseInt16_toString_hex;
        rewrite List.Forall_forall in Hd; apply Hd, Hx).
  rewrite (map_ext_in _ Some bytes) in M
    by (intros x Hx; apply parseInt16_toString_hex;
        rewrite List.Forall_forall in Hb; apply Hb, Hx).
  revert M. clear. revert bytes.
  induction data as [|x data IH]; intros [|y bytes] M; try discriminate M;
    [reflexivity |].
  injection M as -> M. f_equal. apply IH, M.
Qed.

(** X18: the classification of a received buffer.  [handleData] passes
    [data.toString('hex')], which is lower case: the type is the one of
    the first matching pattern; when no pattern matches it is
    [SEND_NORM] for a buffer that starts with [68 02 02 68] and
    [INVALID] otherwise.  The entry [682C2C68] of [START_TO_MSG_TYPE]
    is never used, and no inherited member is returned. *)
Theorem getMsgType_received (data : list Z) :
  Forall Spec.is_byte data ->
  let hexStr := SocketHandler.toString_hex data in
  SocketHandler.getMsgType hexStr
  = match SocketHandler.matchHexStrToMsgType hexStr with
    | Some msgType => SocketHandler.Type_ msgType
    | None =>
        if bool_decide (take 4 data = [104; 2; 2; 104])
        then SocketHandler.Type_ SocketHandler.SEND_NORM
        else SocketHandler.Type_ SocketHandler.INVALID
    end.
Proof.
  intros Hb hexStr. unfold SocketHandler.getMsgType.
  destruct (SocketHandler.matchHexStrToMsgType hexStr); [reflexivity |].
  subst hexStr. rewrite substring0_toString_hex.
  assert (Forall Spec.is_byte (take 4 data)) as Ht by (apply Forall_take, Hb).
  unfold SocketHandler.START_TO_MSG_TYPE.
  rewrite (hex_string_not_inherited _ (is_hex_string_toString_hex _ Ht)).
  case_bool_decide as E.
  - rewrite E. reflexivity.
  - destruct (String.eqb _ "68020268") eqn:E1.
    { exfalso. apply E. apply String.eqb_eq in E1.
      apply toString_hex_inj; [exact Ht | | exact E1].
      repeat constructor; unfold Spec.is_byte; lia. }
    destruct (String.eqb _ "682C2C68") eqn:E2; [| reflexivity].
    exfalso. apply String.eqb_eq in E2.
    assert (Telenot.hexToBytes (SocketHandler.toString_hex (take 4 data))
            = Some [Some 104; Some 44; Some 44; Some 104]) as X
      by (rewrite E2; vm_compute; reflexivity).
    destruct (take 4 data) as [|b l] eqn:D; [discriminate E2 |].
    rewrite (hexToBytes_bytes (b :: l) ltac:(discriminate) Ht) in X. injection X as -> X.
    assert (l = [44; 44; 104]) as ->.
    { revert X. clear.
      destruct l as [|x [|y [|z [|? ?]]]]; intros [=]; congruence. }
    vm_compute in E2. discriminate E2.
Qed.

Lemma getMsgType_received_witness :
  SocketHandler.getMsgType (SocketHandler.toString_hex [104; 44; 44; 104])
  = SocketHandler.Type_ SocketHandler.INVALID.
Proof.
  apply (getMsgType_received [104; 44; 44; 104]).
  repeat constructor; unfold Spec.is_byte; lia.
Defined.

(** X19: the pattern of [SEND_NDAT], [^68..68730], wants the second
    [68] one byte early.  A buffer whose fourth byte is [68], as the
    header [68 L L 68] of every frame has it, never matches it and is
    never classified [SEND_NDAT]. *)
Theorem header_68_never_SEND_NDAT (b0 b1 b2 : Z) (rest : list Z) :
  SocketHandler.test SocketHandler.re_SEND_NDAT
    (SocketHandler.toString_hex (b0 :: b1 :: b2 :: 104 :: rest)) = false
  /\ SocketHandler.matchHexStrToMsgType
       (SocketHandler.toString_hex (b0 :: b1 :: b2 :: 104 :: rest))
     <> Some SocketHandler.SEND_NDAT.
Proof.
  assert (SocketHandler.test SocketHandler.re_SEND_NDAT
            (SocketHandler.toString_hex (b0 :: b1 :: b2 :: 104 :: rest))
          = false) as T.
  { unfold SocketHandler.test. rewrite chars_toString_hex.
    cbn [flat_map app SocketHandler.re_SEND_NDAT SocketHandler.pieces
         SocketHandler.consume_pieces SocketHandler.consume_piece JS.chars
         list_ascii_of_string SocketHandler.consume_text SocketHandler.consume].
    change (JSON.hex_char (104 / 16)) with "6"%char.
    repeat match goal with
           | |- context [if ?b then _ else _] => destruct b; try reflexivity
           end. }
  split; [exact T |].
  unfold SocketHandler.matchHexStrToMsgType. rewrite T.
  repeat match goal with
         | |- context [if ?b then _ else _] => destruct b; try discriminate
         end.
Qed.

(** ** The discovery log of a first frame *)

Section Discovery.

Variable env : Env.




End Discovery.


(** ** From one [await] to the next

    A call of [handleStateChange] does three things to the world:
    [publishState] up to its publish call, [publishState] after its
    publish call, and storing a snapshot.  A relation between worlds
    that holds across these three, for the positions of a catalog [ps],
    holds across every part of a call that goes over positions of
    [ps]. *)

Section Steps.

Variable env : Env.
Variable ps : list Position.

Lemma mapBinaryValue_ON_OFF value inverted :
  StateManager.mapBinaryValue value inverted = "ON"
  \/ StateManager.mapBinaryValue value inverted = "OFF".
Proof.
  unfold StateManager.mapBinaryValue.
  destruct (if inverted then _ else _); auto.
Qed.

Lemma publishState_start_of p bitValue byteIndex bitIndex contentName w :
  In p ps ->
  Spec.publishing_of ps
    (snd (StateManager.publishState_start env p bitValue byteIndex bitIndex
            contentName w)).
Proof.
  intros Hp. unfold StateManager.publishState_start.
  case_bool_decide as Hlast; [exact I |].
  destruct (StateManager.has_name p) eqn:Hn; [| exact I].
  cbn. split; [apply mapBinaryValue_ON_OFF |]. exists p. auto.
Qed.

Lemma publish_changed_bits_start_of rel nb ob byteIndex contentName w :
  (forall p, In p rel -> In p ps) ->
  match snd (StateManager.publish_changed_bits_start env rel nb ob byteIndex
               contentName w) with
  | Some (publishing, rest) =>
      Spec.publishing_of ps publishing /\ forall p, In p rest -> In p ps
  | None => True
  end.
Proof.
  induction rel as [|p rel IH]; intros Hsub; [exact I |].
  assert (Hrest : forall q, In q rel -> In q ps)
    by (intros q Hq; apply Hsub; right; exact Hq).
  cbn [StateManager.publish_changed_bits_start].
  destruct (JS.parseInt16 (hex p)) as [a|]; [| apply IH, Hrest].
  case_bool_decide as Hbit; [| apply IH, Hrest].
  pose proof (publishState_start_of p (StateManager.index nb (Z.rem a 8))
                byteIndex (Z.rem a 8) contentName w
                (Hsub p (or_introl eq_refl))) as H.
  destruct (StateManager.publishState_start env _ _ _ _ _ _). cbn [snd] in *.
  auto.
Qed.

Lemma publishPositionStates_start_of byteMap rest contentName w :
  (forall p, In p rest -> In p ps) ->
  Spec.next_of ps
    (snd (StateManager.publishPositionStates_start env byteMap rest
            contentName w)).
Proof.
  induction rest as [|p rest IH]; intros Hsub; [exact I |].
  assert (Hrest : forall q, In q rest -> In q ps)
    by (intros q Hq; apply Hsub; right; exact Hq).
  cbn [StateManager.publishPositionStates_start].
  destruct (JS.parseInt16 (hex p)) as [a|]; [| apply IH, Hrest].
  destruct (StateManager.Map_get _ _); [| apply IH, Hrest].
  destruct (StateManager.index _ _) as [c|]; [| apply IH, Hrest].
  pose proof (publishState_start_of p (Some c) (a / 8) (Z.rem a 8)
                contentName w (Hsub p (or_introl eq_refl))) as H.
  destruct (StateManager.publishState_start env _ _ _ _ _ _). cbn [snd] in *.
  split; assumption.
Qed.

Lemma processStateChanges_start_of rel nb ob byteIndex entries prevMap
    byteMap qs contentName w :
  (forall p, In p rel -> In p ps) ->
  (forall p, In p qs -> In p ps) ->
  Spec.next_of ps
    (snd (StateManager.processStateChanges_start env rel nb ob byteIndex
            entries prevMap byteMap qs contentName w)).
Proof.
  intros Hrel Hqs. unfold StateManager.processStateChanges_start.
  pose proof (publish_changed_bits_start_of rel nb ob byteIndex contentName w
                Hrel) as H.
  destruct (StateManager.publish_changed_bits_start env _ _ _ _ _ _)
    as [w1 [[publishing rest]|]]; cbn [snd] in *.
  - destruct H. split_and!; assumption.
  - exact Hqs.
Qed.

Lemma process_entries_start_of entries prevMap byteMap qs contentName w :
  (forall p, In p qs -> In p ps) ->
  Spec.next_of ps
    (snd (StateManager.process_entries_start env entries prevMap byteMap qs
            contentName w)).
Proof.
  intros Hqs. induction entries as [|[i v] entries IH]; [exact I |].
  cbn [StateManager.process_entries_start].
  case_bool_decide as Hdiff; [| exact IH].
  apply processStateChanges_start_of; [| exact Hqs].
  intros p Hp. apply List.filter_In in Hp. apply Hqs. tauto.
Qed.

Lemma handleStateChange_start_of byteMap contentName contentConfig w :
  (forall p, In p (positions contentConfig) -> In p ps) ->
  Spec.next_of ps
    (snd (StateManager.handleStateChange_start env byteMap contentName
            contentConfig w)).
Proof.
  intros Hsub. unfold StateManager.handleStateChange_start.
  destruct (statesPrevious w !! contentName).
  - apply process_entries_start_of, Hsub.
  - apply publishPositionStates_start_of, Hsub.
Qed.

Lemma resume_of call w :
  Spec.call_of ps call ->
  Spec.next_of ps (snd (StateManager.resume env call w)).
Proof.
  destruct call as [[publishing|] byteMap rest contentName
                   |[publishing|] rest nb ob i entries prevMap byteMap qs
                      contentName
                   |entries prevMap byteMap qs contentName];
    cbn [StateManager.resume Spec.call_of snd Spec.next_of].
  - intros [_ Hrest]. split; [exact I | exact Hrest].
  - intros [_ Hrest]. apply publishPositionStates_start_of, Hrest.
  - intros (_ & Hrest & Hqs). split_and!; [exact I | exact Hrest | exact Hqs].
  - intros (_ & Hrest & Hqs). apply processStateChanges_start_of; assumption.
  - intros Hqs. apply process_entries_start_of, Hqs.
Qed.

Variable R : World -> World -> Prop.

Hypothesis R_refl : forall w, R w w.
Hypothesis R_trans : forall w1 w2 w3, R w1 w2 -> R w2 w3 -> R w1 w3.
Hypothesis R_start :
  forall p bitValue byteIndex bitIndex contentName w,
    In p ps ->
    R w (fst (StateManager.publishState_start env p bitValue byteIndex
                bitIndex contentName w)).
Hypothesis R_settled :
  forall publishing w,
    Spec.publishing_of ps (Some publishing) ->
    R w (StateManager.publishState_settled env publishing w).
Hypothesis R_statesPrevious : forall x w, R w (set_statesPrevious x w).

Lemma publish_changed_bits_start_step rel nb ob byteIndex contentName w :
  (forall p, In p rel -> In p ps) ->
  R w (fst (StateManager.publish_changed_bits_start env rel nb ob byteIndex
              contentName w)).
Proof.
  induction rel as [|p rel IH]; intros Hsub; [apply R_refl |].
  assert (Hrest : forall q, In q rel -> In q ps)
    by (intros q Hq; apply Hsub; right; exact Hq).
  cbn [StateManager.publish_changed_bits_start].
  destruct (JS.parseInt16 (hex p)) as [a|]; [| apply IH, Hrest].
  case_bool_decide as Hbit; [| apply IH, Hrest].
  pose proof (R_start p (StateManager.index nb (Z.rem a 8)) byteIndex
                (Z.rem a 8) contentName w (Hsub p (or_introl eq_refl))) as H.
  destruct (StateManager.publishState_start env _ _ _ _ _ _). exact H.
Qed.

Lemma publishPositionStates_start_step byteMap rest contentName w :
  (forall p, In p rest -> In p ps) ->
  R w (fst (StateManager.publishPositionStates_start env byteMap rest
              contentName w)).
Proof.
  induction rest as [|p rest IH]; intros Hsub; [apply R_refl |].
  assert (Hrest : forall q, In q rest -> In q ps)
    by (intros q Hq; apply Hsub; right; exact Hq).
  cbn [StateManager.publishPositionStates_start].
  destruct (JS.parseInt16 (hex p)) as [a|]; [| apply IH, Hrest].
  destruct (StateManager.Map_get _ _); [| apply IH, Hrest].
  destruct (StateManager.index _ _) as [c|]; [| apply IH, Hrest].
  pose proof (R_start p (Some c) (a / 8) (Z.rem a 8) contentName w
                (Hsub p (or_introl eq_refl))) as H.
  destruct (StateManager.publishState_start env _ _ _ _ _ _). exact H.
Qed.

Lemma processStateChanges_start_step rel nb ob byteIndex entries prevMap
    byteMap qs contentName w :
  (forall p, In p rel -> In p ps) ->
  R w (fst (StateManager.processStateChanges_start env rel nb ob byteIndex
              entries prevMap byteMap qs contentName w)).
Proof.
  intros Hrel. rewrite processStateChanges_start_fst.
  apply publish_changed_bits_start_step, Hrel.
Qed.

Lemma process_entries_start_step entries prevMap byteMap qs contentName w :
  (forall p, In p qs -> In p ps) ->
  R w (fst (StateManager.process_entries_start env entries prevMap byteMap qs
              contentName w)).
Proof.
  intros Hqs. induction entries as [|[i v] entries IH];
    [apply R_statesPrevious |].
  cbn [StateManager.process_entries_start].
  case_bool_decide as Hdiff; [| exact IH].
  apply processStateChanges_start_step.
  intros p Hp. apply List.filter_In in Hp. apply Hqs. tauto.
Qed.


Lemma resume_step call w :
  Spec.call_of ps call -> R w (fst (StateManager.resume env call w)).
Proof.
  destruct call as [[publishing|] byteMap rest contentName
                   |[publishing|] rest nb ob i entries prevMap byteMap qs
                      contentName
                   |entries prevMap byteMap qs contentName];
    cbn [StateManager.resume Spec.call_of fst].
  - intros [Hp _]. apply R_settled, Hp.
  - intros [_ Hrest]. apply publishPositionStates_start_step, Hrest.
  - intros (Hp & _ & _). apply R_settled, Hp.
  - intros (_ & Hrest & _). apply processStateChanges_start_step, Hrest.
  - intros Hqs. apply process_entries_start_step, Hqs.
Qed.

Hypothesis R_suspended : forall x w, R w (set_suspended x w).


(** A suspended call that runs on, up to its next [await]. *)
Lemma step_Resumed_step k w :
  Forall (Spec.call_of ps) (suspended w) ->
  R w (Bridge.step env (Bridge.Resumed k) w).
Proof.
  intros Hall. cbn [Bridge.step].
  destruct (suspended w !! k) as [call|] eqn:Hk; [| apply R_refl].
  assert (Hcall : Spec.call_of ps call).
  { rewrite List.Forall_forall in Hall. apply Hall.
    apply list_elem_of_In. eapply list_elem_of_lookup_2. exact Hk. }
  pose proof (resume_step call w Hcall) as H.
  destruct (StateManager.resume env call w) as [w1 [call'|]]; cbn [fst] in H;
    (eapply R_trans; [exact H | apply R_suspended]).
Qed.

End Steps.

(** The suspended calls stay calls over positions of the catalog. *)
Lemma decodeHex_of env ps hex contentName w :
  (forall contentConfig,
      Telenot_area (config env) contentName = Some contentConfig ->
      forall p, In p (positions contentConfig) -> In p ps) ->
  Forall (Spec.call_of ps) (suspended w) ->
  Forall (Spec.call_of ps) (suspended (Telenot.decodeHex env hex contentName w)).
Proof.
  intros Hsub Hall. unfold Telenot.decodeHex.
  destruct (Telenot_area (config env) contentName) as [cc|] eqn:Ha;
    [| exact Hall].
  match goal with
  | |- context [StateManager.handleStateChange_start env ?m contentName cc w] =>
      pose proof (handleStateChange_start_of env ps m contentName cc w
                    (Hsub cc eq_refl)) as Hof;
      pose proof (handleStateChange_start_untouched env _ suspended
                    ltac:(setter) ltac:(setter) ltac:(setter) ltac:(setter)
                    m contentName cc w) as Hu;
      destruct (StateManager.handleStateChange_start env m contentName cc w)
        as [w1 [call|]]
  end; cbn [fst snd] in *.
  - cbn [suspended set_suspended]. rewrite Hu.
    apply Forall_app. split; [exact Hall |]. constructor; [exact Hof |].
    constructor.
  - rewrite Hu. exact Hall.
Qed.

Lemma step_Resumed_of env ps k w :
  Forall (Spec.call_of ps) (suspended w) ->
  Forall (Spec.call_of ps) (suspended (Bridge.step env (Bridge.Resumed k) w)).
Proof.
  intros Hall. cbn [Bridge.step].
  destruct (suspended w !! k) as [call|] eqn:Hk; [| exact Hall].
  assert (Hcall : Spec.call_of ps call).
  { rewrite List.Forall_forall in Hall. apply Hall.
    apply list_elem_of_In. eapply list_elem_of_lookup_2. exact Hk. }
  pose proof (resume_of env ps call w Hcall) as Hof.
  pose proof (resume_untouched env _ suspended ltac:(setter) ltac:(setter)
                ltac:(setter) ltac:(setter) ltac:(setter) call w) as Hu.
  destruct (StateManager.resume env call w) as [w1 [call'|]];
    cbn [fst snd suspended set_suspended] in *; rewrite Hu.
  - apply Forall_insert; assumption.
  - apply Forall_delete. exact Hall.
Qed.

(** ** The topics a sensor frame publishes to *)

Section Catalog.

Variable env : Env.







End Catalog.

(** ** Change detection, any number of changed bytes *)

Section Changed.

Variable env : Env.

Lemma process_entries_changed entries (byteMap prevMap : ByteMap) ps
    contentName w :
  (forall e, In e entries -> In e byteMap) ->
  exists calls,
    published
      (StateManager.process_entries env entries prevMap ps contentName w)
    = (published w ++ calls)%list
    /\ Forall (Spec.changed_call byteMap prevMap ps) calls.
Proof.
  revert w. induction entries as [|[i v] entries IH]; intros w Hsub.
  - exists []. rewrite app_nil_r. split; [reflexivity | constructor].
  - assert (forall e, In e entries -> In e byteMap) as Hrest
      by (intros e He; apply Hsub; right; exact He).
    cbn [StateManager.process_entries].
    case_bool_decide as Hne; [| apply IH, Hrest].
    unfold StateManager.processStateChanges.
    match goal with
    | |- context [StateManager.publish_changed_bits env ?rel ?nb ?ob i
                    contentName w] =>
        destruct (publish_changed_bits_calls env rel nb ob i contentName w)
          as (c1 & E1 & F1);
        destruct (IH (StateManager.publish_changed_bits env rel nb ob i
                        contentName w) Hrest) as (c2 & E2 & F2)
    end.
    exists (c1 ++ c2)%list. split.
    + rewrite E2, E1, app_assoc. reflexivity.
    + apply Forall_app. split; [| exact F2].
      eapply Forall_impl; [exact F1 |].
      intros c (p & Hp & Hc & Hn & Ht).
      apply List.filter_In in Hp as [Hp Hr].
      exists p, i, v. split_and!; try assumption.
      apply Hsub. left. reflexivity.
Qed.

(** X22: a byte map for a content area seen before, with any number of
    changed bytes.  Every publish call is for a named position of the
    catalog whose bit lies in a byte that differs from the stored
    snapshot and whose own bit differs; a position whose bit did not
    change is never published again. *)
Theorem handleStateChange_changed_bits_only (byteMap prevMap : ByteMap)
    contentName contentConfig w :
  statesPrevious w !! contentName = Some prevMap ->
  exists calls,
    published
      (StateManager.handleStateChange env byteMap contentName contentConfig w)
    = (published w ++ calls)%list
    /\ Forall (Spec.changed_call byteMap prevMap (positions contentConfig))
         calls.
Proof.
  intros Hprev. unfold StateManager.handleStateChange. rewrite Hprev.
  apply process_entries_changed. auto.
Qed.

End Changed.

Lemma handleStateChange_changed_bits_only_witness :
  exists calls,
    published
      (StateManager.handleStateChange Example.env Example.bytes_bit_clear
         "MELDEBEREICHE" (MELDEBEREICHE Example.config) Example.seen)
    = (published Example.seen ++ calls)%list
    /\ Forall (Spec.changed_call Example.bytes_bit_clear Example.bytes_bit_set
                 (positions (MELDEBEREICHE Example.config))) calls.
Proof.
  apply (handleStateChange_changed_bits_only Example.env
           Example.bytes_bit_clear Example.bytes_bit_set "MELDEBEREICHE"
           (MELDEBEREICHE Example.config) Example.seen).
  vm_compute. reflexivity.
Defined.

(** ** From a bit to a state ([reverseBinary], [mapBinaryValue]) *)

(** X17: the state of a position whose bit is bit [j] of byte [b], the
    least significant bit being bit 0: [ON] when the bit is set and the
    position is not inverted, or the bit is clear and the position is
    inverted; [OFF] otherwise. *)
Theorem position_state_of_bit (b j : Z) (inverted : bool) :
  Spec.is_byte b ->
  0 <= j < 8 ->
  StateManager.mapBinaryValue
    (StateManager.index (StateManager.reverseBinary b) j) inverted
  = if xorb (Z.testbit b j) inverted then "ON" else "OFF".
Proof.
  intros Hb Hj.
  destruct (reverseBinary_flip b 0 j Hb ltac:(lia) Hj) as [-> _].
  destruct (Z.testbit b j), inverted; reflexivity.
Qed.

Lemma position_state_of_bit_witness :
  StateManager.mapBinaryValue
    (StateManager.index (StateManager.reverseBinary 5) 2) true = "OFF".
Proof.
  apply (position_state_of_bit 5 2 true); unfold Spec.is_byte; lia.
Defined.

(** ** What [lastPublishedStates] holds ([StateManager.determineAlarmState]) *)

Section States.

Variable env : Env.
Variable ps : list Position.

Lemma held_states_eq v w :
  lastPublishedStates v = lastPublishedStates w ->
  Spec.held_states ps w -> Spec.held_states ps v.
Proof. unfold Spec.held_states. intros ->. auto. Qed.

(** [publishState] stores nothing before its publish call has settled. *)
Lemma publishState_start_held p bitValue byteIndex bitIndex contentName w :
  Spec.held_states ps w ->
  Spec.held_states ps
    (fst (StateManager.publishState_start env p bitValue byteIndex bitIndex
            contentName w)).
Proof.
  apply held_states_eq.
  apply (publishState_start_untouched env _ lastPublishedStates); setter.
Qed.

(** After that, it stores the state it computed, under the topic of
    its position. *)
Lemma publishState_settled_held publishing w :
  Spec.publishing_of ps (Some publishing) ->
  Spec.held_states ps w ->
  Spec.held_states ps (StateManager.publishState_settled env publishing w).
Proof.
  intros [Hstate Htopic] H. unfold StateManager.publishState_settled.
  destruct (publish_outcome env _); [| exact H].
  intros t state. cbn [lastPublishedStates set_lastPublishedStates logger
                       set_log].
  destruct (decide (t = awaited_topic publishing)) as [-> | Hne].
  - rewrite lookup_insert_eq. intros [= <-]. auto.
  - rewrite lookup_insert_ne by congruence. apply H.
Qed.

End States.

Section StatesOfRun.

Variable env : Env.

Lemma area_positions contentName contentConfig :
  Telenot_area (config env) contentName = Some contentConfig ->
  forall p, In p (positions contentConfig) ->
            In p (Spec.all_positions (config env)).
Proof.
  unfold Telenot_area, Spec.all_positions. intros H p Hp.
  repeat (destruct (String.eqb contentName _);
          [injection H as <-; rewrite !in_app_iff; tauto |]).
  discriminate H.
Qed.

Lemma states_of_eq v w :
  lastPublishedStates v = lastPublishedStates w ->
  suspended v = suspended w ->
  Spec.states_of (Spec.all_positions (config env)) w ->
  Spec.states_of (Spec.all_positions (config env)) v.
Proof.
  unfold Spec.states_of. intros Hl ->. intros [H Hc].
  split; [eapply held_states_eq; eassumption | exact Hc].
Qed.

Lemma decodeHex_states hex contentName w :
  Spec.states_of (Spec.all_positions (config env)) w ->
  Spec.states_of (Spec.all_positions (config env))
    (Telenot.decodeHex env hex contentName w).
Proof.
  intros [H Hc]. split.
  - eapply held_states_eq; [| exact H].
    apply (decodeHex_untouched env _ lastPublishedStates); setter.
  - apply decodeHex_of; [| exact Hc].
    intros cc Ha. apply (area_positions contentName), Ha.
Qed.

(** A suspended call that runs on stores [ON] or [OFF] under a topic of
    the catalog, if anything. *)
Lemma step_Resumed_states k w :
  Spec.states_of (Spec.all_positions (config env)) w ->
  Spec.states_of (Spec.all_positions (config env))
    (Bridge.step env (Bridge.Resumed k) w).
Proof.
  intros [H Hc]. split.
  - apply (step_Resumed_step env (Spec.all_positions (config env))
             (fun v v' =>
                Spec.held_states (Spec.all_positions (config env)) v ->
                Spec.held_states (Spec.all_positions (config env)) v'));
      try exact Hc; try exact H; auto.
    + intros p bitValue byteIndex bitIndex contentName v _.
      apply publishState_start_held.
    + intros publishing v. apply publishState_settled_held.
  - apply step_Resumed_of, Hc.
Qed.

Lemma parseData_states hexStr hex w :
  Spec.states_of (Spec.all_positions (config env)) w ->
  Spec.states_of (Spec.all_positions (config env))
    (snd (SocketHandler.parseData env hexStr hex w)).
Proof.
  intros H. unfold SocketHandler.parseData. cbn [snd].
  pose proof (fun s o v => publish_diagnostics_untouched env _
                lastPublishedStates ltac:(setter) ltac:(setter) ltac:(setter)
                s o v) as D.
  pose proof (fun t m v => publishToMQTT_untouched env _ lastPublishedStates
                ltac:(setter) ltac:(setter) t m v) as Q.
  pose proof (fun s o v => publish_diagnostics_untouched env _
                suspended ltac:(setter) ltac:(setter) ltac:(setter)
                s o v) as D'.
  pose proof (fun t m v => publishToMQTT_untouched env _ suspended
                ltac:(setter) ltac:(setter) t m v) as Q'.
  destruct (SocketHandler.getMsgType hexStr) as [[]|key];
    try (eapply states_of_eq; [| | exact H];
         rewrite ?D, ?Q, ?D', ?Q';
         try destruct (Discover (config env)); reflexivity).
  - apply decodeHex_states. exact H.
  - eapply states_of_eq; [reflexivity | reflexivity |].
    apply decodeHex_states. exact H.
Qed.

Lemma handleData_states data w :
  Spec.states_of (Spec.all_positions (config env)) w ->
  Spec.states_of (Spec.all_positions (config env))
    (SocketHandler.handleData env data w).
Proof.
  intros H. unfold SocketHandler.handleData.
  destruct (negb _); [eapply states_of_eq; [| | exact H]; reflexivity |].
  set (w0 := logger LDebug (ProcessingHexString _) w).
  assert (H0 : Spec.states_of (Spec.all_positions (config env)) w0)
    by (eapply states_of_eq; [| | exact H]; reflexivity).
  pose proof (parseData_states (SocketHandler.toString_hex data) data w0 H0)
    as P.
  destruct (SocketHandler.parseData env _ data w0) as [[r|] w1];
    cbn [snd] in P; [| exact P].
  set (w2 := logger LDebug (SendingResponse r) w1).
  pose proof (sendData_untouched env _ lastPublishedStates ltac:(setter)
                ltac:(setter) r w2) as S.
  pose proof (sendData_untouched env _ suspended ltac:(setter)
                ltac:(setter) r w2) as S'.
  destruct (SocketManager.sendData env r w2) as [[] w3]; cbn [snd] in S, S';
    (eapply states_of_eq; [| | exact P]); assumption.
Qed.

Lemma handleReconnect_sensors w :
  Spec.sensors (SocketManager.handleReconnect w) = Spec.sensors w
  /\ published (SocketManager.handleReconnect w) = published w
  /\ suspended (SocketManager.handleReconnect w) = suspended w.
Proof.
  unfold SocketManager.handleReconnect, SocketManager.setTimeout,
    SocketManager.clearTimeout, logger.
  split_cases; split_and!; reflexivity.
Qed.

(** The events of the link and the commands leave the sensor maps, the
    publish sink and the suspended calls alone. *)
Lemma link_event_sensors e w :
  (forall id data, e <> Bridge.SocketData id data) ->
  (forall k, e <> Bridge.Resumed k) ->
  Spec.sensors (Bridge.step env e w) = Spec.sensors w
  /\ published (Bridge.step env e w) = published w
  /\ suspended (Bridge.step env e w) = suspended w.
Proof.
  intros Hd Hr.
  destruct e as [id|id data|id|id|id|h|msg|k]; cbn [Bridge.step].
  - destruct (sockets w !! id); split_and!; reflexivity.
  - destruct (Hd id data eq_refl).
  - unfold SocketManager.on_error.
    destruct (sockets w !! id) as [[]|]; try (split_and!; reflexivity);
      match goal with
      | |- context [SocketManager.handleReconnect ?v] =>
          destruct (handleReconnect_sensors v) as (-> & -> & ->)
      end; split_and!; reflexivity.
  - unfold SocketManager.on_close.
    destruct (sockets w !! id) as [[]|]; try (split_and!; reflexivity);
      match goal with
      | |- context [SocketManager.handleReconnect ?v] =>
          destruct (handleReconnect_sensors v) as (-> & -> & ->)
      end; split_and!; reflexivity.
  - unfold SocketManager.on_timeout.
    destruct (sockets w !! id); [| split_and!; reflexivity].
    match goal with
    | |- context [SocketManager.handleReconnect ?v] =>
        destruct (handleReconnect_sensors v) as (-> & -> & ->)
    end. split_and!; reflexivity.
  - unfold SocketManager.reconnect_timer_fired.
    destruct (existsb _ _); split_and!; reflexivity.
  - split_and!; apply handleCommand_untouched; setter.
  - destruct (Hr k eq_refl).
Qed.

Lemma step_states e w :
  Spec.states_of (Spec.all_positions (config env)) w ->
  Spec.states_of (Spec.all_positions (config env)) (Bridge.step env e w).
Proof.
  intros H.
  destruct e as [id|id data|id|id|id|h|msg|k];
    try (match goal with
         | |- Spec.states_of _ (Bridge.step env ?e w) =>
             destruct (link_event_sensors e w ltac:(discriminate)
                         ltac:(discriminate)) as (E & _ & Es);
             unfold Spec.sensors in E;
             (eapply states_of_eq; [| | exact H]); congruence
         end).
  - cbn [Bridge.step]. destruct (sockets w !! id) as [[]|]; try exact H.
    apply handleData_states, H.
  - apply step_Resumed_states, H.
Qed.

Lemma run_states events w :
  Spec.states_of (Spec.all_positions (config env)) w ->
  Spec.states_of (Spec.all_positions (config env)) (Bridge.run env events w).
Proof.
  revert w. induction events as [|e events IH]; intros w H; [exact H |].
  apply IH, step_states, H.
Qed.

(** X20: [lastPublishedStates] only ever holds [ON] or [OFF] under
    topics of named catalog positions.  [determineAlarmState] reads two
    fixed topics, [telenot/alarm/kg/ema_zentrale/extern_scharf] and
    [.../intern_scharf]: for a configuration without a named position
    under either of them it returns [DISARMED] after every run of
    frames, commands and link events, wherever the calls of
    [handleStateChange] that the frames started are suspended or run
    on. *)
Theorem determineAlarmState_DISARMED events w :
  Spec.no_alarm_topics (Spec.all_positions (config env)) ->
  Spec.states_of (Spec.all_positions (config env)) w ->
  StateManager.determineAlarmState (Bridge.run env events w) = "DISARMED".
Proof.
  intros [He Hi] H. apply (run_states events) in H. destruct H as [H _].
  unfold StateManager.determineAlarmState.
  rewrite bool_decide_false by (intros F; apply He, (H _ _ F)).
  rewrite bool_decide_false by (intros F; apply Hi, (H _ _ F)).
  reflexivity.
Qed.

End StatesOfRun.

Lemma determineAlarmState_DISARMED_witness :
  StateManager.determineAlarmState
    (Bridge.run Example.env
       [Bridge.SocketConnect 0%nat;
        Bridge.SocketData 0%nat Example.frame_bit_set;
        Bridge.Resumed 0%nat;
        Bridge.SocketData 0%nat Example.frame_bit_clear;
        Bridge.Resumed 0%nat; Bridge.Resumed 1%nat; Bridge.Resumed 0%nat]
       Example.started) = "DISARMED".
Proof.
  apply (determineAlarmState_DISARMED Example.env).
  - split; intros (p & Hp & _ & Ht); cbn in Hp;
      repeat (destruct Hp as [<- | Hp]; [discriminate Ht |]); exact Hp.
  - split; [| constructor]. intros t state Ht. discriminate Ht.
Defined.

(** ** Frames, commands and the link keep to themselves *)

(** X5: a received frame never changes the state of the link (socket,
    connection flag, attempt counter, timers), and neither does the call
    of [handleStateChange] it started, when it runs on; an event of the
    link never changes the sensor maps and never publishes; a command
    does neither. *)
Theorem step_separation env e w :
  match e with
  | Bridge.SocketData _ _ | Bridge.Resumed _ =>
      Spec.link (Bridge.step env e w) = Spec.link w
  | Bridge.CommandMessage _ =>
      Spec.link (Bridge.step env e w) = Spec.link w
      /\ Spec.sensors (Bridge.step env e w) = Spec.sensors w
      /\ published (Bridge.step env e w) = published w
  | _ =>
      Spec.sensors (Bridge.step env e w) = Spec.sensors w
      /\ published (Bridge.step env e w) = published w
  end.
Proof.
  destruct e as [id|id data|id|id|id|h|msg|k];
    try (match goal with
         | |- _ (Bridge.step env ?e w) = _ /\ _ =>
             destruct (link_event_sensors env e w ltac:(discriminate)
                         ltac:(discriminate)) as (Hs & Hp & _);
             split; assumption
         end).
  - apply step_data_link.
  - split; [apply step_command_link |].
    destruct (link_event_sensors env (Bridge.CommandMessage msg) w
                ltac:(discriminate) ltac:(discriminate)) as (Hs & Hp & _).
    split; assumption.
  - apply step_resumed_link.
Qed.

(** ** The attempt counter in any run *)

Lemma step_attempts env e w :
  0 <= reconnectAttempts w <= maxReconnectAttempts w ->
  maxReconnectAttempts (Bridge.step env e w) = maxReconnectAttempts w
  /\ 0 <= reconnectAttempts (Bridge.step env e w) <= maxReconnectAttempts w.
Proof.
  intros H.
  assert (forall v,
             reconnectAttempts v = reconnectAttempts w ->
             maxReconnectAttempts v = maxReconnectAttempts w ->
             maxReconnectAttempts (SocketManager.handleReconnect v)
             = maxReconnectAttempts w
             /\ 0 <= reconnectAttempts (SocketManager.handleReconnect v)
                <= maxReconnectAttempts w) as R.
  { intros v Ha Hm.
    destruct (handleReconnect_effect v) as (M & _ & C).
    rewrite Ha, Hm in C. rewrite M, Hm. split; [reflexivity |].
    destruct (reconnectAttempts w <? maxReconnectAttempts w) eqn:E;
      destruct C as (-> & _); lia. }
  assert (forall v,
             Spec.link v = Spec.link w ->
             maxReconnectAttempts v = maxReconnectAttempts w
             /\ 0 <= reconnectAttempts v <= maxReconnectAttempts w) as L.
  { intros v E. unfold Spec.link in E.
    assert (reconnectAttempts v = reconnectAttempts w) as -> by congruence.
    split; [congruence | exact H]. }
  destruct e as [id|id data|id|id|id|h|msg|k].
  - cbn [Bridge.step]. destruct (sockets w !! id); [| auto].
    cbn. split; [reflexivity | lia].
  - apply L, step_data_link.
  - cbn [Bridge.step]. unfold SocketManager.on_error.
    destruct (sockets w !! id) as [[]|]; [apply R; reflexivity .. | auto].
  - cbn [Bridge.step]. unfold SocketManager.on_close.
    destruct (sockets w !! id) as [[]|]; [apply R; reflexivity .. | auto].
  - cbn [Bridge.step]. unfold SocketManager.on_timeout.
    destruct (sockets w !! id); [apply R; reflexivity | auto].
  - cbn [Bridge.step]. unfold SocketManager.reconnect_timer_fired.
    destruct (existsb _ _); auto.
  - apply L, step_command_link.
  - apply L, step_resumed_link.
Qed.

(** X21: in any run of frames, commands and link events the attempt
    counter stays between 0 and [maxReconnectAttempts], which itself
    never changes. *)
Theorem attempts_within_cap env events w :
  0 <= reconnectAttempts w <= maxReconnectAttempts w ->
  let w' := Bridge.run env events w in
  maxReconnectAttempts w' = maxReconnectAttempts w
  /\ 0 <= reconnectAttempts w' <= maxReconnectAttempts w.
Proof.
  revert w. induction events as [|e events IH]; intros w H; [auto |].
  destruct (step_attempts env e w H) as [M A].
  cbn [Bridge.run fold_left]. rewrite <- M in A.
  destruct (IH (Bridge.step env e w) A) as [M' A'].
  unfold Bridge.run in M', A'. rewrite M', M in *. auto.
Qed.

Lemma attempts_within_cap_witness :
  let w' := Bridge.run Example.env
              [Bridge.SocketError 0; Bridge.SocketClose 0;
               Bridge.SocketTimeout 0; Bridge.TimerFired 2;
               Bridge.SocketError 1; Bridge.SocketClose 1;
               Bridge.SocketError 1]%nat
              Example.started in
  maxReconnectAttempts w' = 5 /\ 0 <= reconnectAttempts w' <= 5.
Proof.
  apply (attempts_within_cap Example.env
           [Bridge.SocketError 0; Bridge.SocketClose 0;
            Bridge.SocketTimeout 0; Bridge.TimerFired 2;
            Bridge.SocketError 1; Bridge.SocketClose 1;
            Bridge.SocketError 1]%nat
           Example.started).
  cbn. lia.
Defined.
